(** * VeilNet Conflux: host network integration layer

  A shallow embedding of the Go sources of the conflux package
  (the Linux variant, the macOS variant, and the command-line driver)
  together with the properties of gateway detection, bypass routes,
  host configuration, packet relay and shutdown. *)

From Stdlib Require Import ZArith Ascii String List Lia Bool.
From Stdlib Require Import Numbers.DecimalString Strings.Byte.
From stdpp Require Import base tactics option list gmap strings.

Local Open Scope string_scope.
Local Open Scope list_scope.

(** ** The parts of Go's [strings] package the sources use

  Go strings are byte strings; they are modelled by [string].  The
  whitespace class is the one [strings.Fields] and [strings.TrimSpace]
  use on ASCII input (tab, line feed, vertical tab, form feed, carriage
  return, space); the commands whose output is parsed print ASCII. *)
Module strings.

Definition isSpace (c : ascii) : bool :=
match nat_of_ascii c with
| 9 | 10 | 11 | 12 | 13 | 32 => true
| _ => false
end.

Definition HasPrefix (s p : string) : bool := String.prefix p s.

(** [strings.Split(s, sep)] for a one-byte separator: the pieces between
  the separators, one more than there are separators. *)
Fixpoint Split (s : string) (sep : ascii) : list string :=
match s with
| EmptyString => [EmptyString]
| String c s' =>
    if Ascii.eqb c sep then EmptyString :: Split s' sep
    else match Split s' sep with
         | piece :: pieces => String c piece :: pieces
         | [] => [String c EmptyString]
         end
end.

(** [strings.Fields]: [cur] is the field being read (Go keeps its start
  index), closed at each whitespace byte and at the end of input. *)
Fixpoint fieldsFrom (cur : string) (s : string) : list string :=
match s with
| EmptyString => if decide (cur = "") then [] else [cur]
| String c s' =>
    if isSpace c
    then (if decide (cur = "") then fieldsFrom "" s'
          else cur :: fieldsFrom "" s')
    else fieldsFrom (cur +:+ String c "") s'
end.

Definition Fields (s : string) : list string := fieldsFrom "" s.

Fixpoint TrimLeftSpace (s : string) : string :=
match s with
| EmptyString => EmptyString
| String c s' => if isSpace c then TrimLeftSpace s' else s
end.

Fixpoint TrimRightSpace (s : string) : string :=
match s with
| EmptyString => EmptyString
| String c s' =>
    match TrimRightSpace s' with
    | EmptyString => if isSpace c then EmptyString else String c EmptyString
    | r => String c r
    end
end.

Definition TrimSpace (s : string) : string := TrimRightSpace (TrimLeftSpace s).

Definition TrimPrefix (s p : string) : string :=
if HasPrefix s p
then String.substring (String.length p) (String.length s - String.length p) s
else s.

End strings.

(** ** Go values shared by the platform variants *)

(** A Go [error]: [None] is [nil], [Some msg] an error with its message. *)
Definition error := option string.

#[global] Instance byte_eq_decision : EqDecision byte := Byte.byte_eq_dec.

(** [net.IP] is a byte slice of length 4 or 16. *)
Definition IP := list byte.

Module net.

Definition v4InV6Prefix : list byte :=
[x00; x00; x00; x00; x00; x00; x00; x00; x00; x00; xff; xff].

(** [ip.To4()]: [None] is the [nil] result for an address that is not IPv4. *)
Definition To4 (ip : IP) : option IP :=
if decide (length ip = 4) then Some ip
else if decide (length ip = 16 ∧ take 12 ip = v4InV6Prefix) then Some (drop 12 ip)
else None.

Definition ubtoa (b : byte) : string :=
NilZero.string_of_uint (N.to_uint (Byte.to_N b)).

(** [ip.String()] on the 4-byte form, the only form the sources print
  (they print results of [To4]); other lengths print as Go prints an
  address of invalid length. *)
Definition String (ip : IP) : string :=
match ip with
| [a; b; c; d] => ubtoa a +:+ "." +:+ ubtoa b +:+ "." +:+ ubtoa c +:+ "." +:+ ubtoa d
| [] => "<nil>"
| _ => "?"
end.

End net.

(** The tunnel endpoint ([veilnet.Anchor]) and the virtual interface
  ([tun.Device]) are external; only what the conflux reads from them is
  kept.  A [nil] pointer is [None]. *)
Record Anchor := { veilHost : string }.
Record Device := { batchSize : nat }.

Record conflux := mkConflux {
anchor : option Anchor;
device : option Device;
portal : bool;
gateway : string;
iface : string;
bypassRoutes : gmap string string;   (* sync.Map, keyed by host name *)
ipForwardEnabled : bool;
once : bool                          (* sync.Once: the body has run *)
}.

Definition newConflux : conflux :=
mkConflux None None false "" "" ∅ false false.

Definition set_anchor (a : option Anchor) (c : conflux) : conflux :=
mkConflux a (device c) (portal c) (gateway c) (iface c) (bypassRoutes c)
          (ipForwardEnabled c) (once c).
Definition set_route (gw ifc : string) (c : conflux) : conflux :=
mkConflux (anchor c) (device c) (portal c) gw ifc (bypassRoutes c)
          (ipForwardEnabled c) (once c).
Definition set_bypassRoutes (m : gmap string string) (c : conflux) : conflux :=
mkConflux (anchor c) (device c) (portal c) (gateway c) (iface c) m
          (ipForwardEnabled c) (once c).
Definition set_ipForwardEnabled (b : bool) (c : conflux) : conflux :=
mkConflux (anchor c) (device c) (portal c) (gateway c) (iface c) (bypassRoutes c)
          b (once c).
Definition set_once (b : bool) (c : conflux) : conflux :=
mkConflux (anchor c) (device c) (portal c) (gateway c) (iface c) (bypassRoutes c)
          (ipForwardEnabled c) b.
Definition set_device (d : option Device) (c : conflux) : conflux :=
mkConflux (anchor c) d (portal c) (gateway c) (iface c) (bypassRoutes c)
          (ipForwardEnabled c) (once c).
Definition set_portal (p : bool) (c : conflux) : conflux :=
mkConflux (anchor c) (device c) p (gateway c) (iface c) (bypassRoutes c)
          (ipForwardEnabled c) (once c).

(** ** Effects

  What a run does to the outside is recorded as a trace of events, in
  the order they happen. *)
Inductive level := InfoLevel | WarnLevel | ErrorLevel.

Inductive event :=
| EvExec (argv : list string) (err : error)   (* exec.Command(argv...) ran *)
| EvLog (lvl : level) (msg : string)
| EvLookup (host : string) (answer : list IP + string)   (* net.LookupIP(host) *)
| EvAnchorStop                                 (* anchor.Stop() *)
| EvDeviceClose                                (* device.Close() *)
| EvDeviceWrite (bufs : list (list byte)) (offset : Z).

(** The environment of a run: the operating system that executes the
  commands (it has its own state [W]), the resolver, and the order in
  which [sync.Map.Range] visits a table, which Go leaves unspecified. *)
Class Env (W : Type) := {
env_exec : list string → W → W * (string * error);   (* stdout, error *)
env_lookupIP : string → W → list IP + string;
env_range : gmap string string → list (string * string);
env_range_perm : ∀ m, env_range m ≡ₚ map_to_list m
}.

(** A call returns a value or panics; the state reached and the events
  emitted so far are kept in both cases. *)
Inductive result (A : Type) :=
| Val (a : A)
| Panic (msg : string).
Arguments Val {A} a.
Arguments Panic {A} msg.

Definition M (W A : Type) : Type := conflux → W → result A * conflux * W * list event.

Section Monad.
Context {W : Type}.

Definition ret {A} (a : A) : M W A := λ c w, (Val a, c, w, []).

Definition bind {A B} (m : M W A) (k : A → M W B) : M W B :=
  λ c w,
    match m c w with
    | (Val a, c1, w1, t1) =>
        let '(r, c2, w2, t2) := k a c1 w1 in (r, c2, w2, t1 ++ t2)
    | (Panic msg, c1, w1, t1) => (Panic msg, c1, w1, t1)
    end.

Definition panic {A} (msg : string) : M W A := λ c w, (Panic msg, c, w, []).
Definition getSelf : M W conflux := λ c w, (Val c, c, w, []).
Definition modifySelf (f : conflux → conflux) : M W unit := λ c w, (Val tt, f c, w, []).
Definition emit (e : event) : M W unit := λ c w, (Val tt, c, w, [e]).

Definition Infof (msg : string) : M W unit := emit (EvLog InfoLevel msg).
Definition Warnf (msg : string) : M W unit := emit (EvLog WarnLevel msg).
Definition Errorf (msg : string) : M W unit := emit (EvLog ErrorLevel msg).

Context `{!Env W}.

(** [exec.Command(argv...).Output()] *)
Definition Output (argv : list string) : M W (string * error) :=
  λ c w, let '(w', (out, err)) := env_exec argv w in
         (Val (out, err), c, w', [EvExec argv err]).

(** [exec.Command(argv...).Run()] *)
Definition Run (argv : list string) : M W error :=
  bind (Output argv) (λ '(_, err), ret err).

Definition LookupIP (host : string) : M W (list IP + string) :=
  λ c w, let answer := env_lookupIP host w in
         (Val answer, c, w, [EvLookup host answer]).

(** [for _, x := range xs { body x }] *)
Fixpoint forEach {A} (xs : list A) (body : A → M W unit) : M W unit :=
  match xs with
  | [] => ret tt
  | x :: xs' => bind (body x) (λ _, forEach xs' body)
  end.

(** [sync.Map.Range]: the callback is applied to the entries in the
    order the runtime picks, until it returns [false]. *)
Fixpoint rangeOver (f : string → string → M W bool)
         (entries : list (string * string)) : M W unit :=
  match entries with
  | [] => ret tt
  | (key, value) :: rest =>
      bind (f key value) (λ continue, if continue : bool then rangeOver f rest else ret tt)
  end.

Definition Range (f : string → string → M W bool) : M W unit :=
  bind getSelf (λ c, rangeOver f (env_range (bypassRoutes c))).

(** [sync.Once.Do]: the flag is set when the body returns or panics. *)
Definition Once_Do (f : M W unit) : M W unit :=
  λ c w,
    if once c then (Val tt, c, w, [])
    else let '(r, c', w', t) := f c w in (r, set_once true c', w', t).
End Monad.

Notation "'let*' x := m 'in' k" := (bind m (λ x, k))
(at level 10, x name, m at level 100, k at level 200, only parsing).
Notation "'let*' ' p := m 'in' k" := (bind m (λ x, match x with p => k end))
(at level 10, p pattern, m at level 100, k at level 200, only parsing).
Notation "m ;;; k" := (bind m (λ _, k))
(at level 100, k at level 200, right associativity, only parsing).

(** ** Libraries outside the repository *)

(** What the libraries answer during [Start]: [tun.CreateTUN], which
  also creates the interface on the host, [veilnet.NewAnchor],
  [anchor.Start] and [anchor.GetCIDR]. *)
Record startup (W : Type) := {
tunCreate : W → W * (Device + string);
anchorNew : Anchor;
anchorStart : string → string → bool → error;
anchorGetCIDR : string + string
}.
Arguments tunCreate {W} _ _.
Arguments anchorNew {W} _.
Arguments anchorStart {W} _ _ _ _.
Arguments anchorGetCIDR {W} _.

(** [strconv.Itoa], also the [%d] of [fmt]. *)
Definition Itoa (i : Z) : string := NilZero.string_of_int (Z.to_int i).

(** ** Slices of packets *)

(** [copy(dst, src)]: the first [min(len(dst), len(src))] bytes of [dst]
  are overwritten. *)
Definition copy (dst src : list byte) : list byte :=
take (length dst `min` length src) src ++ drop (length src) dst.

(** The body of the framing loop:
  [newBuf := make([]byte, 16+len(bufs[i])); copy(newBuf[16:], bufs[i]); bufs[i] = newBuf].
  [None] is the panic of an index out of range. *)
Definition frameAt (bufs : list (list byte)) (i : nat) : option (list (list byte)) :=
match bufs !! i with
| Some b =>
    let newBuf := replicate (16 + length b) x00 in
    let newBuf := take 16 newBuf ++ copy (drop 16 newBuf) b in
    Some (<[i := newBuf]> bufs)
| None => None
end.

(** [for i := 0; i < n; i++ { ... }] *)
Definition frameLoop (bufs : list (list byte)) (n : Z) : option (list (list byte)) :=
foldl (λ acc i, acc ≫= λ bufs, frameAt bufs i) (Some bufs) (seq 0 (Z.to_nat n)).

(** [bufs[:n]] on a slice whose capacity is its length. *)
Definition sliceTo {A} (bufs : list A) (n : Z) : option (list A) :=
if decide (0 ≤ n ≤ Z.of_nat (length bufs))%Z then Some (take (Z.to_nat n) bufs) else None.

(** What the egress loop does to the outside: it logs, and it hands
  packets to the tunnel endpoint ([anchor.Write(bufs, sizes)]). *)
Inductive egressEvent :=
| EgLog (lvl : level) (msg : string)
| EgAnchorWrite (bufs : list (list byte)) (sizes : list Z).

(** [mtu, err := c.device.MTU()] with the fallback of [egress], and the
  buffers allocated with it; [None] is the panic of [make] on a
  negative length. *)
Definition egressBuffers (batch : nat) (mtu : Z + string) :
option (list (list byte)) * list egressEvent :=
let '(mtu, logged) :=
  match mtu with
  | inl m => (m, [])
  | inr e => (1500%Z, [EgLog ErrorLevel ("failed to get TUN MTU: " +:+ e)])
  end in
if decide (batch ≠ 0 ∧ (mtu < 0)%Z) then (None, logged)
else (Some (replicate batch (replicate (Z.to_nat mtu) x00)), logged).

(** ** The Linux variant *)
Module Linux.

(** One turn of the ingress loop, as the scheduler and the tunnel endpoint
  decide it: the context is done, or [anchor.Read] returns an error or
  a count, having left [bufs] in some state. *)
Inductive ingressTurn :=
| CtxDone
| ReadFails (bufs : list (list byte))
| ReadReturns (bufs : list (list byte)) (n : Z).

(** One turn of the egress loop: the context is done, or [device.Read]
  returns an error or a count, having left [bufs] and [sizes] in some
  state. *)
Inductive egressTurn :=
| EgressDone
| EgressReadFails
| EgressReads (bufs : list (list byte)) (sizes : list Z) (n : Z).

Section WithEnv.
Context {W : Type} `{!Env W}.

(** The inner loop of [DetectHostGateway]:
    [for i := 0; i < len(fields); i++ { ... }]. *)
Definition scanFields (fields : list string) : string * string :=
  foldl (λ '(gateway, iface) i,
           let gateway :=
             if decide (fields !! i = Some "via" ∧ i + 1 < length fields)
             then default "" (fields !! (i + 1)) else gateway in
           let iface :=
             if decide (fields !! i = Some "dev" ∧ i + 1 < length fields)
             then default "" (fields !! (i + 1)) else iface in
           (gateway, iface))
        ("", "") (seq 0 (length fields)).

(** The outer loop: the first line that starts with [default] is
    scanned, and the loop breaks. *)
Fixpoint scanLines (lines : list string) : string * string :=
  match lines with
  | [] => ("", "")
  | line :: rest =>
      if strings.HasPrefix line "default" then scanFields (strings.Fields line)
      else scanLines rest
  end.

Definition DetectHostGateway : M W error :=
  let* '(out, err) := Output ["ip"; "route"; "show"; "default"] in
  match err with
  | Some e =>
      Errorf ("Failed to get default route: " +:+ e) ;;;
      ret (Some e)
  | None =>
      let lines := strings.Split out "010" in
      let '(gateway, iface) := scanLines lines in
      if decide (gateway = "" ∨ iface = "") then
        Errorf "Host default gateway or interface not found" ;;;
        ret (Some "host default gateway or interface not found")
      else
        Infof ("Found Host Default gateway: " +:+ gateway +:+ " via interface " +:+ iface) ;;;
        modifySelf (set_route gateway iface) ;;;
        ret None
  end.

Definition hosts : list string :=
  ["stun.cloudflare.com"; "turn.cloudflare.com"; "guardian.veilnet.org"].

Definition AddBypassRoutes : M W unit :=
  forEach hosts (λ host,
    let* r := LookupIP host in
    match r with
    | inr err => Errorf ("Failed to resolve " +:+ host +:+ ": " +:+ err)
    | inl ips =>
        forEach ips (λ ip,
          match net.To4 ip with
          | Some ip4 =>
              let dest := net.String ip4 in
              let* c := getSelf in
              Run ["ip"; "route"; "add"; dest; "via"; gateway c; "dev"; iface c] ;;;
              modifySelf (λ c, set_bypassRoutes (<[host := dest]> (bypassRoutes c)) c)
          | None => ret tt
          end)
    end).

Definition RemoveBypassRoutes : M W unit :=
  Range (λ key value,
    let* err := Run ["ip"; "route"; "del"; value] in
    match err with
    | Some e =>
        Errorf ("Failed to clear bypass route for " +:+ key +:+ ": " +:+ e) ;;;
        ret false
    | None => ret true
    end).

(** [c.anchor.GetVeilHost()]: the accessor reads the anchor's state, so
    through a nil anchor it is a nil-pointer dereference. *)
Definition GetVeilHost : M W string :=
  let* c := getSelf in
  match anchor c with
  | Some a => ret (veilHost a)
  | None => panic "invalid memory address or nil pointer dereference"
  end.

(** [if err := exec.Command(argv...).Run(); err != nil { Errorf(msg, err); return err }] *)
Definition orReturn (argv : list string) (msg : string) (k : M W error) : M W error :=
  let* err := Run argv in
  match err with
  | Some e => Errorf (msg +:+ e) ;;; ret (Some e)
  | None => k
  end.

(** [if err := exec.Command(argv...).Run(); err != nil { log(msg, err) }] *)
Definition orLog (log : string → M W unit) (argv : list string) (msg : string) : M W unit :=
  let* err := Run argv in
  match err with
  | Some e => log (msg +:+ e)
  | None => ret tt
  end.

Definition ConfigHost (ip netmask : string) : M W error :=
  let* veilHost := GetVeilHost in
  let* c := getSelf in
  (if decide (veilHost ≠ "")
   then Run ["ip"; "route"; "add"; veilHost; "via"; gateway c; "dev"; iface c] ;;; ret tt
   else ret tt) ;;;
  orReturn ["ip"; "addr"; "flush"; "dev"; "veilnet"] "failed to clear existing IPs: " (
  orReturn ["ip"; "addr"; "add"; ip +:+ "/" +:+ netmask; "dev"; "veilnet"]
           "failed to set IP address: " (
  Infof ("VeilNet TUN IP address set to " +:+ ip) ;;;
  orReturn ["ip"; "link"; "set"; "up"; "veilnet"] "failed to set interface up: " (
  Infof "VeilNet TUN interface set to up" ;;;
  if portal c then
    orReturn ["iptables"; "-A"; "FORWARD"; "-i"; "veilnet"; "-j"; "ACCEPT"]
             "failed to set inbound iptables FORWARD rules: " (
    orReturn ["iptables"; "-A"; "FORWARD"; "-o"; "veilnet"; "-j"; "ACCEPT"]
             "failed to set outbound iptables FORWARD rules: " (
    Infof "Updated iptables FORWARD rules for VeilNet TUN" ;;;
    orReturn ["iptables"; "-t"; "nat"; "-A"; "POSTROUTING"; "-o"; iface c; "-j"; "MASQUERADE"]
             "failed to set NAT rules: " (
    Infof "Set up NAT for VeilNet TUN" ;;;
    let* '(output, err) := Output ["sysctl"; "-n"; "net.ipv4.ip_forward"] in
    match err with
    | Some e => Errorf ("failed to check IP forwarding status: " +:+ e) ;;; ret (Some e)
    | None =>
        let enabled := bool_decide (strings.TrimSpace output = "1") in
        modifySelf (set_ipForwardEnabled enabled) ;;;
        if negb enabled then
          orReturn ["sysctl"; "-w"; "net.ipv4.ip_forward=1"] "failed to enable IP forwarding: " (
          Infof "IP forwarding enabled" ;;;
          ret None)
        else
          Infof "IP forwarding already enabled" ;;;
          ret None
    end)))
  else
    orReturn ["ip"; "route"; "del"; "default"; "via"; gateway c; "dev"; iface c]
             "Failed to delete default route: " (
    orReturn ["ip"; "route"; "add"; "default"; "via"; gateway c; "dev"; iface c; "metric"; "50"]
             "Failed to add default route: " (
    Infof ("Altered host default route via " +:+ gateway c +:+ " on " +:+ iface c
           +:+ " with metric 50") ;;;
    orReturn ["ip"; "route"; "add"; "default"; "dev"; "veilnet"]
             "Failed to set default route: " (
    Infof "Set veilnet as default route" ;;;
    ret None)))))).

Definition CleanHostConfiguraions : M W unit :=
  let* veilHost := GetVeilHost in
  let* c := getSelf in
  (if decide (veilHost ≠ "")
   then Run ["ip"; "route"; "del"; veilHost; "via"; gateway c; "dev"; iface c] ;;; ret tt
   else ret tt) ;;;
  if portal c then
    orLog Warnf ["iptables"; "-D"; "FORWARD"; "-i"; "veilnet"; "-j"; "ACCEPT"]
          "failed to remove inbound iptables FORWARD rule: " ;;;
    orLog Warnf ["iptables"; "-D"; "FORWARD"; "-o"; "veilnet"; "-j"; "ACCEPT"]
          "failed to remove outbound iptables FORWARD rule: " ;;;
    Infof "Removed inbound and outbound iptables FORWARD rules" ;;;
    orLog Warnf ["iptables"; "-t"; "nat"; "-D"; "POSTROUTING"; "-o"; iface c; "-j"; "MASQUERADE"]
          "failed to remove NAT rule: " ;;;
    Infof "Removed NAT rule" ;;;
    if negb (ipForwardEnabled c) then
      orLog Warnf ["sysctl"; "-w"; "net.ipv4.ip_forward=0"] "failed to disable IP forwarding: " ;;;
      Infof "Disabled IP forwarding"
    else ret tt
  else
    orLog Errorf ["ip"; "route"; "del"; "default"; "dev"; "veilnet"]
          "Failed to remove veilnet TUN as default route: " ;;;
    Infof "Removed veilnet TUN as default route" ;;;
    orLog Errorf ["ip"; "route"; "del"; "default"; "via"; gateway c; "dev"; iface c]
          "Failed to delete altered host default route: " ;;;
    Infof "Removed altered host default route" ;;;
    orLog Errorf ["ip"; "route"; "add"; "default"; "via"; gateway c; "dev"; iface c]
          "Failed to restore default route on host: " ;;;
    Infof "Restored default route on host".

Definition Stop : M W unit :=
  Once_Do (
    (let* c := getSelf in
     if anchor c is Some _ then emit EvAnchorStop else ret tt) ;;;
    modifySelf (set_anchor None) ;;;
    CleanHostConfiguraions ;;;
    RemoveBypassRoutes ;;;
    let* c := getSelf in
    if device c is Some _ then emit EvDeviceClose else ret tt).

(** The loop of [ingress], run against a list of turns; when the list
    is used up nothing more is observed. *)
Fixpoint ingressLoop (turns : list ingressTurn) (bufs : list (list byte)) : M W unit :=
  match turns with
  | [] => ret tt
  | CtxDone :: _ => Infof "Portal ingress stopped"
  | ReadFails bufs' :: rest => ingressLoop rest bufs'
  | ReadReturns bufs' n :: rest =>
      match frameLoop bufs' n with
      | None => panic "index out of range"
      | Some framed =>
          match sliceTo framed n with
          | None => panic "slice bounds out of range"
          | Some batch =>
              emit (EvDeviceWrite batch 16) ;;;
              ingressLoop rest framed
          end
      end
  end.

Definition ingress (turns : list ingressTurn) : M W unit :=
  let* c := getSelf in
  match device c, anchor c with
  | Some d, Some _ => ingressLoop turns (replicate (batchSize d) [])
  | _, _ => panic "invalid memory address or nil pointer dereference"
  end.

(** [c.device, err = tun.CreateTUN("veilnet", 1500)]: the field is
    assigned whatever the outcome; on an error the library returns no
    device. *)
Definition CreateTUN (ext : startup W) : M W error :=
  λ c w,
    let '(w', r) := tunCreate ext w in
    match r with
    | inl d => (Val None, set_device (Some d) c, w', [])
    | inr e =>
        (Val (Some e), set_device None c, w',
         [EvLog ErrorLevel ("failed to create TUN device: " +:+ e)])
    end.

Definition StartAnchor (ext : startup W) (apiBaseURL anchorToken : string) (portal : bool) :
  M W error :=
  let* c := getSelf in
  match anchor c with
  | Some _ => ret (anchorStart ext apiBaseURL anchorToken portal)
  | None => panic "invalid memory address or nil pointer dereference"
  end.

Definition StopAnchor : M W unit :=
  let* c := getSelf in
  match anchor c with
  | Some _ => emit EvAnchorStop
  | None => panic "invalid memory address or nil pointer dereference"
  end.

(** [Start], up to its return; the goroutines it starts last (the two
    relay loops and the watcher of the anchor's context) run after it. *)
Definition Start (ext : startup W) (apiBaseURL anchorToken : string) (portal : bool) :
  M W error :=
  modifySelf (set_portal portal) ;;;
  let* err := DetectHostGateway in
  match err with
  | Some e => ret (Some e)
  | None =>
      AddBypassRoutes ;;;
      let* err := CreateTUN ext in
      match err with
      | Some e => ret (Some e)
      | None =>
          modifySelf (set_anchor (Some (anchorNew ext))) ;;;
          let* err := StartAnchor ext apiBaseURL anchorToken portal in
          match err with
          | Some e => ret (Some e)
          | None =>
              match anchorGetCIDR ext with
              | inr e => ret (Some e)
              | inl cidr =>
                  match strings.Split cidr "/" with
                  | [ip; netmask] =>
                      let* err := ConfigHost ip netmask in
                      match err with
                      | Some e => ret (Some e)
                      | None => ret None
                      end
                  | _ => ret (Some ("invalid CIDR format: " +:+ cidr))
                  end
              end
          end
      end
  end.

End WithEnv.

(** The loop of [egress], run against a list of turns: a batch that was
  read is handed to the tunnel endpoint as [bufs[:n]] with
  [sizes[:n]]. *)
Fixpoint egressLoop (turns : list egressTurn) : result unit * list egressEvent :=
match turns with
| [] => (Val tt, [])
| EgressDone :: _ => (Val tt, [EgLog InfoLevel "Portal egress stopped"])
| EgressReadFails :: rest => egressLoop rest
| EgressReads bufs sizes n :: rest =>
    match sliceTo bufs n, sliceTo sizes n with
    | Some batch, Some lens =>
        let '(r, t) := egressLoop rest in (r, EgAnchorWrite batch lens :: t)
    | _, _ => (Panic "slice bounds out of range", [])
    end
end.

(** [egress]; [mtu] is what [c.device.MTU()] returns. *)
Definition egress (c : conflux) (mtu : Z + string) (turns : list egressTurn) :
result unit * list egressEvent :=
match device c with
| None => (Panic "invalid memory address or nil pointer dereference", [])
| Some d =>
    match egressBuffers (batchSize d) mtu with
    | (None, logged) => (Panic "makeslice: len out of range", logged)
    | (Some _, logged) =>
        match anchor c with
        | None => (Panic "invalid memory address or nil pointer dereference", logged)
        | Some _ => let '(r, t) := egressLoop turns in (r, logged ++ t)
        end
    end
end.

End Linux.

(** ** The macOS variant *)
Module Darwin.

(** A turn of the ingress loop; the macOS [Read] has no error result. *)
Inductive ingressTurn :=
| CtxDone
| ReadReturns (bufs : list (list byte)) (n : Z).

(** A turn of the egress loop, as on Linux. *)
Inductive egressTurn :=
| EgressDone
| EgressReadFails
| EgressReads (bufs : list (list byte)) (sizes : list Z) (n : Z).

Section WithEnv.
Context {W : Type} `{!Env W}.

(** The loop body of [DetectHostGateway]; the fields of the conflux are
    assigned directly, a later line overwrites an earlier one. *)
Definition scanLine (acc : string * string) (line : string) : string * string :=
  let '(gateway, iface) := acc in
  let line := strings.TrimSpace line in
  let gateway :=
    if strings.HasPrefix line "gateway:"
    then strings.TrimSpace (strings.TrimPrefix line "gateway:") else gateway in
  let iface :=
    if strings.HasPrefix line "interface:"
    then strings.TrimSpace (strings.TrimPrefix line "interface:") else iface in
  (gateway, iface).

Definition DetectHostGateway : M W error :=
  let* '(out, err) := Output ["route"; "-n"; "get"; "default"] in
  match err with
  | Some e =>
      Errorf ("Failed to get default route: " +:+ e) ;;;
      ret (Some e)
  | None =>
      let lines := strings.Split out "010" in
      let* c := getSelf in
      let '(gateway, iface) := foldl scanLine (gateway c, iface c) lines in
      modifySelf (set_route gateway iface) ;;;
      if decide (gateway = "" ∨ iface = "") then
        Errorf "Host default gateway or interface not found" ;;;
        ret (Some "default gateway or interface not found")
      else
        Infof ("Found Host Default gateway: " +:+ gateway +:+ " via interface " +:+ iface) ;;;
        ret None
  end.

Definition hosts : list string :=
  ["stun.cloudflare.com"; "turn.cloudflare.com"; "guardian.veilnet.org"; "turn.veilnet.org"].

Definition AddBypassRoutes : M W unit :=
  forEach hosts (λ host,
    let* r := LookupIP host in
    match r with
    | inr err => Errorf ("Failed to resolve " +:+ host +:+ ": " +:+ err)
    | inl ips =>
        forEach ips (λ ip,
          match net.To4 ip with
          | Some ip4 =>
              let dest := net.String ip4 in
              let* c := getSelf in
              Run ["route"; "-n"; "add"; dest; gateway c; "-interface"; iface c] ;;;
              modifySelf (λ c, set_bypassRoutes (<[host := dest]> (bypassRoutes c)) c)
          | None => ret tt
          end)
    end).

Definition RemoveBypassRoutes : M W unit :=
  Range (λ key value,
    let* err := Run ["route"; "-n"; "del"; value] in
    match err with
    | Some e =>
        Errorf ("Failed to clear bypass route for " +:+ key +:+ ": " +:+ e) ;;;
        ret false
    | None => ret true
    end).

Definition convertNetmask (cidr : string) : string :=
  if decide (cidr = "8") then "255.0.0.0"
  else if decide (cidr = "16") then "255.255.0.0"
  else if decide (cidr = "24") then "255.255.255.0"
  else if decide (cidr = "32") then "255.255.255.255"
  else "255.255.255.0".

Definition GetVeilHost : M W string :=
  let* c := getSelf in
  match anchor c with
  | Some a => ret (veilHost a)
  | None => panic "invalid memory address or nil pointer dereference"
  end.

Definition orReturn (argv : list string) (msg : string) (k : M W error) : M W error :=
  let* err := Run argv in
  match err with
  | Some e => Errorf (msg +:+ e) ;;; ret (Some e)
  | None => k
  end.

Definition orLog (argv : list string) (msg : string) : M W unit :=
  let* err := Run argv in
  match err with
  | Some e => Errorf (msg +:+ e)
  | None => ret tt
  end.

Definition ConfigHost (ip netmask : string) : M W error :=
  let* veilHost := GetVeilHost in
  let* c := getSelf in
  (if decide (veilHost ≠ "")
   then Run ["route"; "-n"; "add"; veilHost; gateway c; "-interface"; iface c] ;;; ret tt
   else ret tt) ;;;
  orReturn ["ifconfig"; "veilnet"; "up"] "Failed to bring interface veilnet up: " (
  Infof "Set VeilNet TUN interface up" ;;;
  orReturn ["ifconfig"; "veilnet"; "inet"; ip; "netmask"; convertNetmask netmask]
           ("Failed to set IP " +:+ ip +:+ "/" +:+ netmask +:+ " on veilnet: ") (
  Infof ("Set VeilNet TUN IP to " +:+ ip +:+ "/" +:+ netmask) ;;;
  orReturn ["route"; "-n"; "delete"; "default"] "Failed to delete original default route: " (
  Infof "Deleted original default route" ;;;
  orReturn ["route"; "-n"; "add"; "default"; gateway c; "-hopcount"; "10"]
           "Failed to recreate default route with higher hopcount: " (
  Infof "Recreated default route with hopcount 10" ;;;
  orReturn ["route"; "-n"; "add"; "default"; "-interface"; "veilnet"; "-hopcount"; "5"]
           "Failed to set default route: " (
  Infof "Set veilnet as default route with hopcount 5" ;;;
  ret None))))).

Definition CleanHostConfiguraions : M W unit :=
  let* veilHost := GetVeilHost in
  let* c := getSelf in
  (if decide (veilHost ≠ "")
   then Run ["route"; "-n"; "del"; veilHost; gateway c] ;;; ret tt
   else ret tt) ;;;
  orLog ["route"; "-n"; "delete"; "default"; "-interface"; "veilnet"]
        "Failed to delete TUN default route: " ;;;
  Infof "Deleted TUN default route" ;;;
  orLog ["route"; "-n"; "delete"; "default"] "Failed to delete altered default route: " ;;;
  Infof "Deleted altered default route" ;;;
  orLog ["route"; "-n"; "add"; "default"; gateway c] "Failed to restore host default route: " ;;;
  Infof "Restored host default route".

Definition Stop : M W unit :=
  Once_Do (
    (let* c := getSelf in
     if anchor c is Some _ then emit EvAnchorStop else ret tt) ;;;
    CleanHostConfiguraions ;;;
    RemoveBypassRoutes ;;;
    let* c := getSelf in
    if device c is Some _ then emit EvDeviceClose else ret tt).

(** [c.device, err = tun.CreateTUN("veilnet", 1500)], as on Linux. *)
Definition CreateTUN (ext : startup W) : M W error :=
  λ c w,
    let '(w', r) := tunCreate ext w in
    match r with
    | inl d => (Val None, set_device (Some d) c, w', [])
    | inr e =>
        (Val (Some e), set_device None c, w',
         [EvLog ErrorLevel ("failed to create TUN device: " +:+ e)])
    end.

Definition StartAnchor (ext : startup W) (apiBaseURL anchorToken : string) (portal : bool) :
  M W error :=
  let* c := getSelf in
  match anchor c with
  | Some _ => ret (anchorStart ext apiBaseURL anchorToken portal)
  | None => panic "invalid memory address or nil pointer dereference"
  end.

(** [Start], up to its return.  Portal mode is refused before anything
    is done, and the field [portal] is never assigned.  The goroutines
    it starts last (the two relay loops and the watcher of the anchor's
    context) run after it. *)
Definition Start (ext : startup W) (apiBaseURL anchorToken : string) (portal : bool) :
  M W error :=
  if portal then ret (Some "portal is not supported on Windows")
  else
    let* err := DetectHostGateway in
    match err with
    | Some e => ret (Some e)
    | None =>
        AddBypassRoutes ;;;
        let* err := CreateTUN ext in
        match err with
        | Some e => ret (Some e)
        | None =>
            modifySelf (set_anchor (Some (anchorNew ext))) ;;;
            let* err := StartAnchor ext apiBaseURL anchorToken portal in
            match err with
            | Some e => ret (Some e)
            | None =>
                match anchorGetCIDR ext with
                | inr e => ret (Some e)
                | inl cidr =>
                    match strings.Split cidr "/" with
                    | [ip; netmask] =>
                        let* err := ConfigHost ip netmask in
                        match err with
                        | Some e => ret (Some e)
                        | None => ret None
                        end
                    | _ => ret (Some ("invalid CIDR format: " +:+ cidr))
                    end
                end
            end
        end
    end.

(** The batch is written only when it is not empty. *)
Fixpoint ingressLoop (turns : list ingressTurn) (bufs : list (list byte)) : M W unit :=
  match turns with
  | [] => ret tt
  | CtxDone :: _ => Infof "Portal ingress stopped"
  | ReadReturns bufs' n :: rest =>
      match frameLoop bufs' n with
      | None => panic "index out of range"
      | Some framed =>
          if decide (0 < n)%Z then
            match sliceTo framed n with
            | None => panic "slice bounds out of range"
            | Some batch =>
                emit (EvDeviceWrite batch 16) ;;;
                ingressLoop rest framed
            end
          else ingressLoop rest framed
      end
  end.

Definition ingress (turns : list ingressTurn) : M W unit :=
  let* c := getSelf in
  match device c, anchor c with
  | Some d, Some _ => ingressLoop turns (replicate (batchSize d) [])
  | _, _ => panic "invalid memory address or nil pointer dereference"
  end.

End WithEnv.

(** The loop of [egress]: the batch is handed on only when it is not
  empty. *)
Fixpoint egressLoop (turns : list egressTurn) : result unit * list egressEvent :=
match turns with
| [] => (Val tt, [])
| EgressDone :: _ => (Val tt, [EgLog InfoLevel "Portal egress stopped"])
| EgressReadFails :: rest => egressLoop rest
| EgressReads bufs sizes n :: rest =>
    if decide (0 < n)%Z then
      match sliceTo bufs n, sliceTo sizes n with
      | Some batch, Some lens =>
          let '(r, t) := egressLoop rest in (r, EgAnchorWrite batch lens :: t)
      | _, _ => (Panic "slice bounds out of range", [])
      end
    else egressLoop rest
end.

Definition egress (c : conflux) (mtu : Z + string) (turns : list egressTurn) :
result unit * list egressEvent :=
match device c with
| None => (Panic "invalid memory address or nil pointer dereference", [])
| Some d =>
    match egressBuffers (batchSize d) mtu with
    | (None, logged) => (Panic "makeslice: len out of range", logged)
    | (Some _, logged) =>
        match anchor c with
        | None => (Panic "invalid memory address or nil pointer dereference", logged)
        | Some _ => let '(r, t) := egressLoop turns in (r, logged ++ t)
        end
    end
end.

End Darwin.

(** ** The Windows variant *)
Module Windows.
Section WithEnv.
Context {W : Type} `{!Env W}.

(** The loop of [DetectHostGateway]: the first line with at least five
    fields of which the first two are [0.0.0.0] gives the gateway and
    the interface, and the loop breaks. *)
Fixpoint scanLines (lines : list string) : string * string :=
  match lines with
  | [] => ("", "")
  | line :: rest =>
      let fields := strings.Fields line in
      if decide ((5 ≤ length fields)%nat ∧ fields !! 0 = Some "0.0.0.0"
                 ∧ fields !! 1 = Some "0.0.0.0")
      then (default "" (fields !! 2), default "" (fields !! 3))
      else scanLines rest
  end.

Definition DetectHostGateway : M W error :=
  let* '(out, err) := Output ["route"; "print"; "0.0.0.0"] in
  match err with
  | Some e =>
      Errorf ("Failed to get host default gateway: " +:+ e) ;;;
      ret (Some e)
  | None =>
      let lines := strings.Split out "010" in
      let '(gateway, iface) := scanLines lines in
      if decide (gateway = "" ∨ iface = "") then
        Errorf "Host default gateway or interface not found" ;;;
        ret (Some "host default gateway or interface not found")
      else
        Infof ("Found Host Default gateway: " +:+ gateway +:+ " via interface " +:+ iface) ;;;
        modifySelf (set_route gateway iface) ;;;
        ret None
  end.

Definition GetVeilHost : M W string :=
  let* c := getSelf in
  match anchor c with
  | Some a => ret (veilHost a)
  | None => panic "invalid memory address or nil pointer dereference"
  end.

(** [CleanHostConfiguraions]; [veilnet] is what
    [net.InterfaceByName("veilnet")] returns, the index of the interface
    or an error. *)
Definition CleanHostConfiguraions (veilnet : Z + string) : M W unit :=
  match veilnet with
  | inr e => Errorf ("failed to get VeilNet TUN interface index: " +:+ e)
  | inl index =>
      (let* err := Run ["route"; "delete"; "0.0.0.0"; "mask"; "0.0.0.0"; "if"; Itoa index] in
       match err with
       | Some e => Errorf ("failed to remove VeilNet TUN route: " +:+ e)
       | None => ret tt
       end) ;;;
      Infof "Removed VeilNet TUN as preferred gateway" ;;;
      let* veilHost := GetVeilHost in
      let* c := getSelf in
      (if decide (veilHost ≠ "") then
         let* err := Run ["route"; "delete"; veilHost; "mask"; "255.255.255.255"; gateway c] in
         match err with
         | Some e =>
             Errorf ("Failed to remove route for Veil Master at " +:+ veilHost +:+ " via "
                     +:+ gateway c +:+ ": " +:+ e)
         | None => ret tt
         end
       else ret tt) ;;;
      Infof "Removed bypass routes"
  end.

End WithEnv.
End Windows.

(** ** The command-line driver *)
Module Cli.

Record Up := { Token : string; Portal : bool; Guardian : string }.

(** *** The process that [up] runs

  [Run] reaches the conflux through the [Conflux] interface.  When
  [Start] has returned [nil] other goroutines run beside [Run]: the two
  relay loops and, on Linux and macOS, a watcher that waits for the
  anchor's context and then ends the process, on macOS after a call of
  [Stop].  After the signal [Run] starts one more, which calls [Stop]. *)
Inductive watcherKind :=
| NoWatcher         (* Windows *)
| ExitsAtOnce       (* Linux: Info("Anchor stopped"); os.Exit(1) *)
| StopsThenExits.   (* macOS: Info("Anchor stopped"); c.Stop(); os.Exit(1) *)

Record Conflux (W : Type) := {
NewConflux : conflux;
Start : string → string → bool → M W error;
Stop : M W unit;
watches : watcherKind
}.
Arguments NewConflux {W} _.
Arguments Start {W} _ _ _ _.
Arguments Stop {W} _.
Arguments watches {W} _.

(** Where a goroutine that calls [Stop] stands: before the call, inside
  the body that [once.Do] runs, or after the call. *)
Inductive call := BeforeCall | InBody | AfterCall.

Inductive watcherAt :=
| Waiting                (* at <-c.anchor.Ctx.Done() *)
| Woken (pos : call).    (* past it and its log line, at its call of Stop *)

(** How the process ends: [Run] returns to [main], or another goroutine
  ends the process first, by [os.Exit] or by a panic, which ends a Go
  process with status 2. *)
Inductive ending :=
| Returns (err : error)
| Exits (code : Z).

Record process (W : Type) := mkProcess {
p_self : conflux;                 (* cmd.conflux *)
p_world : W;
p_trace : list event;
p_stopper : option call;          (* the goroutine Run starts after the signal *)
p_watcher : option watcherAt;
p_complete : bool;                (* shutdownComplete holds a value *)
p_end : option ending
}.
Arguments mkProcess {W} _ _ _ _ _ _ _.
Arguments p_self {W} _.
Arguments p_world {W} _.
Arguments p_trace {W} _.
Arguments p_stopper {W} _.
Arguments p_watcher {W} _.
Arguments p_complete {W} _.
Arguments p_end {W} _.

Inductive caller := Stopper | Watcher.

(** The steps of the goroutines.  A schedule lists them in the order
  they take place; time is not measured otherwise: what a schedule
  lists before [SelectTimeout] is what took place in the ten seconds
  after [Run] reached its [select]. *)
Inductive tick :=
| Signal                      (* <-sigChan returns: Run logs, starts the goroutine that
                                 calls Stop and reaches its select *)
| ContextDone                 (* <-c.anchor.Ctx.Done() returns in the watcher *)
| StopEnters (who : caller)   (* a call of Stop gets into the body that once.Do runs *)
| StopEnds                    (* the call that is inside returns or panics *)
| WatcherExits                (* os.Exit(1) after the watcher's call of Stop *)
| RelayPanics                 (* a panic in one of the two relay loops *)
| SelectComplete              (* case <-shutdownComplete *)
| SelectTimeout.              (* case <-time.After(10 * time.Second) *)

Section Process.
Context {W : Type}.

Definition callOf (who : caller) (p : process W) : option call :=
  match who with
  | Stopper => p_stopper p
  | Watcher => match p_watcher p with Some (Woken pos) => Some pos | _ => None end
  end.

Definition setCall (who : caller) (pos : call) (p : process W) : process W :=
  match who with
  | Stopper =>
      mkProcess (p_self p) (p_world p) (p_trace p) (Some pos) (p_watcher p)
                (p_complete p) (p_end p)
  | Watcher =>
      mkProcess (p_self p) (p_world p) (p_trace p) (p_stopper p) (Some (Woken pos))
                (p_complete p) (p_end p)
  end.

(** The caller inside the body: [once.Do] lets in one at a time, and
    a second caller waits until the first is out. *)
Definition inside (p : process W) : option caller :=
  match p_stopper p, p_watcher p with
  | Some InBody, _ => Some Stopper
  | _, Some (Woken InBody) => Some Watcher
  | _, _ => None
  end.

(** After its call the goroutine of [Run] sends on [shutdownComplete],
    which has room for one value. *)
Definition returns (who : caller) (p : process W) : process W :=
  match who with
  | Stopper =>
      mkProcess (p_self p) (p_world p) (p_trace p) (Some AfterCall) (p_watcher p)
                true (p_end p)
  | Watcher => setCall Watcher AfterCall p
  end.

Definition logs (lvl : level) (msg : string) (p : process W) : process W :=
  mkProcess (p_self p) (p_world p) (p_trace p ++ [EvLog lvl msg]) (p_stopper p)
            (p_watcher p) (p_complete p) (p_end p).

Definition ends (e : ending) (p : process W) : process W :=
  mkProcess (p_self p) (p_world p) (p_trace p) (p_stopper p) (p_watcher p)
            (p_complete p) (Some e).

(** One step of the process; a step that cannot take place where the
    goroutines stand changes nothing, and nothing takes place once the
    process has ended.  What a call of [Stop] does to the conflux and
    to the host is accounted for when the call ends: no other goroutine
    of this model reads either while the call is inside. *)
Definition step (prog : Conflux W) (t : tick) (p : process W) : process W :=
  match p_end p with
  | Some _ => p
  | None =>
      match t with
      | Signal =>
          match p_stopper p with
          | None =>
              setCall Stopper BeforeCall
                (logs InfoLevel "Received shutdown signal, shutting down..." p)
          | Some _ => p
          end
      | ContextDone =>
          match p_watcher p, watches prog with
          | Some Waiting, ExitsAtOnce => ends (Exits 1) (logs InfoLevel "Anchor stopped" p)
          | Some Waiting, StopsThenExits =>
              setCall Watcher BeforeCall (logs InfoLevel "Anchor stopped" p)
          | _, _ => p
          end
      | StopEnters who =>
          match callOf who p, inside p with
          | Some BeforeCall, None => setCall who InBody p
          | _, _ => p
          end
      | StopEnds =>
          match inside p with
          | Some who =>
              let '(r, c, w, t) := Stop prog (p_self p) (p_world p) in
              let p' := mkProcess c w (p_trace p ++ t) (p_stopper p) (p_watcher p)
                                  (p_complete p) (p_end p) in
              match r with
              | Val _ => returns who p'
              | Panic _ => ends (Exits 2) p'
              end
          | None => p
          end
      | WatcherExits =>
          match p_watcher p with
          | Some (Woken AfterCall) => ends (Exits 1) p
          | _ => p
          end
      | RelayPanics => ends (Exits 2) p
      | SelectComplete =>
          match p_stopper p, p_complete p with
          | Some _, true =>
              ends (Returns None) (logs InfoLevel "Shutdown completed successfully" p)
          | _, _ => p
          end
      | SelectTimeout =>
          match p_stopper p with
          | Some _ => ends (Returns None) (logs WarnLevel "Shutdown timeout, forcing exit" p)
          | None => p
          end
      end
  end.

Fixpoint steps (prog : Conflux W) (schedule : list tick) (p : process W) : process W :=
  match schedule with
  | [] => p
  | t :: rest => steps prog rest (step prog t p)
  end.

(** The process when [Start] has returned [nil]: [Run] waits for a
    signal, the watcher for the anchor's context. *)
Definition started (prog : Conflux W) (c : conflux) (w : W) (t : list event) : process W :=
  mkProcess c w t None (if watches prog is NoWatcher then None else Some Waiting) false None.

(** [Up.Run] with the goroutines beside it, under a schedule.  A panic
    inside [Start] ends the process as any panic does. *)
Definition Run (prog : Conflux W) (cmd : Up) (w : W) (schedule : list tick) : process W :=
  if decide (Guardian cmd = "")
  then mkProcess (NewConflux prog) w [] None None false
                 (Some (Returns (Some "guardian url is not set")))
  else if decide (Token cmd = "")
  then mkProcess (NewConflux prog) w [] None None false
                 (Some (Returns (Some "conflux token is not set")))
  else
    let '(r, c, w', t) :=
      Start prog (Guardian cmd) (Token cmd) (Portal cmd) (NewConflux prog) w in
    match r with
    | Panic _ => mkProcess c w' t None None false (Some (Exits 2))
    | Val (Some e) => mkProcess c w' t None None false (Some (Returns (Some e)))
    | Val None => steps prog schedule (started prog c w' t)
    end.

(** [main]: the events of the run and the exit code of the process, if
    the schedule ends it.  [os.Exit(1)] when [ctx.Run()] returns an
    error; returning from [main] ends the process with code 0. *)
Definition main (prog : Conflux W) (cmd : Up) (w : W) (schedule : list tick) :
  list event * option Z :=
  let p := Run prog cmd w schedule in
  match p_end p with
  | Some (Returns (Some e)) => (p_trace p ++ [EvLog ErrorLevel e], Some 1%Z)
  | Some (Returns None) => (p_trace p, Some 0%Z)
  | Some (Exits code) => (p_trace p, Some code)
  | None => (p_trace p, None)
  end.

(** [NewConflux()] of the Linux build and of the macOS build. *)
Definition onLinux `{!Env W} (ext : startup W) : Conflux W :=
  {| NewConflux := newConflux; Start := Linux.Start ext; Stop := Linux.Stop;
     watches := ExitsAtOnce |}.

Definition onDarwin `{!Env W} (ext : startup W) : Conflux W :=
  {| NewConflux := newConflux; Start := Darwin.Start ext; Stop := Darwin.Stop;
     watches := StopsThenExits |}.

End Process.

(** *** Registration with the guardian

  An HTTP request as the sources build it ([Header.Set] is an insertion
  into the map of headers), and what the sources read of a response:
  the status code and the body, or the error of [io.ReadAll]. *)
Record request := {
method : string;
url : string;
headers : gmap string string;
body : string
}.

Record response := { StatusCode : Z; Body : string + string }.

Record LoginResponse := {
AccessToken : string;
RefreshToken : string;
ExpiresIn : Z;
TokenType : string
}.

(** What lies outside the repository: the JSON codec, the checks of
  [http.NewRequest], and the server behind [client.Do]. *)
Record web := {
marshalLogin : string → string → string + string;   (* json.Marshal(LoginRequest{...}) *)
unmarshalLogin : string → LoginResponse + string;   (* json.Unmarshal(body, &loginResp) *)
newRequest : string → string → error;               (* http.NewRequest(method, url, ...) *)
clientDo : request → response + string              (* client.Do(req) *)
}.

(** What a command does to the outside. *)
Inductive webEvent :=
| Sent (req : request)
| Logged (lvl : level) (msg : string).

Definition login (net : web) (email password : string) : list webEvent * (string + string) :=
match marshalLogin net email password with
| inr e => ([], inr ("failed to marshal login request: " +:+ e))
| inl jsonData =>
    let url := "https://supabase.veilnet.org" +:+ "/auth/v1/token?grant_type=password" in
    match newRequest net "POST" url with
    | Some e => ([], inr ("failed to create login request: " +:+ e))
    | None =>
        let req :=
          {| method := "POST"; url := url;
             headers := <["Content-Type" := "application/json"]>
                          (<["apikey" := "sb_publishable_eNJQSWUp-w9RTIs2V4UDHw_ILjAP_xr"]> ∅);
             body := jsonData |} in
        match clientDo net req with
        | inr e => ([Sent req], inr ("failed to make login request: " +:+ e))
        | inl resp =>
            match Body resp with
            | inr e => ([Sent req], inr ("failed to read login response body: " +:+ e))
            | inl body =>
                if decide (StatusCode resp ≠ 200%Z) then
                  ([Sent req],
                   inr ("login failed with status " +:+ Itoa (StatusCode resp) +:+ ": "
                        +:+ body))
                else
                  match unmarshalLogin net body with
                  | inr e => ([Sent req], inr ("failed to parse login response: " +:+ e))
                  | inl loginResp => ([Sent req], inl (AccessToken loginResp))
                  end
            end
        end
    end
end.

Module Register.

Record flags := {
Email : string;
Password : string;
Name : string;
Plane : string;
Tag : string
}.

Definition register (net : web) (cmd : flags) (accessToken : string) : list webEvent * error :=
let started :=
  Logged InfoLevel ("Registering conflux " +:+ Name cmd +:+ " on plane " +:+ Plane cmd
                    +:+ " with tag " +:+ Tag cmd) in
let url := "https://guardian.veilnet.org" +:+ "/conflux?conflux_name=" +:+ Name cmd
           +:+ "&plane_name=" +:+ Plane cmd +:+ "&tag=" +:+ Tag cmd in
match newRequest net "POST" url with
| Some e => ([started], Some ("failed to create register request: " +:+ e))
| None =>
    let req :=
      {| method := "POST"; url := url;
         headers := <["Content-Type" := "application/json"]>
                      (<["Authorization" := "Bearer " +:+ accessToken]> ∅);
         body := "" |} in
    match clientDo net req with
    | inr e => ([started; Sent req], Some ("failed to make register request: " +:+ e))
    | inl resp =>
        match Body resp with
        | inr e =>
            ([started; Sent req], Some ("failed to read register response body: " +:+ e))
        | inl body =>
            if decide (StatusCode resp ≠ 200%Z) then
              ([started; Sent req],
               Some ("register failed with status " +:+ Itoa (StatusCode resp) +:+ ": "
                     +:+ body))
            else
              ([started; Sent req;
                Logged InfoLevel ("Conflux registered successfully! Token: " +:+ body)],
               None)
        end
    end
end.

Definition Run (net : web) (cmd : flags) : list webEvent * error :=
match login net (Email cmd) (Password cmd) with
| (t, inr e) => (t, Some e)
| (t, inl accessToken) =>
    let '(t', err) := register net cmd accessToken in
    (t ++ Logged InfoLevel "Login successful" :: t', err)
end.

End Register.

Module UnRegister.

Record flags := {
Email : string;
Password : string;
Name : string;
Plane : string
}.

Definition unregister (net : web) (cmd : flags) (accessToken : string) : list webEvent * error :=
let started :=
  Logged InfoLevel ("Unregistering conflux " +:+ Name cmd +:+ " on plane " +:+ Plane cmd) in
let url := "https://guardian.veilnet.org" +:+ "/conflux?conflux_name=" +:+ Name cmd
           +:+ "&plane_name=" +:+ Plane cmd in
match newRequest net "DELETE" url with
| Some e => ([started], Some ("failed to create register request: " +:+ e))
| None =>
    let req :=
      {| method := "DELETE"; url := url;
         headers := <["Content-Type" := "application/json"]>
                      (<["Authorization" := "Bearer " +:+ accessToken]> ∅);
         body := "" |} in
    match clientDo net req with
    | inr e => ([started; Sent req], Some ("failed to make register request: " +:+ e))
    | inl resp =>
        match Body resp with
        | inr e =>
            ([started; Sent req], Some ("failed to read register response body: " +:+ e))
        | inl body =>
            if decide (StatusCode resp ≠ 200%Z) then
              ([started; Sent req],
               Some ("register failed with status " +:+ Itoa (StatusCode resp) +:+ ": "
                     +:+ body))
            else
              ([started; Sent req; Logged InfoLevel "Conflux unregistered successfully!"],
               None)
        end
    end
end.

Definition Run (net : web) (cmd : flags) : list webEvent * error :=
match login net (Email cmd) (Password cmd) with
| (t, inr e) => (t, Some e)
| (t, inl accessToken) =>
    let '(t', err) := unregister net cmd accessToken in
    (t ++ Logged InfoLevel "Login successful" :: t', err)
end.

End UnRegister.

End Cli.

(** ** Environments

  Two instances of [Env].  The first answers every command from a fixed
  table and is used to exhibit runs; the second is a small model of the
  Linux host state the commands act on. *)
Module Scripted.

Record script := {
failing : list (list string);          (* the commands that exit non-zero *)
stdout : list string → string;
dns : string → list IP + string
}.

Definition exec (argv : list string) (s : script) : script * (string * error) :=
(s, (stdout s argv, if bool_decide (argv ∈ failing s) then Some "exit status 2" else None)).

#[global] Instance env : Env script := {|
env_exec := exec;
env_lookupIP := λ host s, dns s host;
env_range := map_to_list;
env_range_perm := λ m, Permutation_refl _
|}.

End Scripted.

Module LinuxHost.

(** A route of the main table. [rt_via] is empty for a route without a
  gateway; metric 0 is the metric of a route added without one. *)
Record route := { rt_dst : string; rt_via : string; rt_dev : string; rt_metric : N }.

#[global] Instance route_eq_dec : EqDecision route.
Proof. solve_decision. Defined.

Record host := mkHost {
routes : list route;                             (* as ip route shapes it; the connected
                                                    route the kernel derives from an
                                                    address set during a run is not listed *)
ip_forward : bool;                               (* net.ipv4.ip_forward *)
iptables : list (string * string * list string); (* table, chain, rule *)
links : list string;                             (* existing interfaces *)
addrs : list (string * string);                  (* interface, address *)
links_up : list string;
resolver : string → list IP + string
}.

Definition set_routes (rs : list route) (h : host) : host :=
mkHost rs (ip_forward h) (iptables h) (links h) (addrs h) (links_up h) (resolver h).
Definition set_ip_forward (b : bool) (h : host) : host :=
mkHost (routes h) b (iptables h) (links h) (addrs h) (links_up h) (resolver h).
Definition set_iptables (t : list (string * string * list string)) (h : host) : host :=
mkHost (routes h) (ip_forward h) t (links h) (addrs h) (links_up h) (resolver h).
Definition set_addrs (a : list (string * string)) (h : host) : host :=
mkHost (routes h) (ip_forward h) (iptables h) (links h) a (links_up h) (resolver h).
Definition set_links_up (u : list string) (h : host) : host :=
mkHost (routes h) (ip_forward h) (iptables h) (links h) (addrs h) u (resolver h).

Definition done (h : host) : host * (string * error) := (h, ("", None)).
Definition failed (h : host) : host * (string * error) := (h, ("", Some "exit status 2")).

(** The options after [ip route add|del DST]: [via], [dev], [metric]. *)
Record selector := {
s_via : option string; s_dev : option string; s_metric : option N
}.

Definition parseMetric (s : string) : option N :=
N.of_uint <$> NilZero.uint_of_string s.

Fixpoint routeOptions (args : list string) (sel : selector) : option selector :=
match args with
| [] => Some sel
| key :: value :: rest =>
    if decide (key = "via") then
      routeOptions rest {| s_via := Some value; s_dev := s_dev sel; s_metric := s_metric sel |}
    else if decide (key = "dev") then
      routeOptions rest {| s_via := s_via sel; s_dev := Some value; s_metric := s_metric sel |}
    else if decide (key = "metric") then
      match parseMetric value with
      | Some m =>
          routeOptions rest {| s_via := s_via sel; s_dev := s_dev sel; s_metric := Some m |}
      | None => None
      end
    else None
| _ => None
end.

(** [ip route del] deletes a route that agrees with every option given. *)
Definition selects (dst : string) (sel : selector) (r : route) : bool :=
bool_decide (rt_dst r = dst)
&& (if s_via sel is Some v then bool_decide (rt_via r = v) else true)
&& (if s_dev sel is Some d then bool_decide (rt_dev r = d) else true)
&& (if s_metric sel is Some m then bool_decide (rt_metric r = m) else true).

Fixpoint removeFirst (p : route → bool) (rs : list route) : option (list route) :=
match rs with
| [] => None
| r :: rs' => if p r then Some rs' else cons r <$> removeFirst p rs'
end.

(** [ip route add] refuses a second route to the same destination with
  the same metric. *)
Definition routeAdd (dst : string) (sel : selector) (h : host) : host * (string * error) :=
let r := {| rt_dst := dst; rt_via := default "" (s_via sel);
            rt_dev := default "" (s_dev sel); rt_metric := default 0%N (s_metric sel) |} in
if existsb (λ r', bool_decide (rt_dst r' = dst ∧ rt_metric r' = rt_metric r)) (routes h)
then failed h
else done (set_routes (routes h ++ [r]) h).

Definition routeDel (dst : string) (sel : selector) (h : host) : host * (string * error) :=
match removeFirst (selects dst sel) (routes h) with
| Some rs => done (set_routes rs h)
| None => failed h
end.

Definition showRoute (r : route) : string :=
rt_dst r
+:+ (if decide (rt_via r = "") then "" else " via " +:+ rt_via r)
+:+ " dev " +:+ rt_dev r
+:+ (if decide (rt_metric r = 0%N) then ""
     else " metric " +:+ NilZero.string_of_uint (N.to_uint (rt_metric r)))
+:+ " " +:+ String "010" "".

Definition routeShow (dst : string) (h : host) : host * (string * error) :=
(h, (foldr (λ r out, showRoute r +:+ out) ""
       (filter (λ r, rt_dst r = dst) (routes h)), None)).

Definition noOptions : selector := {| s_via := None; s_dev := None; s_metric := None |}.

Definition ipCommand (args : list string) (h : host) : host * (string * error) :=
match args with
| obj :: verb :: rest =>
    if decide (obj = "route") then
      match rest with
      | dst :: opts =>
          if decide (verb = "show") then
            (if decide (opts = []) then routeShow dst h else failed h)
          else match routeOptions opts noOptions with
               | Some sel =>
                   if decide (verb = "add") then routeAdd dst sel h
                   else if decide (verb = "del") then routeDel dst sel h
                   else failed h
               | None => failed h
               end
      | [] => failed h
      end
    else if decide (obj = "addr") then
      match rest with
      | [kw; dev] =>
          if decide (verb = "flush" ∧ kw = "dev" ∧ dev ∈ links h)
          then done (set_addrs (filter (λ a, a.1 ≠ dev) (addrs h)) h)
          else failed h
      | [cidr; kw; dev] =>
          if decide (verb = "add" ∧ kw = "dev" ∧ dev ∈ links h ∧ (dev, cidr) ∉ addrs h)
          then done (set_addrs (addrs h ++ [(dev, cidr)]) h)
          else failed h
      | _ => failed h
      end
    else if decide (obj = "link") then
      match rest with
      | [state; dev] =>
          if decide (verb = "set" ∧ state = "up" ∧ dev ∈ links h)
          then done (set_links_up (dev :: links_up h) h)
          else failed h
      | _ => failed h
      end
    else failed h
| _ => failed h
end.

Fixpoint removeRule (rule : string * string * list string)
       (rules : list (string * string * list string)) :
option (list (string * string * list string)) :=
match rules with
| [] => None
| r :: rules' => if decide (r = rule) then Some rules' else cons r <$> removeRule rule rules'
end.

Definition iptablesIn (table : string) (args : list string) (h : host) : host * (string * error) :=
match args with
| op :: chain :: rule =>
    if decide (op = "-A") then done (set_iptables (iptables h ++ [(table, chain, rule)]) h)
    else if decide (op = "-D") then
      match removeRule (table, chain, rule) (iptables h) with
      | Some rules => done (set_iptables rules h)
      | None => failed h
      end
    else failed h
| _ => failed h
end.

Definition iptablesCommand (args : list string) (h : host) : host * (string * error) :=
match args with
| flag :: table :: rest =>
    if decide (flag = "-t") then iptablesIn table rest h else iptablesIn "filter" args h
| _ => failed h
end.

Definition sysctlCommand (args : list string) (h : host) : host * (string * error) :=
if decide (args = ["-n"; "net.ipv4.ip_forward"]) then
  (h, ((if ip_forward h then "1" else "0") +:+ String "010" "", None))
else if decide (args = ["-w"; "net.ipv4.ip_forward=1"]) then done (set_ip_forward true h)
else if decide (args = ["-w"; "net.ipv4.ip_forward=0"]) then done (set_ip_forward false h)
else failed h.

Definition exec (argv : list string) (h : host) : host * (string * error) :=
match argv with
| prog :: args =>
    if decide (prog = "ip") then ipCommand args h
    else if decide (prog = "iptables") then iptablesCommand args h
    else if decide (prog = "sysctl") then sysctlCommand args h
    else failed h
| [] => failed h
end.

#[global] Instance env : Env host := {|
env_exec := exec;
env_lookupIP := λ name h, resolver h name;
env_range := map_to_list;
env_range_perm := λ m, Permutation_refl _
|}.

End LinuxHost.

(** * Vocabulary of the properties *)

(** ** Runs and traces *)

Definition resultOf {W A} (x : result A * conflux * W * list event) : result A := x.1.1.1.

Definition selfOf {W A} (x : result A * conflux * W * list event) : conflux := x.1.1.2.

Definition worldOf {W A} (x : result A * conflux * W * list event) : W := x.1.2.

Definition traceOf {W A} (x : result A * conflux * W * list event) : list event := x.2.

(** The commands of a trace, in order. *)
Definition commands (t : list event) : list (list string) :=
  omap (λ e, if e is EvExec argv _ then Some argv else None) t.

(** The commands of a trace with their outcome. *)
Definition execs (t : list event) : list (list string * error) :=
  omap (λ e, if e is EvExec argv err then Some (argv, err) else None) t.

(** The answers of the resolver in a trace. *)
Definition lookups (t : list event) : list (string * (list IP + string)) :=
  omap (λ e, if e is EvLookup host answer then Some (host, answer) else None) t.

(** The calls of the virtual-interface write in a trace. *)
Definition writes (t : list event) : list (list (list byte) * Z) :=
  omap (λ e, if e is EvDeviceWrite bufs offset then Some (bufs, offset) else None) t.

(** ** Gateway detection *)

Section DetectionVocabulary.
Import strings.

(** The gateway and the interface of a default-route line, as the text
    of the line gives them: the token after the last [via] that is
    followed by a token, and the same for [dev]. *)
Fixpoint tokenAfter (kw : string) (fields : list string) : option string :=
  match fields with
  | [] => None
  | f :: rest =>
      match tokenAfter kw rest with
      | Some v => Some v
      | None => if decide (f = kw) then head rest else None
      end
  end.

Definition defaultRouteOf (line : string) : option (string * string) :=
  match tokenAfter "via" (Fields line), tokenAfter "dev" (Fields line) with
  | Some gw, Some dev => Some (gw, dev)
  | _, _ => None
  end.

Definition firstDefaultLine (out : string) : option string :=
  find (λ line, HasPrefix line "default") (Split out "010").

Definition blank (s : string) : Prop := Forall (λ ch, isSpace ch = true) (list_ascii_of_string s).

Definition token (s : string) : Prop :=
  s ≠ "" ∧ Forall (λ ch, isSpace ch = false) (list_ascii_of_string s).

End DetectionVocabulary.

(** On macOS the fields of the conflux are assigned line by line, so the
    last [gateway:] line and the last [interface:] line of the output are
    the ones kept. *)
Definition gatewayOf (line : string) : option string :=
  let line := strings.TrimSpace line in
  if strings.HasPrefix line "gateway:"
  then Some (strings.TrimSpace (strings.TrimPrefix line "gateway:")) else None.

Definition interfaceOf (line : string) : option string :=
  let line := strings.TrimSpace line in
  if strings.HasPrefix line "interface:"
  then Some (strings.TrimSpace (strings.TrimPrefix line "interface:")) else None.

(** ** Packet relay *)

(** The 16 bytes reserved ahead of a packet. *)
Definition header : list byte := replicate 16 x00.

Definition framed (datagram : list byte) : list byte := header ++ datagram.

Module LinuxIngress.
Import Linux.

(** The datagrams a turn delivers: the first [n] buffers after a
    successful read. *)
Definition received (turn : ingressTurn) : option (list (list byte)) :=
  match turn with
  | ReadReturns bufs n => Some (take (Z.to_nat n) bufs)
  | _ => None
  end.

(** The turns the loop gets to: those before the context is done. *)
Fixpoint untilDone (turns : list ingressTurn) : list ingressTurn :=
  match turns with
  | [] => []
  | CtxDone :: _ => []
  | turn :: rest => turn :: untilDone rest
  end.

(** [anchor.Read] returns a count between 0 and the batch size. *)
Definition inRange (turn : ingressTurn) : Prop :=
  match turn with
  | ReadReturns bufs n => (0 ≤ n ≤ Z.of_nat (length bufs))%Z
  | _ => True
  end.

End LinuxIngress.

Module DarwinIngress.
Import Darwin.

Definition received (turn : ingressTurn) : option (list (list byte)) :=
  match turn with
  | ReadReturns bufs n => Some (take (Z.to_nat n) bufs)
  | _ => None
  end.

Fixpoint untilDone (turns : list ingressTurn) : list ingressTurn :=
  match turns with
  | [] => []
  | CtxDone :: _ => []
  | turn :: rest => turn :: untilDone rest
  end.

Definition inRange (turn : ingressTurn) : Prop :=
  match turn with
  | ReadReturns bufs n => (0 ≤ n ≤ Z.of_nat (length bufs))%Z
  | _ => True
  end.

End DarwinIngress.

(** ** Bypass routes *)

(** The IPv4 addresses among the answers, as the route commands name
    them, and the (host, address) pairs of a list of answers. *)
Definition ipv4Dests (ips : list IP) : list string :=
  omap (λ ip, net.String <$> net.To4 ip) ips.

Definition resolvedDests (resolved : list (string * (list IP + string))) :
  list (string * string) :=
  resolved ≫= λ '(host, answer),
    match answer with
    | inl ips => (λ dest, (host, dest)) <$> ipv4Dests ips
    | inr _ => []
    end.

(** [sync.Map.Store] of a list of entries, in order. *)
Definition storeAll (entries : list (string * string)) (m : gmap string string) :
  gmap string string :=
  foldl (λ m '(host, dest), <[host := dest]> m) m entries.

Module LinuxRoutes.

Definition install (gw ifc dest : string) : list string :=
  ["ip"; "route"; "add"; dest; "via"; gw; "dev"; ifc].

Definition delete (dest : string) : list string :=
  ["ip"; "route"; "del"; dest].

End LinuxRoutes.

(** A host that resolves to at most one IPv4 address. *)
Definition singleAddress (resolved : string * (list IP + string)) : Prop :=
  match resolved.2 with
  | inl ips => (length (ipv4Dests ips) ≤ 1)%nat
  | inr _ => True
  end.

Definition clearFailed (key e : string) : string :=
  "Failed to clear bypass route for " +:+ key +:+ ": " +:+ e.

Section BypassLoops.
Context {W : Type} `{!Env W}.

(** The body of the loop over the addresses of one host, for an IPv4
    address. *)
Definition installOne (host dest : string) : M W unit :=
  let* c := getSelf in
  Run ["ip"; "route"; "add"; dest; "via"; gateway c; "dev"; iface c] ;;;
  modifySelf (λ c, set_bypassRoutes (<[host := dest]> (bypassRoutes c)) c).

Definition addFor (host : string) (ips : list IP) : M W unit :=
  forEach ips (λ ip,
    match net.To4 ip with
    | Some ip4 => installOne host (net.String ip4)
    | None => ret tt
    end).

(** The loop over the hosts. *)
Definition addAll (hosts : list string) : M W unit :=
  forEach hosts (λ host,
    let* r := LookupIP host in
    match r with
    | inr err => Errorf ("Failed to resolve " +:+ host +:+ ": " +:+ err)
    | inl ips => addFor host ips
    end).

(** The callback [RemoveBypassRoutes] passes to [Range]. *)
Definition removeOne (key value : string) : M W bool :=
  let* err := Run ["ip"; "route"; "del"; value] in
  match err with
  | Some e => Errorf (clearFailed key e) ;;; ret false
  | None => ret true
  end.

End BypassLoops.

(** ** Routes of the host model *)

Section RouteVocabulary.
Import LinuxHost.

Definition defaults (rs : list route) : list route :=
  filter (λ r, rt_dst r = "default") rs.

Definition routeOf (dst : string) (sel : selector) : route :=
  {| rt_dst := dst; rt_via := default "" (s_via sel);
     rt_dev := default "" (s_dev sel); rt_metric := default 0%N (s_metric sel) |}.

Definition viaDev (gw ifc : string) (metric : option N) : selector :=
  {| s_via := Some gw; s_dev := Some ifc; s_metric := metric |}.

Definition onDev (ifc : string) : selector :=
  {| s_via := None; s_dev := Some ifc; s_metric := None |}.

Definition demoted (c : conflux) : route :=
  routeOf "default" (viaDev (gateway c) (iface c) (Some 50%N)).

Definition throughTun : route := routeOf "default" (onDev "veilnet").

Definition restored (c : conflux) : route :=
  routeOf "default" (viaDev (gateway c) (iface c) None).

End RouteVocabulary.

(** ** Start-up *)

(** The number of bytes [ch] in [s]. *)
Fixpoint occurrences (ch : ascii) (s : string) : nat :=
  match s with
  | EmptyString => 0
  | String c s' => (if Ascii.eqb c ch then 1 else 0) + occurrences ch s'
  end.

(** [strings.Join(pieces, sep)] for a one-byte separator. *)
Fixpoint joinWith (sep : ascii) (pieces : list string) : string :=
  match pieces with
  | [] => ""
  | [piece] => piece
  | piece :: rest => piece +:+ String sep (joinWith sep rest)
  end.

Definition tunFailed (e : string) : event :=
  EvLog ErrorLevel ("failed to create TUN device: " +:+ e).

(** ** Host configuration *)

(** The commands of a run that failed. *)
Definition failures (t : list event) : list (list string) :=
  omap (λ e, if e is EvExec argv (Some _) then Some argv else None) t.

(** The warnings and errors logged in a trace. *)
Definition complaints (t : list event) : list string :=
  omap (λ e, match e with
             | EvLog WarnLevel msg | EvLog ErrorLevel msg => Some msg
             | _ => None
             end) t.

(** The commands of teardown on Linux, in order: they depend on the
    conflux only. *)
Definition cleanCommands (c : conflux) (a : Anchor) : list (list string) :=
  (if decide (veilHost a ≠ "")
   then [["ip"; "route"; "del"; veilHost a; "via"; gateway c; "dev"; iface c]] else [])
  ++ (if portal c then
        [["iptables"; "-D"; "FORWARD"; "-i"; "veilnet"; "-j"; "ACCEPT"];
         ["iptables"; "-D"; "FORWARD"; "-o"; "veilnet"; "-j"; "ACCEPT"];
         ["iptables"; "-t"; "nat"; "-D"; "POSTROUTING"; "-o"; iface c; "-j"; "MASQUERADE"]]
        ++ (if ipForwardEnabled c then [] else [["sysctl"; "-w"; "net.ipv4.ip_forward=0"]])
      else
        [["ip"; "route"; "del"; "default"; "dev"; "veilnet"];
         ["ip"; "route"; "del"; "default"; "via"; gateway c; "dev"; iface c];
         ["ip"; "route"; "add"; "default"; "via"; gateway c; "dev"; iface c]]).

(** The rules Portal mode adds, and the route to the veil host, when
    the anchor names one. *)
Definition forwardIn : string * string * list string :=
  ("filter", "FORWARD", ["-i"; "veilnet"; "-j"; "ACCEPT"]).

Definition forwardOut : string * string * list string :=
  ("filter", "FORWARD", ["-o"; "veilnet"; "-j"; "ACCEPT"]).

Definition masquerade (ifc : string) : string * string * list string :=
  ("nat", "POSTROUTING", ["-o"; ifc; "-j"; "MASQUERADE"]).

Definition veilRoute (c : conflux) (a : Anchor) : list LinuxHost.route :=
  if decide (veilHost a ≠ "")
  then [routeOf (veilHost a) (viaDev (gateway c) (iface c) None)] else [].

(** The routes that do not go through the virtual interface. *)
Definition otherRoutes (h : LinuxHost.host) : list LinuxHost.route :=
  filter (λ r, LinuxHost.rt_dev r ≠ "veilnet") (LinuxHost.routes h).

(** ** The table of bypass routes *)

(** The values stored under [key] among a list of entries, in order,
    and the last of them. *)
Definition valuesFor (key : string) (entries : list (string * string)) : list string :=
  omap (λ '(k, v), if decide (k = key) then Some v else None) entries.

Definition lastFor (key : string) (entries : list (string * string)) : option string :=
  last (valuesFor key entries).

(** ** Packet relay: egress *)

(** The batches handed to the tunnel endpoint in a trace. *)
Definition forwarded (t : list egressEvent) : list (list (list byte) * list Z) :=
  omap (λ e, if e is EgAnchorWrite bufs sizes then Some (bufs, sizes) else None) t.

Module LinuxEgress.
Import Linux.

(** The packets a turn delivers, with their sizes. *)
Definition read (turn : egressTurn) : option (list (list byte) * list Z) :=
  match turn with
  | EgressReads bufs sizes n => Some (take (Z.to_nat n) bufs, take (Z.to_nat n) sizes)
  | _ => None
  end.

Fixpoint untilDone (turns : list egressTurn) : list egressTurn :=
  match turns with
  | [] => []
  | EgressDone :: _ => []
  | turn :: rest => turn :: untilDone rest
  end.

(** [device.Read] returns a count between 0 and the batch size. *)
Definition inRange (turn : egressTurn) : Prop :=
  match turn with
  | EgressReads bufs sizes n =>
      (0 ≤ n ≤ Z.of_nat (length bufs))%Z ∧ (n ≤ Z.of_nat (length sizes))%Z
  | _ => True
  end.

End LinuxEgress.

Module DarwinEgress.
Import Darwin.

Definition read (turn : egressTurn) : option (list (list byte) * list Z) :=
  match turn with
  | EgressReads bufs sizes n => Some (take (Z.to_nat n) bufs, take (Z.to_nat n) sizes)
  | _ => None
  end.

Fixpoint untilDone (turns : list egressTurn) : list egressTurn :=
  match turns with
  | [] => []
  | EgressDone :: _ => []
  | turn :: rest => turn :: untilDone rest
  end.

Definition inRange (turn : egressTurn) : Prop :=
  match turn with
  | EgressReads bufs sizes n =>
      (0 ≤ n ≤ Z.of_nat (length bufs))%Z ∧ (n ≤ Z.of_nat (length sizes))%Z
  | _ => True
  end.

End DarwinEgress.

(** ** Gateway detection (Windows) *)

(** The gateway and the interface a line of [route print] gives: the
    third and fourth field of a line with at least five fields that
    starts with [0.0.0.0 0.0.0.0]. *)
Definition defaultRow (line : string) : option (string * string) :=
  match strings.Fields line with
  | dst :: mask :: gw :: ifc :: _ :: _ =>
      if decide (dst = "0.0.0.0" ∧ mask = "0.0.0.0") then Some (gw, ifc) else None
  | _ => None
  end.

(** ** Registration *)

(** The requests of a trace, in order. *)
Definition sent (t : list Cli.webEvent) : list Cli.request :=
  omap (λ e, if e is Cli.Sent req then Some req else None) t.

(** ** The process and its schedule *)

(** What a schedule holds when the process that started as [p0] has
  ended as [e]: [Run] returns [nil] at one of the two cases of its
  [select]; another goroutine ends the process with 1 only after the
  anchor's context was done, and with 2 only by a panic. *)
Definition endedBy {W} (prog : Cli.Conflux W) (p0 : Cli.process W)
         (s : list Cli.tick) (e : Cli.ending) : Prop :=
match e with
| Cli.Returns None =>
    ∃ pre t post, s = pre ++ t :: post ∧ (t = Cli.SelectComplete ∨ t = Cli.SelectTimeout)
      ∧ Cli.p_end (Cli.steps prog pre p0) = None
      ∧ Cli.p_stopper (Cli.steps prog pre p0) ≠ None
      ∧ (t = Cli.SelectComplete → Cli.p_stopper (Cli.steps prog pre p0) = Some Cli.AfterCall)
| Cli.Returns (Some _) => False
| Cli.Exits code =>
    (code = 1%Z ∧ Cli.watches prog ≠ Cli.NoWatcher ∧ Cli.ContextDone ∈ s)
    ∨ (code = 2%Z
       ∧ (Cli.RelayPanics ∈ s
          ∨ ∃ pre post msg, s = pre ++ Cli.StopEnds :: post
              ∧ resultOf (Cli.Stop prog (Cli.p_self (Cli.steps prog pre p0))
                                        (Cli.p_world (Cli.steps prog pre p0)))
                = Panic msg))
end.

(** ** Sample inputs *)

Definition scripted (dns : string → list IP + string) (failing : list (list string)) :
  Scripted.script :=
  {| Scripted.failing := failing; Scripted.stdout := λ _, ""; Scripted.dns := dns |}.

Definition routeOutput (out : string) : Scripted.script :=
  {| Scripted.failing := []; Scripted.stdout := λ _, out; Scripted.dns := λ _, inr "no such host" |}.

Definition oneDefault : string :=
  "default   via 192.168.1.1 dev  eth0 proto dhcp metric 100 " +:+ String "010" "".

Definition twoDefaults : string :=
  "default dev tun0 scope link " +:+ String "010" "" +:+
  "default via 192.168.1.1 dev eth0 proto dhcp metric 100 " +:+ String "010" "".

Definition sampleTurns : list Linux.ingressTurn :=
  [Linux.ReadReturns [[x45; x00; x00; x14]; [x60]; []] 2;
   Linux.ReadFails [[x45; x00; x00; x14]; [x60]; []];
   Linux.ReadReturns [[]; [x60]; []] 1;
   Linux.CtxDone;
   Linux.ReadReturns [[x45]; []; []] 1].

Definition runningConflux : conflux :=
  mkConflux (Some {| veilHost := "203.0.113.7" |}) (Some {| batchSize := 3 |})
            false "192.168.1.1" "eth0" ∅ false false.

Definition sampleUp : Cli.Up :=
  {| Cli.Token := "token"; Cli.Portal := false; Cli.Guardian := "https://guardian.veilnet.org" |}.

Definition v6Address : IP :=
  [x26; x06; x47; x00; x00; x00; x00; x00; x00; x00; x00; x00; x00; x00; x11; x11].

(** Every host has at most one IPv4 address. *)
Definition singleDns (host : string) : list IP + string :=
  if decide (host = "stun.cloudflare.com") then inl [v6Address; [x01; x01; x01; x01]]
  else if decide (host = "turn.cloudflare.com") then inl [[x8d; x65; x5a; x01]]
  else inr "no such host".

(** The first host has two IPv4 addresses. *)
Definition doubleDns (host : string) : list IP + string :=
  if decide (host = "stun.cloudflare.com") then inl [[x01; x01; x01; x01]; [x01; x00; x00; x01]]
  else inr "no such host".

Definition sampleTable : gmap string string :=
  <["turn.cloudflare.com" := "141.101.90.1"]> (<["stun.cloudflare.com" := "1.1.1.1"]> ∅).

Definition sampleHost (forwarding : bool) (metric : N) : LinuxHost.host :=
  LinuxHost.mkHost
    [ {| LinuxHost.rt_dst := "default"; LinuxHost.rt_via := "192.168.1.1";
         LinuxHost.rt_dev := "eth0"; LinuxHost.rt_metric := metric |};
      {| LinuxHost.rt_dst := "192.168.1.0/24"; LinuxHost.rt_via := "";
         LinuxHost.rt_dev := "eth0"; LinuxHost.rt_metric := metric |} ]
    forwarding [] ["lo"; "eth0"; "veilnet"] [] ["lo"; "eth0"] singleDns.

Definition portalConflux : conflux :=
  mkConflux (Some {| veilHost := "203.0.113.7" |}) (Some {| batchSize := 3 |})
            true "192.168.1.1" "eth0" ∅ false false.

Definition detectingConflux : conflux :=
  mkConflux (Some {| veilHost := "203.0.113.7" |}) (Some {| batchSize := 3 |})
            false "" "" ∅ false false.

(** An anchor that starts and reports [cidr], on a host where the
    interface can be created. *)
Definition sampleStartup (cidr : string) : startup Scripted.script :=
  {| tunCreate := λ w, (w, inl {| batchSize := 3 |});
     anchorNew := {| veilHost := "203.0.113.7" |};
     anchorStart := λ _ _ _, None;
     anchorGetCIDR := inl cidr |}.

(** Output of [route -n get default] without a gateway line. *)
Definition interfaceOnly : string :=
  "   route to: default" +:+ String "010" "" +:+
  "  interface: en0" +:+ String "010" "".

(** Output of [route -n get default] with a gateway and an interface. *)
Definition gatewayAndInterface : string :=
  "   route to: default" +:+ String "010" "" +:+
  "    gateway: 192.168.1.1" +:+ String "010" "" +:+
  "  interface: en0" +:+ String "010" "".

(** Output of [route print 0.0.0.0], with its header and a short line. *)
Definition routePrint : string :=
  "Network Destination        Netmask          Gateway       Interface  Metric"
  +:+ String "013" (String "010" "") +:+
  "          0.0.0.0          0.0.0.0      192.168.1.1" +:+ String "013" (String "010" "") +:+
  "          0.0.0.0          0.0.0.0      192.168.1.1    192.168.1.23     25"
  +:+ String "013" (String "010" "").

Definition sampleReads : list Linux.egressTurn :=
  [Linux.EgressReads [[x45; x00]; [x60]; []] [2; 1; 0]%Z 2;
   Linux.EgressReadFails;
   Linux.EgressReads [[x45; x00]; [x60]; []] [2; 1; 0]%Z 0;
   Linux.EgressDone;
   Linux.EgressReads [[x45]; []; []] [1; 0; 0]%Z 1].

Definition sampleDarwinReads : list Darwin.egressTurn :=
  [Darwin.EgressReads [[x45; x00]; [x60]; []] [2; 1; 0]%Z 2;
   Darwin.EgressReadFails;
   Darwin.EgressReads [[x45; x00]; [x60]; []] [2; 1; 0]%Z 0;
   Darwin.EgressDone].

Definition sampleDarwinTurns : list Darwin.ingressTurn :=
  [Darwin.ReadReturns [[x45; x00; x00; x14]; [x60]; []] 2;
   Darwin.ReadReturns [[]; [x60]; []] 0;
   Darwin.CtxDone].

(** A host that already has a default route at metric 50. *)
Definition crowdedHost : LinuxHost.host :=
  LinuxHost.mkHost
    [ {| LinuxHost.rt_dst := "default"; LinuxHost.rt_via := "192.168.1.1";
         LinuxHost.rt_dev := "eth0"; LinuxHost.rt_metric := 0 |};
      {| LinuxHost.rt_dst := "default"; LinuxHost.rt_via := "192.168.1.254";
         LinuxHost.rt_dev := "eth0"; LinuxHost.rt_metric := 50 |} ]
    false [] ["lo"; "eth0"; "veilnet"] [] ["lo"; "eth0"] singleDns.

(** A guardian that refuses every login with status 401. *)
Definition refusingWeb : Cli.web :=
  {| Cli.marshalLogin := λ email password, inl (email +:+ ":" +:+ password);
     Cli.unmarshalLogin := λ body,
       inl {| Cli.AccessToken := body; Cli.RefreshToken := ""; Cli.ExpiresIn := 3600;
              Cli.TokenType := "bearer" |};
     Cli.newRequest := λ _ _, None;
     Cli.clientDo := λ _, inl {| Cli.StatusCode := 401; Cli.Body := inl "denied" |} |}.

(** * Properties *)

(** ** The string functions on samples *)

Example Split_lines : strings.Split ("a" +:+ String "010" "b" +:+ String "010" "") "010" = ["a"; "b"; ""].
Proof. reflexivity. Qed.

Example Fields_route :
  strings.Fields "default  via 192.168.1.1	dev eth0 " = ["default"; "via"; "192.168.1.1"; "dev"; "eth0"].
Proof. reflexivity. Qed.

Example TrimSpace_sysctl : strings.TrimSpace (" 1" +:+ String "010" "") = "1".
Proof. reflexivity. Qed.

Example To4_mapped :
  net.String <$> net.To4 (net.v4InV6Prefix ++ [xc0; xa8; x01; x01]) = Some "192.168.1.1".
Proof. reflexivity. Qed.

Example To4_v6 : net.To4 (replicate 16 x20) = None.
Proof. reflexivity. Qed.

(** [bind] after a first part that returns. *)
Lemma run_bind_val {W A B} (m : M W A) (k : A → M W B) (c : conflux) (w : W) (a : A) :
  resultOf (m c w) = Val a →
  bind m k c w
  = (resultOf (k a (selfOf (m c w)) (worldOf (m c w))),
     selfOf (k a (selfOf (m c w)) (worldOf (m c w))),
     worldOf (k a (selfOf (m c w)) (worldOf (m c w))),
     traceOf (m c w) ++ traceOf (k a (selfOf (m c w)) (worldOf (m c w)))).
Proof.
  unfold bind. destruct (m c w) as [[[r c1] w1] t1]. cbn. intros ->.
  by destruct (k a c1 w1) as [[[? ?] ?] ?].
Qed.

Ltac run_simpl := cbn [resultOf selfOf worldOf traceOf fst snd].

Lemma commands_app t1 t2 : commands (t1 ++ t2) = commands t1 ++ commands t2.
Proof. apply omap_app. Qed.

(** ** Gateway detection (Linux) *)
Section Detection.

Import strings.

Lemma fieldsFrom_nonempty s cur :
  Forall (λ f, f ≠ "") (fieldsFrom cur s).
Proof.
  revert cur. induction s as [|ch s IH]; intros cur; simpl.
  - case_decide; [constructor | by repeat constructor].
  - destruct (isSpace ch); [|apply IH].
    case_decide; [apply IH | constructor; [done | apply IH]].
Qed.

Lemma Fields_nonempty s : Forall (λ f, f ≠ "") (Fields s).
Proof. apply fieldsFrom_nonempty. Qed.

Lemma tokenAfter_elem kw fields v : tokenAfter kw fields = Some v → v ∈ fields.
Proof.
  induction fields as [|f rest IH]; simpl; [done|].
  destruct (tokenAfter kw rest) as [v'|].
  - intros [= ->]. right. by apply IH.
  - case_decide; [|done]. destruct rest; simpl; [done|].
    intros [= ->]. right. left.
Qed.

Lemma scanFields_from (pre suf : list string) (acc : string * string) :
  foldl (λ '(gateway, iface) i,
           let gateway :=
             if decide ((pre ++ suf) !! i = Some "via" ∧ i + 1 < length (pre ++ suf))
             then default "" ((pre ++ suf) !! (i + 1)) else gateway in
           let iface :=
             if decide ((pre ++ suf) !! i = Some "dev" ∧ i + 1 < length (pre ++ suf))
             then default "" ((pre ++ suf) !! (i + 1)) else iface in
           (gateway, iface))
        acc (seq (length pre) (length suf))
  = (default acc.1 (tokenAfter "via" suf), default acc.2 (tokenAfter "dev" suf)).
Proof.
  revert pre acc. induction suf as [|f rest IH]; intros pre [gw dev]; [done|].
  cbn [length seq foldl].
  replace (S (length pre)) with (length (pre ++ [f]))
    by (rewrite length_app; simpl; lia).
  replace (pre ++ f :: rest) with ((pre ++ [f]) ++ rest)
    by (by rewrite <- (assoc_L (++))).
  rewrite IH. clear IH. cbn [fst snd tokenAfter].
  assert (Hi : ((pre ++ [f]) ++ rest) !! length pre = Some f).
  { rewrite <- (assoc_L (++)). cbn [app]. by rewrite list_lookup_middle. }
  assert (Hn : ((pre ++ [f]) ++ rest) !! (length pre + 1) = head rest).
  { rewrite lookup_app_r by (rewrite length_app; simpl; lia).
    rewrite length_app. simpl. replace (length pre + 1 - (length pre + 1)) with 0 by lia.
    by destruct rest. }
  assert (Hl : length pre + 1 < length ((pre ++ [f]) ++ rest) ↔ rest ≠ []).
  { rewrite !length_app. cbn [length]. destruct rest; cbn [length]; split; (done || lia). }
  rewrite Hi, Hn. f_equal.
  - destruct (tokenAfter "via" rest); [done|]. cbn [default].
    destruct rest as [|r rest'].
    + rewrite decide_False by (intros [_ ?]; by apply Hl). by case_decide.
    + assert (Hlt := proj2 Hl ltac:(done)).
      destruct (decide (f = "via")) as [->|Hne].
      * by rewrite decide_True.
      * by rewrite decide_False by (by intros [[= ?] _]).
  - destruct (tokenAfter "dev" rest); [done|]. cbn [default].
    destruct rest as [|r rest'].
    + rewrite decide_False by (intros [_ ?]; by apply Hl). by case_decide.
    + assert (Hlt := proj2 Hl ltac:(done)).
      destruct (decide (f = "dev")) as [->|Hne].
      * by rewrite decide_True.
      * by rewrite decide_False by (by intros [[= ?] _]).
Qed.

Lemma scanFields_tokenAfter fields :
  Linux.scanFields fields
  = (default "" (tokenAfter "via" fields), default "" (tokenAfter "dev" fields)).
Proof. apply (scanFields_from [] fields ("", "")). Qed.

Lemma scanLines_firstDefaultLine out :
  Linux.scanLines (Split out "010")
  = match firstDefaultLine out with
    | Some line => Linux.scanFields (Fields line)
    | None => ("", "")
    end.
Proof.
  unfold firstDefaultLine. induction (Split out "010") as [|l ls IH]; simpl; [done|].
  by destruct (HasPrefix l "default").
Qed.

(** The scan yields two non-empty strings exactly when the first
    default-route line gives a gateway and an interface. *)
Lemma scanLines_defaultRouteOf out :
  match firstDefaultLine out ≫= defaultRouteOf with
  | Some (gw, dev) => Linux.scanLines (Split out "010") = (gw, dev) ∧ gw ≠ "" ∧ dev ≠ ""
  | None => ∃ gw dev, Linux.scanLines (Split out "010") = (gw, dev) ∧ (gw = "" ∨ dev = "")
  end.
Proof.
  rewrite scanLines_firstDefaultLine.
  destruct (firstDefaultLine out) as [line|]; simpl; [|by eauto].
  rewrite scanFields_tokenAfter. unfold defaultRouteOf.
  pose proof (Fields_nonempty line) as Hne. rewrite Forall_forall in Hne.
  destruct (tokenAfter "via" (Fields line)) as [gw|] eqn:Hgw;
    destruct (tokenAfter "dev" (Fields line)) as [dev|] eqn:Hdev; simpl; eauto.
  apply tokenAfter_elem in Hgw, Hdev. eauto.
Qed.

End Detection.

Section DetectionLayout.

Import strings.

Lemma firstDefaultLine_skips out pre line post :
  Split out "010" = pre ++ line :: post →
  Forall (λ l, HasPrefix l "default" = false) pre →
  HasPrefix line "default" = true →
  firstDefaultLine out = Some line.
Proof.
  unfold firstDefaultLine. intros -> Hpre Hline.
  induction Hpre as [|l pre Hl _ IH]; simpl; [by rewrite Hline | by rewrite Hl].
Qed.

Lemma append_cons ch s t : String ch s +:+ t = String ch (s +:+ t).
Proof. done. Qed.

Lemma append_empty_r s : s +:+ "" = s.
Proof. induction s as [|ch s IH]; [done|]. by rewrite append_cons, IH. Qed.

Lemma append_snoc s ch t : (s +:+ String ch "") +:+ t = s +:+ String ch t.
Proof. induction s as [|? s IH]; [done|]. by rewrite !append_cons, IH. Qed.

Lemma fieldsFrom_token cur t rest :
  Forall (λ ch, isSpace ch = false) (list_ascii_of_string t) →
  fieldsFrom cur (t +:+ rest) = fieldsFrom (cur +:+ t) rest.
Proof.
  revert cur. induction t as [|ch t IH]; intros cur Ht.
  - by rewrite append_empty_r.
  - inversion_clear Ht as [|?? Hch Ht']. rewrite append_cons. cbn [fieldsFrom].
    by rewrite Hch, IH, append_snoc.
Qed.

(** Leading whitespace is skipped. *)
Lemma Fields_blank ws s : blank ws → Fields (ws +:+ s) = Fields s.
Proof.
  unfold Fields, blank. induction ws as [|ch ws IH]; [done|].
  intros Hws. inversion_clear Hws as [|?? Hch Hws']. rewrite append_cons.
  cbn [fieldsFrom]. rewrite Hch. rewrite decide_True by done. by apply IH.
Qed.

(** A token that is followed by whitespace is one field, however long
    the whitespace is. *)
Lemma Fields_token t ch rest :
  token t → isSpace ch = true → Fields (t +:+ String ch rest) = t :: Fields rest.
Proof.
  intros [Hne Ht] Hch. unfold Fields. rewrite fieldsFrom_token by done.
  cbn [fieldsFrom]. rewrite Hch. by rewrite decide_False.
Qed.

Lemma Fields_last_token t : token t → Fields t = [t].
Proof.
  intros [Hne Ht]. unfold Fields.
  rewrite <- (append_empty_r t) at 1.
  rewrite fieldsFrom_token by done. cbn [fieldsFrom]. by rewrite decide_False.
Qed.

Lemma Fields_spaced t ws rest :
  token t → ws ≠ "" → blank ws → Fields (t +:+ ws +:+ rest) = t :: Fields rest.
Proof.
  intros Ht Hne Hws. destruct ws as [|ch ws]; [done|].
  inversion_clear Hws as [|?? Hch Hws']. rewrite append_cons.
  rewrite Fields_token by done. f_equal. by apply Fields_blank.
Qed.

Lemma Fields_end t ws : token t → blank ws → Fields (t +:+ ws) = [t].
Proof.
  intros Ht Hws. destruct ws as [|ch ws].
  - rewrite append_empty_r. by apply Fields_last_token.
  - inversion_clear Hws as [|?? Hch Hws']. rewrite Fields_token by done.
    f_equal. rewrite <- (append_empty_r ws). by rewrite Fields_blank.
Qed.

(** A default-route line gives its gateway and its interface whatever the
    runs of whitespace between its fields are. *)
Lemma defaultRouteOf_spaced gw ifc ws1 ws2 ws3 ws4 ws5 :
  token gw → token ifc → gw ≠ "via" →
  Forall (λ ws, ws ≠ "" ∧ blank ws) [ws1; ws2; ws3; ws4] → blank ws5 →
  let line := "default" +:+ ws1 +:+ "via" +:+ ws2 +:+ gw +:+ ws3
              +:+ "dev" +:+ ws4 +:+ ifc +:+ ws5 in
  HasPrefix line "default" = true ∧ defaultRouteOf line = Some (gw, ifc).
Proof.
  intros Hgw Hifc Hvia Hws Hws5. cbn zeta.
  apply Forall_cons in Hws as [[? ?] Hws]. apply Forall_cons in Hws as [[? ?] Hws].
  apply Forall_cons in Hws as [[? ?] Hws]. apply Forall_cons in Hws as [[? ?] _].
  split; [by destruct ws1|].
  assert (token "default" ∧ token "via" ∧ token "dev") as (? & ? & ?)
    by (repeat split; try done; repeat constructor).
  unfold defaultRouteOf.
  rewrite (Fields_spaced "default"), (Fields_spaced "via"), (Fields_spaced gw),
    (Fields_spaced "dev"), (Fields_end ifc) by done.
  cbn [tokenAfter head]. by repeat case_decide.
Qed.

End DetectionLayout.

(** C4, as amended.  On Linux [DetectHostGateway] fails with the error of
    the route-inspection command when that command fails; otherwise it
    looks only at the first line of the output that starts with
    [default] (lines before it are skipped, runs of whitespace separate
    the fields), stores the gateway and the interface that line gives and
    succeeds, and fails exactly when there is no such line or that line
    lacks a gateway or an interface. *)
Theorem DetectHostGateway_first_default_line
    {W} `{!Env W} (c : conflux) (w w' : W) (out : string) (err : error) :
  env_exec ["ip"; "route"; "show"; "default"] w = (w', (out, err)) →
  let run := Linux.DetectHostGateway c w in
  worldOf run = w' ∧
  match err, firstDefaultLine out ≫= defaultRouteOf with
  | Some e, _ => resultOf run = Val (Some e) ∧ selfOf run = c
  | None, Some (gw, dev) => resultOf run = Val None ∧ selfOf run = set_route gw dev c
  | None, None =>
      resultOf run = Val (Some "host default gateway or interface not found")
      ∧ selfOf run = c
  end.
Proof.
  intros Hexec. unfold Linux.DetectHostGateway, bind, Output. rewrite Hexec.
  destruct err as [e|]; [done|]. cbn beta iota.
  pose proof (scanLines_defaultRouteOf out) as Hscan.
  destruct (firstDefaultLine out ≫= defaultRouteOf) as [[gw dev]|].
  - destruct Hscan as (-> & Hgw & Hdev). rewrite decide_False by tauto. done.
  - destruct Hscan as (gw & dev & -> & Hempty). by rewrite decide_True.
Qed.

Lemma DetectHostGateway_first_default_line_witness :
  env_exec ["ip"; "route"; "show"; "default"] (routeOutput oneDefault)
  = (routeOutput oneDefault, (oneDefault, None))
  ∧ selfOf (Linux.DetectHostGateway newConflux (routeOutput oneDefault))
    = set_route "192.168.1.1" "eth0" newConflux.
Proof.
  split; [reflexivity|].
  exact (proj2 (proj2 (DetectHostGateway_first_default_line
                         newConflux (routeOutput oneDefault) (routeOutput oneDefault)
                         oneDefault None eq_refl))).
Defined.

(** C4 fails as stated: a later default-route line that gives both a
    gateway and an interface is not used when an earlier one lacks the
    gateway; detection fails. *)
Lemma DetectHostGateway_later_default_line_unused :
  (∃ line, line ∈ strings.Split twoDefaults "010"
           ∧ strings.HasPrefix line "default" = true
           ∧ defaultRouteOf line = Some ("192.168.1.1", "eth0"))
  ∧ resultOf (Linux.DetectHostGateway newConflux (routeOutput twoDefaults))
    = Val (Some "host default gateway or interface not found").
Proof.
  split; [|reflexivity].
  exists "default via 192.168.1.1 dev eth0 proto dhcp metric 100 ".
  split; [|split; reflexivity].
  apply list_elem_of_lookup. by exists 1.
Qed.

Lemma Darwin_scanLine_eq acc line :
  Darwin.scanLine acc line = (default acc.1 (gatewayOf line), default acc.2 (interfaceOf line)).
Proof.
  destruct acc as [gw dev]. unfold Darwin.scanLine, gatewayOf, interfaceOf. cbn zeta.
  by destruct (strings.HasPrefix _ "gateway:"), (strings.HasPrefix _ "interface:").
Qed.

Lemma Darwin_scanLine_last lines acc :
  foldl Darwin.scanLine acc lines
  = (default acc.1 (last (omap gatewayOf lines)), default acc.2 (last (omap interfaceOf lines))).
Proof.
  revert acc. induction lines as [|l ls IH]; intros [gw dev]; [done|].
  cbn [foldl]. rewrite IH, Darwin_scanLine_eq. cbn [fst snd omap list_omap].
  f_equal.
  - destruct (gatewayOf l); [|done].
    rewrite last_cons. by destruct (last (omap gatewayOf ls)).
  - destruct (interfaceOf l); [|done].
    rewrite last_cons. by destruct (last (omap interfaceOf ls)).
Qed.

Example Darwin_DetectHostGateway_sample :
  let out := "   route to: default" +:+ String "010" "" +:+
             "    gateway: 192.168.1.1" +:+ String "010" "" +:+
             "  interface: en0" +:+ String "010" "" +:+
             "    gateway: 10.0.0.1" +:+ String "010" "" in
  let run := Darwin.DetectHostGateway newConflux (routeOutput out) in
  resultOf run = Val None ∧ gateway (selfOf run) = "10.0.0.1" ∧ iface (selfOf run) = "en0".
Proof. done. Qed.

(** ** Packet relay: ingress framing *)

Lemma copy_fresh (b : list byte) : copy (replicate (length b) x00) b = b.
Proof.
  unfold copy. rewrite length_replicate, Nat.min_id, firstn_all.
  rewrite drop_replicate, Nat.sub_diag. apply app_nil_r.
Qed.

Lemma frameAt_lookup bufs i b :
  bufs !! i = Some b → frameAt bufs i = Some (<[i := framed b]> bufs).
Proof.
  intros Hb. unfold frameAt. rewrite Hb. do 2 f_equal.
  rewrite take_replicate, drop_replicate.
  replace (16 `min` (16 + length b)) with 16 by lia.
  replace (16 + length b - 16) with (length b) by lia.
  by rewrite copy_fresh.
Qed.

Lemma frameLoop_take (bufs : list (list byte)) (k : nat) :
  (k ≤ length bufs)%nat →
  foldl (λ acc i, acc ≫= λ bufs, frameAt bufs i) (Some bufs) (seq 0 k)
  = Some ((framed <$> take k bufs) ++ drop k bufs).
Proof.
  induction k as [|k IH]; intros Hk; [done|].
  rewrite seq_S, foldl_app, IH by lia. cbn [foldl mbind option_bind Nat.add].
  destruct (lookup_lt_is_Some_2 bufs k ltac:(lia)) as [b Hb].
  assert (Hlen : length (framed <$> take k bufs) = k) by (rewrite length_fmap, length_take; lia).
  rewrite (frameAt_lookup _ _ b).
  - f_equal. rewrite (take_S_r _ _ b), fmap_app by done.
    rewrite <- (assoc_L (++)). cbn [fmap list_fmap app].
    rewrite <- (Nat.add_0_r k) at 1. rewrite <- Hlen at 1.
    rewrite insert_app_r. f_equal.
    rewrite (drop_S _ b k) by done. done.
  - rewrite lookup_app_r by lia. rewrite Hlen, Nat.sub_diag, lookup_drop, Nat.add_0_r. done.
Qed.

Lemma frameLoop_in_range (bufs : list (list byte)) (n : Z) :
  (0 ≤ n ≤ Z.of_nat (length bufs))%Z →
  frameLoop bufs n = Some ((framed <$> take (Z.to_nat n) bufs) ++ drop (Z.to_nat n) bufs).
Proof. intros Hn. apply frameLoop_take. lia. Qed.

Lemma sliceTo_framed (bufs : list (list byte)) (n : Z) :
  (0 ≤ n ≤ Z.of_nat (length bufs))%Z →
  sliceTo ((framed <$> take (Z.to_nat n) bufs) ++ drop (Z.to_nat n) bufs) n
  = Some (framed <$> take (Z.to_nat n) bufs).
Proof.
  intros Hn. unfold sliceTo.
  assert (Hlen : length (framed <$> take (Z.to_nat n) bufs) = Z.to_nat n)
    by (rewrite length_fmap, length_take; lia).
  rewrite decide_True.
  - f_equal. rewrite take_app_le by lia. apply take_ge. lia.
  - rewrite length_app, Hlen, length_drop. lia.
Qed.

Lemma Linux_ingressLoop_writes
    {W} `{!Env W} (turns : list Linux.ingressTurn) (bufs : list (list byte))
    (c : conflux) (w : W) :
  Forall LinuxIngress.inRange turns →
  let run := Linux.ingressLoop turns bufs c w in
  resultOf run = Val tt
  ∧ writes (traceOf run)
    = (λ datagrams, (framed <$> datagrams, 16%Z))
      <$> omap LinuxIngress.received (LinuxIngress.untilDone turns).
Proof.
  intros Hturns. revert bufs c w.
  induction Hturns as [|turn turns Hturn _ IH]; intros bufs c w; [done|].
  destruct turn as [|bufs'|bufs' n]; cbn [Linux.ingressLoop]; [done|apply IH|].
  cbn in Hturn. rewrite frameLoop_in_range, sliceTo_framed by done.
  specialize (IH ((framed <$> take (Z.to_nat n) bufs') ++ drop (Z.to_nat n) bufs') c w).
  unfold bind, emit. cbn beta iota.
  destruct (Linux.ingressLoop turns _ c w) as [[[r c'] w'] t].
  destruct IH as [Hr Ht]. cbn in Hr, Ht |- *. subst r. split; [done|].
  by rewrite Ht.
Qed.

(** C5.  With the interface and the tunnel endpoint in place, each
    successful read of the ingress loop is followed by one write to the
    virtual interface, with offset 16, whose buffers are the datagrams of
    that read, each behind 16 reserved bytes and otherwise unchanged;
    nothing else is written. *)
Theorem ingress_prepends_header
    {W} `{!Env W} (turns : list Linux.ingressTurn) (c : conflux) (w : W) :
  is_Some (device c) → is_Some (anchor c) →
  Forall LinuxIngress.inRange turns →
  let run := Linux.ingress turns c w in
  resultOf run = Val tt
  ∧ writes (traceOf run)
    = (λ datagrams, (framed <$> datagrams, 16%Z))
      <$> omap LinuxIngress.received (LinuxIngress.untilDone turns)
  ∧ ∀ bufs offset, (bufs, offset) ∈ writes (traceOf run) →
      offset = 16%Z
      ∧ ∀ buf, buf ∈ bufs →
          ∃ datagram, buf = replicate 16 x00 ++ datagram
                      ∧ length buf = 16 + length datagram.
Proof.
  intros [d Hd] [a Ha] Hturns. unfold Linux.ingress, bind, getSelf. cbn beta iota.
  rewrite Hd, Ha.
  destruct (Linux_ingressLoop_writes turns (replicate (batchSize d) []) c w Hturns)
    as [Hr Hw].
  destruct (Linux.ingressLoop turns _ c w) as [[[r c'] w'] t].
  cbn in Hr, Hw |- *. subst r. split; [done|]. split; [done|].
  intros bufs offset. rewrite Hw. intros (ds & [= -> ->] & _)%list_elem_of_fmap.
  split; [done|]. intros buf (datagram & -> & _)%list_elem_of_fmap.
  exists datagram. split; [done|]. unfold framed, header.
  by rewrite length_app, length_replicate.
Qed.

Lemma ingress_prepends_header_witness :
  Forall LinuxIngress.inRange sampleTurns
  ∧ writes (traceOf (Linux.ingress sampleTurns runningConflux (routeOutput "")))
    = [([replicate 16 x00 ++ [x45; x00; x00; x14]; replicate 16 x00 ++ [x60]], 16%Z);
       ([replicate 16 x00], 16%Z)].
Proof.
  assert (Hturns : Forall LinuxIngress.inRange sampleTurns)
    by (repeat constructor; cbn; lia).
  split; [exact Hturns|].
  exact (proj1 (proj2 (ingress_prepends_header sampleTurns runningConflux (routeOutput "")
                         (mk_is_Some _ _ eq_refl) (mk_is_Some _ _ eq_refl) Hturns))).
Defined.

(** The macOS loop frames the datagrams the same way and skips the write
    of an empty batch. *)
Lemma Darwin_ingressLoop_writes
    {W} `{!Env W} (turns : list Darwin.ingressTurn) (bufs : list (list byte))
    (c : conflux) (w : W) :
  Forall DarwinIngress.inRange turns →
  let run := Darwin.ingressLoop turns bufs c w in
  resultOf run = Val tt
  ∧ writes (traceOf run)
    = (λ datagrams, (framed <$> datagrams, 16%Z))
      <$> filter (λ datagrams, datagrams ≠ [])
            (omap DarwinIngress.received (DarwinIngress.untilDone turns)).
Proof.
  intros Hturns. revert bufs c w.
  induction Hturns as [|turn turns Hturn _ IH]; intros bufs c w; [done|].
  destruct turn as [|bufs' n]; cbn [Darwin.ingressLoop]; [done|].
  cbn in Hturn. rewrite frameLoop_in_range by done.
  cbn [DarwinIngress.untilDone omap list_omap DarwinIngress.received].
  rewrite filter_cons.
  specialize (IH ((framed <$> take (Z.to_nat n) bufs') ++ drop (Z.to_nat n) bufs') c w).
  case_decide as Hn.
  - rewrite sliceTo_framed by done. unfold bind, emit. cbn beta iota.
    destruct (Darwin.ingressLoop turns _ c w) as [[[r c'] w'] t].
    destruct IH as [Hr Ht]. cbn in Hr, Ht |- *. subst r. split; [done|].
    rewrite decide_True; [by rewrite Ht|].
    intros Hnil%(f_equal length). rewrite length_take in Hnil. cbn in Hnil. lia.
  - assert (n = 0%Z) as -> by lia. change (Z.to_nat 0) with 0%nat in *.
    rewrite take_0 in *. rewrite decide_False by (by intros ?). apply IH.
Qed.

(** ** Stepping through a sequence of commands *)

(** Name the outcome of the next command and split on its error. *)
Ltac next_command :=
  lazymatch goal with
  | |- context [env_exec ?argv ?w] =>
      let w' := fresh "w" in
      let out := fresh "out" in
      let err := fresh "err" in
      let E := fresh "Hexec" in
      destruct (env_exec argv w) as [w' [out [err|]]] eqn:E; cbn beta iota zeta
  end.

Ltac unfold_commands :=
  repeat (progress (unfold bind, ret, getSelf, modifySelf, emit, Infof, Warnf, Errorf,
                      Run, Output, panic;
                    cbn beta iota zeta)).

(** Membership in an explicit list. *)
Ltac elem_cases H :=
  repeat (apply elem_of_cons in H as [H|H]; [try (by simplify_eq)|]);
  try (by apply elem_of_nil in H).

Ltac elem_solve :=
  repeat first [ by apply elem_of_cons; left | apply elem_of_cons; right ].

(** ** Netmask conversion (macOS) *)

(** C10.  On macOS every prefix string other than 8, 16, 24 and 32 is
    converted to 255.255.255.0, and that mask is the one [ConfigHost]
    passes to [ifconfig] for the virtual interface. *)
Theorem convertNetmask_other_prefix_is_24
    {W} `{!Env W} (cidr ip : string) (c : conflux) (w : W) :
  cidr ∉ ["8"; "16"; "24"; "32"] →
  Darwin.convertNetmask cidr = "255.255.255.0"
  ∧ let run := Darwin.ConfigHost ip cidr c w in
    (∀ ip' mask,
       ["ifconfig"; "veilnet"; "inet"; ip'; "netmask"; mask] ∈ commands (traceOf run) →
       mask = "255.255.255.0")
    ∧ (resultOf run = Val None →
       ["ifconfig"; "veilnet"; "inet"; ip; "netmask"; "255.255.255.0"]
       ∈ commands (traceOf run)).
Proof.
  intros Hcidr.
  assert (Hmask : Darwin.convertNetmask cidr = "255.255.255.0").
  { rewrite !not_elem_of_cons in Hcidr. destruct Hcidr as (? & ? & ? & ? & _).
    unfold Darwin.convertNetmask. by do 4 (rewrite decide_False by assumption). }
  split; [done|]. unfold Darwin.ConfigHost, Darwin.GetVeilHost, Darwin.orReturn.
  rewrite Hmask. unfold_commands.
  destruct (anchor c) as [a|]; cbn beta iota zeta;
    [|split; [intros ip' mask Hin; cbn in Hin; elem_cases Hin | done]].
  case_decide; unfold_commands; repeat (next_command; unfold_commands);
    (split; [intros ip' mask Hin; cbn in Hin; elem_cases Hin
            | intros Hres; cbn in Hres |- *; try done; elem_solve]).
Qed.

Lemma convertNetmask_other_prefix_is_24_witness :
  ("20" ∉ ["8"; "16"; "24"; "32"])
  ∧ Darwin.convertNetmask "20" = "255.255.255.0"
  ∧ ["ifconfig"; "veilnet"; "inet"; "10.1.2.3"; "netmask"; "255.255.255.0"]
    ∈ commands (traceOf (Darwin.ConfigHost "10.1.2.3" "20" runningConflux (routeOutput ""))).
Proof.
  assert (Hcidr : "20" ∉ ["8"; "16"; "24"; "32"]) by (intros Hin; elem_cases Hin).
  pose proof (convertNetmask_other_prefix_is_24 "20" "10.1.2.3" runningConflux
                (routeOutput "") Hcidr) as (Hmask & _ & Hissued).
  split; [exact Hcidr|]. split; [exact Hmask|]. exact (Hissued eq_refl).
Defined.

(** ** Exit code of the command-line driver *)

Section Process.
Context {W : Type} `{!Env W}.
Implicit Types (prog : Cli.Conflux W) (p : Cli.process W).

Lemma step_ended prog t p e : Cli.p_end p = Some e → Cli.step prog t p = p.
Proof. intros H. unfold Cli.step. by rewrite H. Qed.

Lemma steps_ended prog s p e : Cli.p_end p = Some e → Cli.steps prog s p = p.
Proof.
  revert p. induction s as [|t s IH]; intros p H; cbn; [done|].
  rewrite (step_ended _ _ _ _ H). by apply IH.
Qed.

Lemma steps_app prog s1 s2 p :
  Cli.steps prog (s1 ++ s2) p = Cli.steps prog s2 (Cli.steps prog s1 p).
Proof. revert p. induction s1 as [|t s1 IH]; intros p; cbn; [done|apply IH]. Qed.

Lemma endedBy_snoc prog p0 s t e : endedBy prog p0 s e → endedBy prog p0 (s ++ [t]) e.
Proof.
  destruct e as [[e|]|code]; cbn; [done| |].
  - intros (pre & t' & post & -> & Hsel & Hfacts).
    exists pre, t', (post ++ [t]). by rewrite <- app_assoc.
  - intros [(-> & Hw & Hin)|(-> & [Hin|(pre & post & msg & -> & Hp)])].
    + left. repeat split; [done|]. apply elem_of_app. by left.
    + right. split; [done|]. left. apply elem_of_app. by left.
    + right. split; [done|]. right. exists pre, (post ++ [t]), msg.
      by rewrite <- app_assoc.
Qed.

(** What holds of the process after any schedule: a value on
    [shutdownComplete] was sent after the call of [Stop] that [Run]
    started; a watcher past its wait is the macOS one, after the
    anchor's context was done; and an ending has its cause in the
    schedule. *)
Lemma steps_invariant prog c w t s :
  let p := Cli.steps prog s (Cli.started prog c w t) in
  (Cli.p_complete p = true → Cli.p_stopper p = Some Cli.AfterCall)
  ∧ (∀ pos, Cli.p_watcher p = Some (Cli.Woken pos) →
       Cli.watches prog = Cli.StopsThenExits ∧ Cli.ContextDone ∈ s)
  ∧ (Cli.p_watcher p = Some Cli.Waiting → Cli.watches prog ≠ Cli.NoWatcher)
  ∧ (∀ e, Cli.p_end p = Some e → endedBy prog (Cli.started prog c w t) s e).
Proof.
  induction s as [|tk s IH] using rev_ind; cbn zeta.
  - unfold Cli.started; cbn. split; [done|]. split; [|split; [|done]].
    + intros pos. by destruct (Cli.watches prog).
    + by destruct (Cli.watches prog).
  - cbn zeta in IH. rewrite steps_app. cbn [Cli.steps].
    set (p0 := Cli.started prog c w t) in *.
    destruct IH as (I1 & I2 & I3 & I4).
    destruct (Cli.p_end (Cli.steps prog s p0)) as [e|] eqn:Hend.
    { rewrite (step_ended _ _ _ _ Hend). split; [done|]. split; [|split; [done|]].
      - intros pos Hpos. destruct (I2 pos Hpos) as [Hw Hin]. split; [done|].
        apply elem_of_app. by left.
      - intros e' He'. apply endedBy_snoc. apply I4. congruence. }
    clear I4.
    assert (Hlast : ∀ x : Cli.tick, x ∈ s ++ [x])
      by (intros x; apply elem_of_app; right; constructor).
    assert (Hkeep : ∀ x y : Cli.tick, x ∈ s → x ∈ s ++ [y])
      by (intros x y Hx; apply elem_of_app; by left).
    unfold Cli.step. rewrite Hend.
    destruct (Cli.steps prog s p0) as [c' w' t' st wa co en] eqn:Hp.
    cbn in Hend, I1, I2, I3. subst en.
    assert (Hwoken : ∀ pos, wa = Some (Cli.Woken pos) →
              Cli.watches prog = Cli.StopsThenExits ∧ Cli.ContextDone ∈ s ++ [tk]).
    { intros pos Hpos. destruct (I2 pos Hpos). auto. }
    destruct tk as [| |who| | | | |]; cbn.
    + (* Signal *)
      destruct st as [pos|]; cbn; (split; [|split; [|split]]); try done.
      intros Hco. by specialize (I1 Hco).
    + (* ContextDone *)
      destruct wa as [[|pos]|]; cbn; [|by (split; [|split; [|split]])..].
      destruct (Cli.watches prog) eqn:Hw; cbn; (split; [|split; [|split]]); try done.
      intros e [= <-]. left. rewrite Hw. auto.
    + (* StopEnters *)
      destruct who; cbn.
      * destruct st as [[| |]|]; cbn; try by (split; [|split; [|split]]).
        unfold Cli.inside; cbn.
        destruct wa as [[|[| |]]|]; cbn; (split; [|split; [|split]]); try done.
        all: intros Hco; by specialize (I1 Hco).
      * destruct wa as [[|[| |]]|]; cbn; try by (split; [|split; [|split]]).
        unfold Cli.inside; cbn.
        destruct st as [[| |]|]; cbn; (split; [|split; [|split]]); try done.
        all: intros pos [= <-]; by apply (Hwoken Cli.BeforeCall).
    + (* StopEnds *)
      unfold Cli.inside; cbn.
      assert (Hpanic : ∀ msg, resultOf (Cli.Stop prog c' w') = Panic msg →
                endedBy prog p0 (s ++ [Cli.StopEnds]) (Cli.Exits 2)).
      { intros msg Hmsg. right. split; [done|]. right. exists s, [], msg.
        split; [done|]. by rewrite Hp. }
      destruct (Cli.Stop prog c' w') as [[[r c2] w2] t2] eqn:Hstop.
      destruct st as [[| |]|]; cbn; destruct wa as [[|[| |]]|]; cbn;
        try (by (split; [|split; [|split]]));
        destruct r as [[]|msg]; cbn; (split; [|split; [|split]]); try done.
      all: try (intros e [= <-]; by apply (Hpanic msg)).
      all: try (intros pos [= <-]; by apply (Hwoken Cli.InBody)).
      all: try (intros Hco; by specialize (I1 Hco)).
    + (* WatcherExits *)
      destruct wa as [[|[| |]]|]; cbn; (split; [|split; [|split]]); try done.
      intros e [= <-]. left. destruct (Hwoken Cli.AfterCall eq_refl) as [Hw Hin].
      rewrite Hw. auto.
    + (* RelayPanics *)
      (split; [|split; [|split]]); try done.
      intros e [= <-]. right. auto.
    + (* SelectComplete *)
      destruct st as [pos|]; cbn; [|by (split; [|split; [|split]])].
      destruct co; cbn; (split; [|split; [|split]]); try done.
      intros e [= <-]. exists s, Cli.SelectComplete, []. rewrite Hp. cbn.
      repeat split; try done; [by left|]. intros _. by apply I1.
    + (* SelectTimeout *)
      destruct st as [pos|]; cbn; (split; [|split; [|split]]); try done.
      intros e [= <-]. exists s, Cli.SelectTimeout, []. rewrite Hp. cbn.
      repeat split; try done. by right.
Qed.

Lemma Run_app prog cmd w pre post :
  Cli.Run prog cmd w (pre ++ post) = Cli.steps prog post (Cli.Run prog cmd w pre).
Proof.
  unfold Cli.Run. repeat case_decide; try by erewrite steps_ended.
  destruct (Cli.Start prog _ _ _ _ _) as [[[[[e|]|msg] c] w'] t];
    try by erewrite steps_ended.
  apply steps_app.
Qed.

Lemma Run_started prog cmd w c w' t s :
  Cli.Guardian cmd ≠ "" → Cli.Token cmd ≠ "" →
  Cli.Start prog (Cli.Guardian cmd) (Cli.Token cmd) (Cli.Portal cmd) (Cli.NewConflux prog) w
  = (Val None, c, w', t) →
  Cli.Run prog cmd w s = Cli.steps prog s (Cli.started prog c w' t).
Proof.
  intros Hg Ht Hstart. unfold Cli.Run. repeat case_decide; try done. by rewrite Hstart.
Qed.

(** C9, as amended.  Whatever the conflux behind the interface and
    whatever the other goroutines have done so far: once [Run] is at
    its [select] and the process has not ended, the timeout case makes
    [Run] return [nil] and the process end with exit code 0, whether
    the call of [Stop] has not begun, is inside its body, or is over.
    For every schedule that ends the process the exit code is 0, 1 or
    2.  It is 0 only when the guardian URL and the token are set,
    [Start] returned [nil] and [Run] took one of the two cases of its
    [select], the completion case only after the call of [Stop] it
    started had returned.  It is 1 only when [Run] returns an error
    (the guardian URL or the token is missing, or [Start] fails) or the
    platform has a watcher and the anchor's context was done.  It is 2
    only when [Start] panics, a relay loop panics, or a call of [Stop]
    panics. *)
Theorem main_exit_code_by_schedule prog (cmd : Cli.Up) (w : W) :
  let start :=
    Cli.Start prog (Cli.Guardian cmd) (Cli.Token cmd) (Cli.Portal cmd) (Cli.NewConflux prog) w in
  (∀ pre post,
     Cli.p_end (Cli.Run prog cmd w pre) = None →
     Cli.p_stopper (Cli.Run prog cmd w pre) ≠ None →
     (Cli.main prog cmd w (pre ++ Cli.SelectTimeout :: post)).2 = Some 0%Z)
  ∧ ∀ schedule code,
      (Cli.main prog cmd w schedule).2 = Some code →
      (code = 0%Z
       ∧ Cli.Guardian cmd ≠ "" ∧ Cli.Token cmd ≠ "" ∧ resultOf start = Val None
       ∧ ∃ pre t post,
           schedule = pre ++ t :: post ∧ (t = Cli.SelectComplete ∨ t = Cli.SelectTimeout)
           ∧ Cli.p_end (Cli.Run prog cmd w pre) = None
           ∧ Cli.p_stopper (Cli.Run prog cmd w pre) ≠ None
           ∧ (t = Cli.SelectComplete →
              Cli.p_stopper (Cli.Run prog cmd w pre) = Some Cli.AfterCall))
      ∨ (code = 1%Z
         ∧ (Cli.Guardian cmd = "" ∨ Cli.Token cmd = ""
            ∨ (∃ e, resultOf start = Val (Some e))
            ∨ (resultOf start = Val None ∧ Cli.watches prog ≠ Cli.NoWatcher
               ∧ Cli.ContextDone ∈ schedule)))
      ∨ (code = 2%Z
         ∧ ((∃ msg, resultOf start = Panic msg)
            ∨ (resultOf start = Val None ∧ Cli.RelayPanics ∈ schedule)
            ∨ ∃ pre post msg,
                schedule = pre ++ Cli.StopEnds :: post
                ∧ resultOf (Cli.Stop prog (Cli.p_self (Cli.Run prog cmd w pre))
                                          (Cli.p_world (Cli.Run prog cmd w pre)))
                  = Panic msg)).
Proof.
  cbn zeta. split.
  - intros pre post Hend Hsel. unfold Cli.main. rewrite Run_app. cbn [Cli.steps].
    unfold Cli.step at 1. rewrite Hend.
    destruct (Cli.p_stopper (Cli.Run prog cmd w pre)) as [pos|]; [|done].
    by erewrite steps_ended.
  - intros schedule code.
    destruct (decide (Cli.Guardian cmd = "")) as [Hg|Hg].
    { unfold Cli.main, Cli.Run. rewrite decide_True by done. cbn. intros [= <-]. auto. }
    destruct (decide (Cli.Token cmd = "")) as [Ht|Ht].
    { unfold Cli.main, Cli.Run. rewrite decide_False, decide_True by done. cbn.
      intros [= <-]. auto 6. }
    destruct (Cli.Start prog (Cli.Guardian cmd) (Cli.Token cmd) (Cli.Portal cmd)
                (Cli.NewConflux prog) w) as [[[[[e|]|msg] c] w'] t] eqn:Hstart.
    { unfold Cli.main, Cli.Run. rewrite !decide_False, Hstart by done. cbn.
      intros [= <-]. right. left. split; [done|]. do 2 right. left. by exists e. }
    2:{ unfold Cli.main, Cli.Run. rewrite !decide_False, Hstart by done. cbn.
        intros [= <-]. do 2 right. split; [done|]. left. by exists msg. }
    unfold Cli.main.
    assert (Hrun : ∀ s, Cli.Run prog cmd w s = Cli.steps prog s (Cli.started prog c w' t))
      by (intros s; by apply Run_started).
    pose proof (steps_invariant prog c w' t schedule) as (_ & _ & _ & Hby).
    cbn zeta in Hby. setoid_rewrite <- Hrun in Hby.
    destruct (Cli.p_end (Cli.Run prog cmd w schedule)) as [[[e|]|n]|] eqn:Hend; cbn;
      [destruct (Hby _ eq_refl) | | |done]; intros [= <-].
    + destruct (Hby _ eq_refl) as (pre & tk & post & -> & Hsel & Hfacts).
      left. repeat split; try done. exists pre, tk, post. by rewrite Hrun.
    + destruct (Hby _ eq_refl) as [(-> & Hw & Hin)|(-> & [Hin|(pre & post & msg & -> & Hp)])].
      * right. left. auto 8.
      * do 2 right. auto 6.
      * do 2 right. split; [done|]. do 2 right. exists pre, post, msg. by rewrite Hrun.
Qed.

End Process.

(** C9 fails as stated.  On Linux, after a successful [Start]: the
    signal arrives, the call of [Stop] gets into its body, and the
    timer fires before the call is over.  [Run] logs the warning and
    returns [nil], and the process ends with exit code 0 although
    shutdown did not complete. *)
Lemma main_exits_zero_on_shutdown_timeout :
  let prog := Cli.onLinux (sampleStartup "10.1.2.3/24") in
  let schedule := [Cli.Signal; Cli.StopEnters Cli.Stopper; Cli.SelectTimeout] in
  let p := Cli.Run prog sampleUp (routeOutput oneDefault) schedule in
  Cli.p_stopper p = Some Cli.InBody
  ∧ Cli.p_complete p = false
  ∧ once (Cli.p_self p) = false
  ∧ last (Cli.main prog sampleUp (routeOutput oneDefault) schedule).1
    = Some (EvLog WarnLevel "Shutdown timeout, forcing exit")
  ∧ (Cli.main prog sampleUp (routeOutput oneDefault) schedule).2 = Some 0%Z.
Proof. by vm_compute. Qed.

(** Other schedules of the same process.  On Linux the call of [Stop]
    panics when it ends, and the watcher ends the process once the
    anchor's context is done. *)
Lemma Linux_process_samples :
  let prog := Cli.onLinux (sampleStartup "10.1.2.3/24") in
  let code := λ schedule, (Cli.main prog sampleUp (routeOutput oneDefault) schedule).2 in
  code [Cli.Signal; Cli.StopEnters Cli.Stopper; Cli.StopEnds; Cli.SelectComplete] = Some 2%Z
  ∧ code [Cli.ContextDone; Cli.Signal; Cli.SelectTimeout] = Some 1%Z
  ∧ code [Cli.Signal; Cli.StopEnters Cli.Stopper] = None.
Proof. by vm_compute. Qed.

(** On macOS the call of [Stop] returns.  When the process ends with
    the completion case, with the timeout case, and with the watcher,
    which waits for the call that is inside before it makes its own. *)
Lemma Darwin_process_samples :
  let prog := Cli.onDarwin (sampleStartup "10.1.2.3/24") in
  let code := λ schedule, (Cli.main prog sampleUp (routeOutput gatewayAndInterface) schedule).2 in
  code [Cli.Signal; Cli.StopEnters Cli.Stopper; Cli.StopEnds; Cli.SelectComplete] = Some 0%Z
  ∧ code [Cli.Signal; Cli.StopEnters Cli.Stopper; Cli.SelectComplete; Cli.SelectTimeout]
    = Some 0%Z
  ∧ code [Cli.Signal; Cli.StopEnters Cli.Stopper; Cli.ContextDone;
          Cli.StopEnters Cli.Watcher; Cli.WatcherExits; Cli.StopEnds;
          Cli.StopEnters Cli.Watcher; Cli.StopEnds; Cli.WatcherExits] = Some 1%Z.
Proof. by vm_compute. Qed.

(** ** Shutdown *)

(** On Linux the body of [Stop] clears the anchor and then reads it in
    [CleanHostConfiguraions]: the first call panics after stopping the
    tunnel endpoint, no teardown command is run, the interface is not
    closed, and the guard is spent. *)
Lemma Linux_Stop_panics {W} `{!Env W} (c : conflux) (w : W) :
  once c = false →
  Linux.Stop c w
  = (Panic "invalid memory address or nil pointer dereference",
     set_once true (set_anchor None c), w,
     if anchor c is Some _ then [EvAnchorStop] else []).
Proof.
  intros Honce. unfold Linux.Stop, Once_Do. rewrite Honce.
  unfold Linux.CleanHostConfiguraions, Linux.GetVeilHost. unfold_commands.
  by destruct (anchor c).
Qed.

Lemma Stop_again {W} (body : M W unit) (c : conflux) (w : W) :
  once c = true → Once_Do body c w = (Val tt, c, w, []).
Proof. intros Honce. unfold Once_Do. by rewrite Honce. Qed.

(** ** Bypass routes *)

Lemma lookups_app t1 t2 : lookups (t1 ++ t2) = lookups t1 ++ lookups t2.
Proof. apply omap_app. Qed.

Lemma commands_execs t : commands t = (execs t).*1.
Proof.
  unfold commands, execs. induction t as [|[] t IH]; simpl; [done|f_equal|..]; exact IH.
Qed.

Lemma resolvedDests_app r1 r2 : resolvedDests (r1 ++ r2) = resolvedDests r1 ++ resolvedDests r2.
Proof. apply bind_app. Qed.

Lemma storeAll_app e1 e2 m : storeAll (e1 ++ e2) m = storeAll e2 (storeAll e1 m).
Proof. apply foldl_app. Qed.

Section BypassRoutes.

Context {W : Type} `{!Env W}.

Import LinuxRoutes.

Lemma installOne_run host dest (c : conflux) (w : W) :
  installOne host dest c w
  = (Val tt, set_bypassRoutes (<[host := dest]> (bypassRoutes c)) c,
     (env_exec (install (gateway c) (iface c) dest) w).1,
     [EvExec (install (gateway c) (iface c) dest)
             (env_exec (install (gateway c) (iface c) dest) w).2.2]).
Proof.
  unfold installOne, install. unfold_commands.
  by destruct (env_exec _ w) as [w1 [out err]].
Qed.

Lemma set_bypassRoutes_id c : set_bypassRoutes (bypassRoutes c) c = c.
Proof. by destruct c. Qed.

Lemma addFor_run host ips (c : conflux) (w : W) :
  resultOf (addFor host ips c w) = Val tt
  ∧ selfOf (addFor host ips c w)
    = set_bypassRoutes (storeAll ((λ dest, (host, dest)) <$> ipv4Dests ips) (bypassRoutes c)) c
  ∧ commands (traceOf (addFor host ips c w)) = install (gateway c) (iface c) <$> ipv4Dests ips
  ∧ lookups (traceOf (addFor host ips c w)) = [].
Proof.
  revert c w. induction ips as [|ip ips IH]; intros c w.
  { cbn. by rewrite set_bypassRoutes_id. }
  unfold addFor. cbn [forEach]. fold (addFor host ips).
  unfold ipv4Dests. cbn [omap list_omap]. fold (ipv4Dests ips).
  destruct (net.To4 ip) as [ip4|]; cbn [fmap option_fmap option_map].
  - rewrite (run_bind_val _ _ _ _ tt) by by rewrite installOne_run.
    rewrite installOne_run. run_simpl.
    destruct (IH (set_bypassRoutes (<[host:=net.String ip4]> (bypassRoutes c)) c)
                (env_exec (install (gateway c) (iface c) (net.String ip4)) w).1)
      as (Hr & Hc & Ht & Hl).
    rewrite Hr, Hc, commands_app, lookups_app, Ht, Hl. done.
  - rewrite (run_bind_val _ _ _ _ tt) by done. run_simpl. apply IH.
Qed.

Lemma fmap_pair_snd (host : string) (dests : list string) :
  ((λ dest, (host, dest)) <$> dests).*2 = dests.
Proof. induction dests as [|d ds IH]; [done|]. cbn. by f_equal. Qed.

Lemma LookupIP_run host (c : conflux) (w : W) :
  LookupIP host c w
  = (Val (env_lookupIP host w), c, w, [EvLookup host (env_lookupIP host w)]).
Proof. done. Qed.

Lemma addAll_run hosts (c : conflux) (w : W) :
  resultOf (addAll hosts c w) = Val tt
  ∧ (lookups (traceOf (addAll hosts c w))).*1 = hosts
  ∧ selfOf (addAll hosts c w)
    = set_bypassRoutes
        (storeAll (resolvedDests (lookups (traceOf (addAll hosts c w)))) (bypassRoutes c)) c
  ∧ commands (traceOf (addAll hosts c w))
    = install (gateway c) (iface c)
      <$> (resolvedDests (lookups (traceOf (addAll hosts c w)))).*2.
Proof.
  revert c w. induction hosts as [|host hosts IH]; intros c w.
  { cbn. by rewrite set_bypassRoutes_id. }
  unfold addAll. cbn [forEach]. fold (addAll hosts).
  set (one := bind (LookupIP host) _).
  assert (Hone : ∃ c1 w1 t1,
             one c w = (Val tt, c1, w1, EvLookup host (env_lookupIP host w) :: t1)
             ∧ lookups t1 = []
             ∧ c1 = set_bypassRoutes
                      (storeAll (resolvedDests [(host, env_lookupIP host w)]) (bypassRoutes c)) c
             ∧ commands t1
               = install (gateway c) (iface c)
                 <$> (resolvedDests [(host, env_lookupIP host w)]).*2).
  { subst one. rewrite (run_bind_val _ _ _ _ (env_lookupIP host w)) by done.
    rewrite !LookupIP_run. run_simpl. unfold resolvedDests. cbn [mbind list_bind app].
    rewrite app_nil_r.
    destruct (env_lookupIP host w) as [ips|err].
    - destruct (addFor_run host ips c w) as (Hr & Hc & Ht & Hl).
      rewrite Hr, Hc. eexists _, _, _. split; [reflexivity|].
      split; [done|]. split; [done|]. by rewrite Ht, fmap_pair_snd.
    - eexists _, _, _. split; [reflexivity|]. split; [done|]. split; [|done].
      cbn. by rewrite set_bypassRoutes_id. }
  destruct Hone as (c1 & w1 & t1 & Hone & Hl1 & Hc1 & Ht1).
  rewrite (run_bind_val _ _ _ _ tt) by by rewrite Hone.
  rewrite Hone. run_simpl.
  destruct (IH c1 w1) as (Hr & Hh & Hc & Ht).
  rewrite !lookups_app, !commands_app.
  change (lookups (EvLookup host (env_lookupIP host w) :: t1))
    with ((host, env_lookupIP host w) :: lookups t1).
  change (commands (EvLookup host (env_lookupIP host w) :: t1)) with (commands t1).
  rewrite Hl1, Hr, Hc, Ht, Ht1. cbn [app fmap list_fmap fst].
  rewrite Hh. split; [done|]. split; [done|].
  change ((host, env_lookupIP host w) :: lookups (traceOf (addAll hosts c1 w1)))
    with ([(host, env_lookupIP host w)] ++ lookups (traceOf (addAll hosts c1 w1))).
  rewrite resolvedDests_app, storeAll_app, !fmap_app. rewrite Hc1. done.
Qed.

Lemma AddBypassRoutes_addAll : Linux.AddBypassRoutes = addAll Linux.hosts.
Proof. reflexivity. Qed.

End BypassRoutes.

Section Teardown.

Context {W : Type} `{!Env W}.

Import LinuxRoutes.

Lemma RemoveBypassRoutes_removeOne : Linux.RemoveBypassRoutes = Range removeOne.
Proof. reflexivity. Qed.

Lemma removeOne_run key value (c : conflux) (w : W) :
  removeOne key value c w
  = match (env_exec (delete value) w).2.2 with
    | Some e =>
        (Val false, c, (env_exec (delete value) w).1,
         [EvExec (delete value) (Some e); EvLog ErrorLevel (clearFailed key e)])
    | None => (Val true, c, (env_exec (delete value) w).1, [EvExec (delete value) None])
    end.
Proof.
  unfold removeOne, delete. unfold_commands.
  by destruct (env_exec _ w) as [w1 [out [e|]]].
Qed.

(** What a range over [entries] does: deletes are issued for a prefix
    of the entries, only the last of them can have failed, it has
    failed when entries are left over, and a failure is logged. *)
Lemma rangeOver_removeOne entries (c : conflux) (w : W) :
  let run := rangeOver removeOne entries c w in
  let outs := execs (traceOf run) in
  resultOf run = Val tt
  ∧ selfOf run = c
  ∧ (length outs ≤ length entries)%nat
  ∧ outs.*1 = delete <$> (take (length outs) entries).*2
  ∧ (∀ i x, outs !! i = Some x → i + 1 < length outs → x.2 = None)
  ∧ (length outs < length entries → ∃ argv e, last outs = Some (argv, Some e))
  ∧ (∀ i argv e, outs !! i = Some (argv, Some e) →
       ∃ key value, entries !! i = Some (key, value)
                    ∧ EvLog ErrorLevel (clearFailed key e) ∈ traceOf run).
Proof.
  cbn zeta. revert c w. induction entries as [|[key value] rest IH]; intros c w.
  { cbn. repeat split; try done. intros Hlt. exfalso. lia. }
  cbn [rangeOver]. pose proof (removeOne_run key value c w) as Hone.
  destruct ((env_exec (delete value) w).2.2) as [e|].
  - rewrite (run_bind_val _ _ _ _ false) by by rewrite Hone.
    rewrite Hone. unfold ret. run_simpl. cbn [app execs omap list_omap length].
    split; [done|]. split; [done|]. split; [lia|]. split; [done|].
    split; [intros i x _ Hi; lia|]. split; [by eauto|].
    intros [|i] argv e' Hi; [|done]. injection Hi as <- <-.
    exists key, value. split; [done|]. elem_solve.
  - rewrite (run_bind_val _ _ _ _ true) by by rewrite Hone.
    rewrite Hone. run_simpl.
    destruct (IH c (env_exec (delete value) w).1) as (Hr & Hc & Hlen & Hcmd & Hmid & Hlast & Hlog).
    change (execs ([EvExec (delete value) None] ++ ?t))
      with ((delete value, None) :: execs t).
    cbn [length take fmap list_fmap snd fst].
    split; [done|]. split; [done|]. split; [lia|]. split; [by rewrite Hcmd|].
    split; [|split].
    + intros [|i] x Hi Hlt; [by injection Hi as <-|].
      apply (Hmid i); [done|]. cbn [length] in Hlt. lia.
    + intros Hlt. destruct (Hlast ltac:(lia)) as (argv & e & Hl).
      exists argv, e. rewrite last_cons, Hl. done.
    + intros [|i] argv e Hi; [done|].
      destruct (Hlog i argv e Hi) as (k & v & Hkv & Hin).
      exists k, v. split; [done|]. by right.
Qed.

End Teardown.

(** *** The table after a list of stores *)

Lemma storeAll_lookup_inv entries (m : gmap string string) key value :
  storeAll entries m !! key = Some value →
  (key, value) ∈ entries ∨ m !! key = Some value.
Proof.
  revert m. induction entries as [|[k v] entries IH]; intros m; [by right|].
  cbn [storeAll foldl]. fold (storeAll entries (<[k:=v]> m)). intros Hl.
  destruct (IH _ Hl) as [Hin|Hm]; [left; by right|].
  destruct (decide (k = key)) as [->|Hne].
  - rewrite lookup_insert_eq in Hm. injection Hm as ->. left. left.
  - rewrite lookup_insert_ne in Hm by done. by right.
Qed.

Lemma storeAll_snoc entries key value (m : gmap string string) :
  storeAll (entries ++ [(key, value)]) m = <[key := value]> (storeAll entries m).
Proof. by rewrite storeAll_app. Qed.

(** With one entry per key the table holds exactly the entries stored. *)
Lemma storeAll_distinct_keys entries :
  NoDup entries.*1 → map_to_list (storeAll entries ∅) ≡ₚ entries.
Proof.
  induction entries as [|[key value] entries IH] using rev_ind; intros Hnd.
  { cbn. by rewrite map_to_list_empty. }
  rewrite fmap_app in Hnd. apply NoDup_app in Hnd as (Hnd & Hfresh & _).
  rewrite storeAll_snoc, map_to_list_insert.
  - rewrite IH by done. by rewrite Permutation_cons_append.
  - destruct (storeAll entries ∅ !! key) as [v|] eqn:Hl; [|done].
    apply storeAll_lookup_inv in Hl as [Hin|Hl]; [|by rewrite lookup_empty in Hl].
    exfalso. apply (Hfresh key); [|cbn; left].
    apply list_elem_of_fmap. by exists (key, v).
Qed.

Lemma resolvedDests_keys resolved :
  (resolvedDests resolved).*1 ⊆ resolved.*1.
Proof.
  induction resolved as [|[host answer] rs IH]; [done|].
  change ((host, answer) :: rs) with ([(host, answer)] ++ rs).
  rewrite resolvedDests_app, !fmap_app. intros key [Hin|Hin]%elem_of_app.
  - unfold resolvedDests in Hin. cbn [mbind list_bind] in Hin.
    rewrite app_nil_r in Hin. destruct answer as [ips|err]; [|by apply elem_of_nil in Hin].
    apply list_elem_of_fmap in Hin as ([h d] & -> & Hin).
    apply list_elem_of_fmap in Hin as (d' & [= -> ->] & _).
    apply elem_of_app. left. cbn. left.
  - apply elem_of_app. right. by apply IH.
Qed.

Lemma resolvedDests_distinct_keys resolved :
  NoDup resolved.*1 → Forall singleAddress resolved → NoDup (resolvedDests resolved).*1.
Proof.
  induction resolved as [|[host answer] rs IH]; intros Hnd Hsingle; [constructor|].
  apply NoDup_cons in Hnd as [Hfresh Hnd]. apply Forall_cons in Hsingle as [Hone Hsingle].
  change ((host, answer) :: rs) with ([(host, answer)] ++ rs).
  rewrite resolvedDests_app, fmap_app.
  assert (Hhead : (resolvedDests [(host, answer)]).*1 = []
                  ∨ (resolvedDests [(host, answer)]).*1 = [host]).
  { unfold resolvedDests. cbn [mbind list_bind]. rewrite app_nil_r.
    destruct answer as [ips|err]; [|by left]. unfold singleAddress in Hone. cbn in Hone.
    destruct (ipv4Dests ips) as [|d [|d' ds]]; [by left|by right|cbn in Hone; lia]. }
  destruct Hhead as [-> | ->]; cbn [app]; [by apply IH|].
  apply NoDup_cons. split; [|by apply IH].
  intros Hin. apply Hfresh. by apply resolvedDests_keys.
Qed.

Lemma Linux_hosts_distinct : NoDup Linux.hosts.
Proof. unfold Linux.hosts. repeat (apply NoDup_cons; split; [intros Hin; elem_cases Hin|]). constructor. Qed.

Lemma Range_run {W} `{!Env W} (f : string → string → M W bool) (c : conflux) (w : W) :
  Range f c w = rangeOver f (env_range (bypassRoutes c)) c w.
Proof.
  unfold Range, bind, getSelf.
  by destruct (rangeOver f (env_range (bypassRoutes c)) c w) as [[[? ?] ?] ?].
Qed.

(** *** Sample resolvers and hosts *)

(** *** Teardown stops at the first failure *)

(** C2 fails as stated: the delete of the first entry visited fails, and
    no delete is issued for the other recorded entry. *)
Lemma RemoveBypassRoutes_failure_skips_rest :
  let c := set_bypassRoutes sampleTable runningConflux in
  let run := Linux.RemoveBypassRoutes c (scripted singleDns [LinuxRoutes.delete "1.1.1.1"]) in
  bypassRoutes c !! "turn.cloudflare.com" = Some "141.101.90.1"
  ∧ execs (traceOf run) = [(LinuxRoutes.delete "1.1.1.1", Some "exit status 2")]
  ∧ (LinuxRoutes.delete "141.101.90.1" ∉ commands (traceOf run)).
Proof.
  cbn zeta. split; [by vm_compute|].
  assert (Ht : traceOf (Linux.RemoveBypassRoutes
                          (set_bypassRoutes sampleTable runningConflux)
                          (scripted singleDns [LinuxRoutes.delete "1.1.1.1"]))
               = [EvExec (LinuxRoutes.delete "1.1.1.1") (Some "exit status 2");
                  EvLog ErrorLevel
                    "Failed to clear bypass route for stun.cloudflare.com: exit status 2"])
    by by vm_compute.
  rewrite Ht. split; [done|]. intros Hin. cbn in Hin. elem_cases Hin.
Qed.

(** C2, as amended.  [RemoveBypassRoutes] issues the deletes in the order
    [Range] visits the table and stops at the first delete that fails:
    the commands issued are the deletes of a prefix of the visited
    entries, all but the last of them succeeded, the last one failed
    whenever entries are left unvisited, every failure is logged with
    the host name of its entry, and the table itself is left unchanged. *)
Theorem RemoveBypassRoutes_stops_at_first_failure
    {W} `{!Env W} (c : conflux) (w : W) :
  let run := Linux.RemoveBypassRoutes c w in
  let entries := env_range (bypassRoutes c) in
  let outs := execs (traceOf run) in
  entries ≡ₚ map_to_list (bypassRoutes c)
  ∧ resultOf run = Val tt
  ∧ selfOf run = c
  ∧ (length outs ≤ length entries)%nat
  ∧ outs.*1 = LinuxRoutes.delete <$> (take (length outs) entries).*2
  ∧ (∀ i x, outs !! i = Some x → i + 1 < length outs → x.2 = None)
  ∧ (length outs < length entries → ∃ argv e, last outs = Some (argv, Some e))
  ∧ (∀ i argv e, outs !! i = Some (argv, Some e) →
       ∃ key value, entries !! i = Some (key, value)
                    ∧ EvLog ErrorLevel (clearFailed key e) ∈ traceOf run).
Proof.
  cbn zeta. split; [apply env_range_perm|].
  rewrite RemoveBypassRoutes_removeOne, Range_run. apply rangeOver_removeOne.
Qed.

Lemma RemoveBypassRoutes_all_deleted {W} `{!Env W} (c : conflux) (w : W) :
  (∀ argv e, (argv, Some e) ∉ execs (traceOf (Linux.RemoveBypassRoutes c w))) →
  commands (traceOf (Linux.RemoveBypassRoutes c w))
  = LinuxRoutes.delete <$> (env_range (bypassRoutes c)).*2.
Proof.
  rewrite RemoveBypassRoutes_removeOne, Range_run. intros Hok.
  destruct (rangeOver_removeOne (env_range (bypassRoutes c)) c w)
    as (_ & _ & Hlen & Hcmd & _ & Hlast & _).
  cbn zeta in Hlen, Hcmd, Hlast. rewrite commands_execs, Hcmd.
  destruct (decide (length (execs (traceOf (rangeOver removeOne (env_range (bypassRoutes c)) c w)))
                    < length (env_range (bypassRoutes c)))) as [Hlt|Hge].
  - destruct (Hlast Hlt) as (argv & e & Hl). exfalso. apply (Hok argv e).
    apply last_Some in Hl as [l' ->]. apply elem_of_app. right. left.
  - by rewrite take_ge by lia.
Qed.

(** *** What install records *)

(** C3 fails as stated: the install command for 1.1.1.1 fails, the
    address is recorded all the same, and teardown issues a delete for
    it. *)
Lemma AddBypassRoutes_records_failed_install :
  let w := scripted singleDns [LinuxRoutes.install "192.168.1.1" "eth0" "1.1.1.1"] in
  let run := Linux.AddBypassRoutes runningConflux w in
  (LinuxRoutes.install "192.168.1.1" "eth0" "1.1.1.1", Some "exit status 2")
  ∈ execs (traceOf run)
  ∧ bypassRoutes (selfOf run) !! "stun.cloudflare.com" = Some "1.1.1.1"
  ∧ LinuxRoutes.delete "1.1.1.1"
    ∈ commands (traceOf (Linux.RemoveBypassRoutes (selfOf run) (worldOf run))).
Proof.
  cbn zeta. split; [|split].
  - assert (Ht : execs (traceOf (Linux.AddBypassRoutes runningConflux
                   (scripted singleDns [LinuxRoutes.install "192.168.1.1" "eth0" "1.1.1.1"])))
                 = [(LinuxRoutes.install "192.168.1.1" "eth0" "1.1.1.1", Some "exit status 2");
                    (LinuxRoutes.install "192.168.1.1" "eth0" "141.101.90.1", None)])
      by by vm_compute.
    rewrite Ht. elem_solve.
  - by vm_compute.
  - assert (Ht : commands (traceOf (Linux.RemoveBypassRoutes
                   (selfOf (Linux.AddBypassRoutes runningConflux
                      (scripted singleDns [LinuxRoutes.install "192.168.1.1" "eth0" "1.1.1.1"])))
                   (worldOf (Linux.AddBypassRoutes runningConflux
                      (scripted singleDns [LinuxRoutes.install "192.168.1.1" "eth0" "1.1.1.1"])))))
                 = [LinuxRoutes.delete "1.1.1.1"; LinuxRoutes.delete "141.101.90.1"])
      by by vm_compute.
    rewrite Ht. elem_solve.
Qed.

(** C3, as amended.  Starting from an empty table, [AddBypassRoutes]
    looks up each host of the list once, issues one install command per
    IPv4 address found and records the address under its host name
    after the command, whether or not the command failed; a later
    [RemoveBypassRoutes] only issues deletes for addresses for which an
    install command was issued. *)
Theorem AddBypassRoutes_records_every_address
    {W} `{!Env W} (c : conflux) (w w' : W) :
  bypassRoutes c = ∅ →
  let run := Linux.AddBypassRoutes c w in
  let entries := resolvedDests (lookups (traceOf run)) in
  resultOf run = Val tt
  ∧ (lookups (traceOf run)).*1 = Linux.hosts
  ∧ commands (traceOf run) = LinuxRoutes.install (gateway c) (iface c) <$> entries.*2
  ∧ bypassRoutes (selfOf run) = storeAll entries ∅
  ∧ ∀ argv, argv ∈ commands (traceOf (Linux.RemoveBypassRoutes (selfOf run) w')) →
      ∃ dest, argv = LinuxRoutes.delete dest
              ∧ LinuxRoutes.install (gateway c) (iface c) dest ∈ commands (traceOf run).
Proof.
  intros Hempty. cbn zeta. rewrite AddBypassRoutes_addAll.
  destruct (addAll_run Linux.hosts c w) as (Hr & Hh & Hc & Ht). rewrite Hempty in Hc.
  split; [done|]. split; [done|]. split; [done|]. split; [by rewrite Hc|].
  intros argv Hin. rewrite RemoveBypassRoutes_removeOne, Range_run in Hin.
  pose proof (env_range_perm (bypassRoutes (selfOf (addAll Linux.hosts c w)))) as Hperm.
  destruct (rangeOver_removeOne (env_range (bypassRoutes (selfOf (addAll Linux.hosts c w))))
              (selfOf (addAll Linux.hosts c w)) w')
    as (_ & _ & _ & Hcmd & _).
  cbn zeta in Hcmd. rewrite commands_execs, Hcmd in Hin.
  apply list_elem_of_fmap in Hin as (dest & -> & Hin).
  exists dest. split; [done|]. rewrite Ht. apply list_elem_of_fmap_2.
  apply list_elem_of_fmap in Hin as ([key value] & -> & Hin). cbn [snd].
  apply elem_of_take in Hin as (i & Hin & _). apply list_elem_of_lookup_2 in Hin.
  rewrite Hperm, elem_of_map_to_list, Hc in Hin. cbn [bypassRoutes set_bypassRoutes] in Hin.
  apply storeAll_lookup_inv in Hin as [Hin|Hin]; [|by rewrite lookup_empty in Hin].
  apply list_elem_of_fmap. by exists (key, value).
Qed.

Lemma AddBypassRoutes_records_every_address_witness :
  bypassRoutes runningConflux = ∅
  ∧ bypassRoutes (selfOf (Linux.AddBypassRoutes runningConflux
                            (scripted singleDns
                               [LinuxRoutes.install "192.168.1.1" "eth0" "1.1.1.1"])))
    = storeAll (resolvedDests (lookups (traceOf
        (Linux.AddBypassRoutes runningConflux
           (scripted singleDns [LinuxRoutes.install "192.168.1.1" "eth0" "1.1.1.1"]))))) ∅.
Proof.
  split; [reflexivity|].
  exact (proj1 (proj2 (proj2 (proj2 (AddBypassRoutes_records_every_address
    runningConflux (scripted singleDns [LinuxRoutes.install "192.168.1.1" "eth0" "1.1.1.1"])
    (scripted singleDns []) eq_refl))))).
Defined.

(** *** Install followed by teardown *)

(** C1 fails as stated: the host resolves to two IPv4 addresses, both
    are installed and every command succeeds, but only the last address
    is deleted at teardown, and the table is not empty afterwards. *)
Lemma bypass_first_address_never_deleted :
  let run1 := Linux.AddBypassRoutes runningConflux (scripted doubleDns []) in
  let run2 := Linux.RemoveBypassRoutes (selfOf run1) (worldOf run1) in
  execs (traceOf run1)
  = [(LinuxRoutes.install "192.168.1.1" "eth0" "1.1.1.1", None);
     (LinuxRoutes.install "192.168.1.1" "eth0" "1.0.0.1", None)]
  ∧ execs (traceOf run2) = [(LinuxRoutes.delete "1.0.0.1", None)]
  ∧ (LinuxRoutes.delete "1.1.1.1" ∉ commands (traceOf run2))
  ∧ bypassRoutes (selfOf run2) ≠ ∅.
Proof.
  cbn zeta.
  assert (Ht : execs (traceOf (Linux.RemoveBypassRoutes
                 (selfOf (Linux.AddBypassRoutes runningConflux (scripted doubleDns [])))
                 (worldOf (Linux.AddBypassRoutes runningConflux (scripted doubleDns [])))))
               = [(LinuxRoutes.delete "1.0.0.1", None)]) by by vm_compute.
  split; [by vm_compute|]. split; [exact Ht|]. split.
  - rewrite commands_execs, Ht. intros Hin. cbn in Hin. elem_cases Hin.
  - intros Hnil.
    assert (Hl : bypassRoutes (selfOf (Linux.RemoveBypassRoutes
                   (selfOf (Linux.AddBypassRoutes runningConflux (scripted doubleDns [])))
                   (worldOf (Linux.AddBypassRoutes runningConflux (scripted doubleDns [])))))
                 !! "stun.cloudflare.com" = Some "1.0.0.1") by by vm_compute.
    by rewrite Hnil, lookup_empty in Hl.
Qed.

(** C1, as amended.  When no host resolves to more than one IPv4 address
    and no delete command fails, [AddBypassRoutes] from an empty table
    followed by [RemoveBypassRoutes] issues one install command per
    resolved address and, up to order, one delete command for each of
    the same addresses; teardown leaves the entries in the table. *)
Theorem bypass_install_then_teardown
    {W} `{!Env W} (c : conflux) (w : W) :
  bypassRoutes c = ∅ →
  let run1 := Linux.AddBypassRoutes c w in
  let run2 := Linux.RemoveBypassRoutes (selfOf run1) (worldOf run1) in
  let dests := (resolvedDests (lookups (traceOf run1))).*2 in
  Forall singleAddress (lookups (traceOf run1)) →
  (∀ argv e, (argv, Some e) ∉ execs (traceOf run2)) →
  commands (traceOf run1) = LinuxRoutes.install (gateway c) (iface c) <$> dests
  ∧ commands (traceOf run2) ≡ₚ LinuxRoutes.delete <$> dests
  ∧ bypassRoutes (selfOf run2) = bypassRoutes (selfOf run1)
  ∧ size (bypassRoutes (selfOf run2)) = length dests.
Proof.
  intros Hempty. cbn zeta. intros Hsingle Hok.
  rewrite AddBypassRoutes_addAll in *.
  destruct (addAll_run Linux.hosts c w) as (_ & Hh & Hc & Ht).
  rewrite Hempty in Hc. apply (f_equal bypassRoutes) in Hc. cbn [bypassRoutes set_bypassRoutes] in Hc.
  assert (Hnd : NoDup (resolvedDests (lookups (traceOf (addAll Linux.hosts c w)))).*1).
  { apply resolvedDests_distinct_keys; [|done]. rewrite Hh. apply Linux_hosts_distinct. }
  pose proof (storeAll_distinct_keys _ Hnd) as Hperm. rewrite <- Hc in Hperm.
  pose proof (env_range_perm (bypassRoutes (selfOf (addAll Linux.hosts c w)))) as Hrange.
  assert (Hself : selfOf (Linux.RemoveBypassRoutes (selfOf (addAll Linux.hosts c w))
                            (worldOf (addAll Linux.hosts c w)))
                  = selfOf (addAll Linux.hosts c w)).
  { rewrite RemoveBypassRoutes_removeOne, Range_run. apply rangeOver_removeOne. }
  split; [done|]. split; [|split].
  - rewrite RemoveBypassRoutes_all_deleted by done. by rewrite Hrange, Hperm.
  - by rewrite Hself.
  - rewrite Hself, <- length_map_to_list, Hperm. by rewrite length_fmap.
Qed.

Lemma bypass_install_then_teardown_witness :
  bypassRoutes runningConflux = ∅
  ∧ commands (traceOf (Linux.RemoveBypassRoutes
                 (selfOf (Linux.AddBypassRoutes runningConflux (scripted singleDns [])))
                 (worldOf (Linux.AddBypassRoutes runningConflux (scripted singleDns [])))))
    ≡ₚ LinuxRoutes.delete
       <$> (resolvedDests (lookups (traceOf
              (Linux.AddBypassRoutes runningConflux (scripted singleDns []))))).*2.
Proof.
  split; [reflexivity|].
  refine (proj1 (proj2 (bypass_install_then_teardown runningConflux (scripted singleDns [])
                          eq_refl _ _))).
  - repeat constructor; cbn; lia.
  - intros argv e Hin. vm_compute in Hin. elem_cases Hin.
Defined.

(** ** Host configuration on the Linux host model *)
Section HostModel.

Import LinuxHost.

Lemma exec_sysctl_n (h : host) :
  env_exec ["sysctl"; "-n"; "net.ipv4.ip_forward"] h
  = (h, ((if ip_forward h then "1" else "0") +:+ String "010" "", None)).
Proof. reflexivity. Qed.

Lemma exec_sysctl_w1 (h : host) :
  env_exec ["sysctl"; "-w"; "net.ipv4.ip_forward=1"] h = (set_ip_forward true h, ("", None)).
Proof. reflexivity. Qed.

Lemma exec_sysctl_w0 (h : host) :
  env_exec ["sysctl"; "-w"; "net.ipv4.ip_forward=0"] h = (set_ip_forward false h, ("", None)).
Proof. reflexivity. Qed.

Lemma sysctl_output_enabled (b : bool) :
  bool_decide (strings.TrimSpace ((if b then "1" else "0") +:+ String "010" "") = "1") = b.
Proof. by destruct b. Qed.

Lemma routeAdd_ip_forward dst sel h : ip_forward (routeAdd dst sel h).1 = ip_forward h.
Proof. unfold routeAdd. by case_match. Qed.

Lemma routeDel_ip_forward dst sel h : ip_forward (routeDel dst sel h).1 = ip_forward h.
Proof. unfold routeDel. by case_match. Qed.

Lemma ipCommand_ip_forward args h : ip_forward (ipCommand args h).1 = ip_forward h.
Proof.
  unfold ipCommand, routeShow.
  repeat (case_match || case_decide); subst;
    rewrite ?routeAdd_ip_forward, ?routeDel_ip_forward; done.
Qed.

Lemma iptablesIn_ip_forward table args h : ip_forward (iptablesIn table args h).1 = ip_forward h.
Proof. unfold iptablesIn. by repeat (case_match || case_decide). Qed.

Lemma iptablesCommand_ip_forward args h : ip_forward (iptablesCommand args h).1 = ip_forward h.
Proof.
  unfold iptablesCommand.
  repeat (case_match || case_decide); rewrite ?iptablesIn_ip_forward; done.
Qed.

(** Only [sysctl] changes the forwarding flag. *)
Lemma exec_ip_forward argv h w' out err :
  env_exec argv h = (w', (out, err)) →
  hd "" argv ≠ "sysctl" →
  ip_forward w' = ip_forward h.
Proof.
  intros Hexec Hprog. apply (f_equal (λ x, ip_forward x.1)) in Hexec. cbn [fst] in Hexec.
  rewrite <- Hexec. cbn [env_exec env]. unfold exec.
  destruct argv as [|prog args]; [done|]. cbn [hd] in Hprog.
  repeat case_decide; rewrite ?ipCommand_ip_forward, ?iptablesCommand_ip_forward; done.
Qed.

End HostModel.

(** *** Forwarding, by the commands alone *)

Section PortalCommands.
Context {W : Type} `{!Env W}.

(** In any environment, a successful Portal-mode [ConfigHost] records
    forwarding as disabled exactly when it ran the command that enables
    it. *)
Lemma ConfigHost_portal_commands (c : conflux) (w : W) (ip netmask : string) :
  portal c = true →
  resultOf (Linux.ConfigHost ip netmask c w) = Val None →
  is_Some (anchor c)
  ∧ (∃ enabled, selfOf (Linux.ConfigHost ip netmask c w) = set_ipForwardEnabled enabled c
                ∧ (["sysctl"; "-w"; "net.ipv4.ip_forward=1"]
                   ∈ commands (traceOf (Linux.ConfigHost ip netmask c w))
                   ↔ enabled = false)).
Proof.
  intros Hportal. unfold Linux.ConfigHost, Linux.GetVeilHost, Linux.orReturn.
  unfold_commands.
  destruct (anchor c) as [a|]; unfold_commands; [|done].
  rewrite Hportal.
  case_decide; unfold_commands; repeat (next_command; unfold_commands).
  all: try (intros Hres; by cbn in Hres).
  all: match goal with
       | |- context [bool_decide (strings.TrimSpace ?out = "1")] =>
           destruct (bool_decide (strings.TrimSpace out = "1")) eqn:Henabled
       end.
  all: cbn [negb]; unfold_commands; repeat (next_command; unfold_commands).
  all: try (intros Hres; by cbn in Hres).
  all: intros _; cbn [selfOf worldOf traceOf resultOf fst snd app].
  all: split; [by eexists|]; eexists; split; [reflexivity|].
  all: split; intros Hx; [cbn in Hx; elem_cases Hx | first [congruence | cbn; elem_solve]].
Qed.

(** In any environment, Portal-mode teardown runs the command that
    disables forwarding exactly when forwarding was recorded as
    disabled. *)
Lemma CleanHostConfiguraions_portal_commands (c : conflux) (w : W) :
  portal c = true →
  is_Some (anchor c) →
  resultOf (Linux.CleanHostConfiguraions c w) = Val tt
  ∧ (["sysctl"; "-w"; "net.ipv4.ip_forward=0"]
     ∈ commands (traceOf (Linux.CleanHostConfiguraions c w))
     ↔ ipForwardEnabled c = false).
Proof.
  intros Hportal [a Ha]. unfold Linux.CleanHostConfiguraions, Linux.GetVeilHost, Linux.orLog.
  unfold_commands. rewrite Ha. unfold_commands. rewrite Hportal.
  destruct (ipForwardEnabled c) eqn:Henabled; cbn [negb];
    case_decide; unfold_commands; repeat (next_command; unfold_commands).
  all: cbn [selfOf worldOf traceOf resultOf fst snd app].
  all: split; [done|].
  all: split; intros Hx; [cbn in Hx; elem_cases Hx | first [congruence | cbn; elem_solve]].
Qed.

(** Whatever the commands do, teardown switches forwarding off exactly
    when apply switched it on. *)
Lemma portal_disables_what_it_enabled (c : conflux) (w w' : W) (ip netmask : string) :
  portal c = true →
  resultOf (Linux.ConfigHost ip netmask c w) = Val None →
  ["sysctl"; "-w"; "net.ipv4.ip_forward=0"]
  ∈ commands (traceOf (Linux.CleanHostConfiguraions
                         (selfOf (Linux.ConfigHost ip netmask c w)) w'))
  ↔ ["sysctl"; "-w"; "net.ipv4.ip_forward=1"]
    ∈ commands (traceOf (Linux.ConfigHost ip netmask c w)).
Proof.
  intros Hportal Hres.
  destruct (ConfigHost_portal_commands c w ip netmask Hportal Hres)
    as (Hanchor & enabled & Hself & Hon).
  rewrite Hself, Hon.
  by destruct (CleanHostConfiguraions_portal_commands (set_ipForwardEnabled enabled c) w'
                 Hportal Hanchor) as [_ ->].
Qed.
End PortalCommands.

(** *** Forwarding, on the host model *)

Section Portal.

Import LinuxHost.

(** Carry the forwarding flag along the commands already run. *)
Ltac forward_chain :=
  repeat match goal with
         | H : env_exec ?argv ?h = (?w', (?out, ?err)) |- _ =>
             apply exec_ip_forward in H; [|by cbn]
         end.

Ltac portal_step :=
  first [ rewrite exec_sysctl_n | rewrite exec_sysctl_w1 | rewrite exec_sysctl_w0
        | next_command ];
  unfold_commands.

Lemma ConfigHost_portal (c : conflux) (h : host) (ip netmask : string) :
  portal c = true →
  resultOf (Linux.ConfigHost ip netmask c h) = Val None →
  is_Some (anchor c)
  ∧ selfOf (Linux.ConfigHost ip netmask c h) = set_ipForwardEnabled (ip_forward h) c
  ∧ ip_forward (worldOf (Linux.ConfigHost ip netmask c h)) = true
  ∧ (["sysctl"; "-w"; "net.ipv4.ip_forward=1"]
     ∈ commands (traceOf (Linux.ConfigHost ip netmask c h)) ↔ ip_forward h = false).
Proof.
  intros Hportal. unfold Linux.ConfigHost, Linux.GetVeilHost, Linux.orReturn.
  unfold_commands.
  destruct (anchor c) as [a|]; unfold_commands; [|done].
  rewrite Hportal.
  case_decide; unfold_commands; repeat portal_step.
  all: try (intros Hres; by cbn in Hres).
  all: rewrite ?sysctl_output_enabled.
  all: match goal with |- context [negb (ip_forward ?w)] => destruct (ip_forward w) eqn:Hfw end.
  all: cbn [negb]; unfold_commands; repeat portal_step.
  all: try (intros Hres; by cbn in Hres).
  all: intros _; forward_chain.
  all: cbn [selfOf worldOf traceOf resultOf fst snd app].
  all: match goal with
       | Hfw : ip_forward ?w = ?b |- _ => assert (Hh : ip_forward h = b) by congruence
       end.
  all: split; [by eexists|]; split; [by rewrite Hh|]; split; [done|].
  all: split; intros Hx;
    [cbn in Hx; elem_cases Hx | first [congruence | cbn; elem_solve]].
Qed.

Lemma CleanHostConfiguraions_portal (c : conflux) (h : host) :
  portal c = true →
  is_Some (anchor c) →
  resultOf (Linux.CleanHostConfiguraions c h) = Val tt
  ∧ ip_forward (worldOf (Linux.CleanHostConfiguraions c h))
    = (if ipForwardEnabled c then ip_forward h else false)
  ∧ (["sysctl"; "-w"; "net.ipv4.ip_forward=0"]
     ∈ commands (traceOf (Linux.CleanHostConfiguraions c h))
     ↔ ipForwardEnabled c = false).
Proof.
  intros Hportal [a Ha]. unfold Linux.CleanHostConfiguraions, Linux.GetVeilHost, Linux.orLog.
  unfold_commands. rewrite Ha. unfold_commands. rewrite Hportal.
  destruct (ipForwardEnabled c) eqn:Henabled; cbn [negb];
    case_decide; unfold_commands; repeat portal_step.
  all: forward_chain; cbn [selfOf worldOf traceOf resultOf fst snd app].
  all: split; [done|]; split; [cbn; congruence|].
  all: split; intros Hx;
    [cbn in Hx; elem_cases Hx | first [congruence | cbn; elem_solve]].
Qed.

End Portal.

(** C7.  On the Linux host model, a successful Portal-mode [ConfigHost]
    followed by [CleanHostConfiguraions] leaves the IP-forwarding flag
    as it was before: forwarding is switched on by apply, and switched
    off again by teardown, exactly when it was off before. *)
Theorem portal_restores_ip_forward
    (c : conflux) (h : LinuxHost.host) (ip netmask : string) :
  portal c = true →
  let run1 := Linux.ConfigHost ip netmask c h in
  resultOf run1 = Val None →
  let run2 := Linux.CleanHostConfiguraions (selfOf run1) (worldOf run1) in
  resultOf run2 = Val tt
  ∧ LinuxHost.ip_forward (worldOf run2) = LinuxHost.ip_forward h
  ∧ (["sysctl"; "-w"; "net.ipv4.ip_forward=1"] ∈ commands (traceOf run1)
     ↔ LinuxHost.ip_forward h = false)
  ∧ (["sysctl"; "-w"; "net.ipv4.ip_forward=0"] ∈ commands (traceOf run2)
     ↔ LinuxHost.ip_forward h = false).
Proof.
  intros Hportal. cbn zeta. intros Hres.
  destruct (ConfigHost_portal c h ip netmask Hportal Hres) as (Hanchor & Hself & Hfw & Hon).
  rewrite Hself.
  destruct (CleanHostConfiguraions_portal
              (set_ipForwardEnabled (LinuxHost.ip_forward h) c)
              (worldOf (Linux.ConfigHost ip netmask c h)) Hportal Hanchor)
    as (Hres2 & Hfw2 & Hoff).
  split; [done|]. split; [|split; [done|]].
  - rewrite Hfw2, Hfw. cbn. by destruct (LinuxHost.ip_forward h).
  - by rewrite Hoff.
Qed.

Lemma portal_restores_ip_forward_witness :
  portal portalConflux = true
  ∧ resultOf (Linux.ConfigHost "10.1.2.3" "24" portalConflux (sampleHost false 100)) = Val None
  ∧ LinuxHost.ip_forward
      (worldOf (Linux.CleanHostConfiguraions
         (selfOf (Linux.ConfigHost "10.1.2.3" "24" portalConflux (sampleHost false 100)))
         (worldOf (Linux.ConfigHost "10.1.2.3" "24" portalConflux (sampleHost false 100)))))
    = false.
Proof.
  assert (Hres : resultOf (Linux.ConfigHost "10.1.2.3" "24" portalConflux (sampleHost false 100))
                 = Val None) by by vm_compute.
  split; [reflexivity|]. split; [exact Hres|].
  exact (proj1 (proj2 (portal_restores_ip_forward portalConflux (sampleHost false 100)
                         "10.1.2.3" "24" eq_refl Hres))).
Defined.

(** ** Default routes on the Linux host model *)
Section DefaultRoutes.

Import LinuxHost.

Lemma removeFirst_skip (p : route → bool) l1 x l2 :
  Forall (λ r, p r = false) l1 → p x = true →
  removeFirst p (l1 ++ x :: l2) = Some (l1 ++ l2).
Proof.
  intros Hl1 Hx. induction Hl1 as [|r l1 Hr _ IH]; cbn [removeFirst app].
  - by rewrite Hx.
  - by rewrite Hr, IH.
Qed.

Lemma removeFirst_None (p : route → bool) l :
  removeFirst p l = None → Forall (λ r, p r = false) l.
Proof.
  induction l as [|r l IH]; cbn [removeFirst]; [constructor|].
  destruct (p r) eqn:Hr; [done|].
  destruct (removeFirst p l); [done|]. intros _. constructor; [done|by apply IH].
Qed.

Lemma selects_dst dst sel r : selects dst sel r = true → rt_dst r = dst.
Proof.
  unfold selects. intros Hs. repeat (apply andb_prop in Hs as [Hs _]).
  by apply bool_decide_eq_true in Hs.
Qed.

(** Deleting a default route acts on the default routes alone. *)
Lemma removeFirst_defaults sel rs rs' :
  removeFirst (selects "default" sel) rs = Some rs' →
  removeFirst (selects "default" sel) (defaults rs) = Some (defaults rs').
Proof.
  revert rs'. induction rs as [|r rs IH]; intros rs'; cbn [removeFirst]; [done|].
  unfold defaults. rewrite filter_cons.
  destruct (selects "default" sel r) eqn:Hr.
  - intros [= <-]. rewrite decide_True by by apply selects_dst in Hr.
    cbn [removeFirst]. by rewrite Hr.
  - destruct (removeFirst (selects "default" sel) rs) as [rs''|] eqn:Hrs; [|done].
    intros [= <-]. specialize (IH rs'' eq_refl). unfold defaults in IH.
    rewrite filter_cons. case_decide.
    + cbn [removeFirst]. by rewrite Hr, IH.
    + done.
Qed.

(** Deleting a route to another destination leaves them alone. *)
Lemma removeFirst_other dst sel rs rs' :
  dst ≠ "default" →
  removeFirst (selects dst sel) rs = Some rs' → defaults rs' = defaults rs.
Proof.
  intros Hdst. revert rs'. induction rs as [|r rs IH]; intros rs'; cbn [removeFirst]; [done|].
  unfold defaults. rewrite filter_cons.
  destruct (selects dst sel r) eqn:Hr.
  - intros [= <-]. rewrite decide_False; [done|]. apply selects_dst in Hr. congruence.
  - destruct (removeFirst (selects dst sel) rs) as [rs''|] eqn:Hrs; [|done].
    intros [= <-]. rewrite filter_cons. specialize (IH rs'' eq_refl). unfold defaults in IH.
    by rewrite IH.
Qed.

Lemma routeAdd_ok dst sel h w' out :
  routeAdd dst sel h = (w', (out, None)) →
  routes w' = routes h ++ [routeOf dst sel]
  ∧ Forall (λ r, ¬ (rt_dst r = dst ∧ rt_metric r = default 0%N (s_metric sel))) (routes h).
Proof.
  unfold routeAdd. destruct (existsb _ (routes h)) eqn:Hex; [done|].
  intros [= <- _]. split; [done|].
  apply Forall_forall. intros r Hr [Hd Hm].
  assert (Htrue : existsb
            (λ r', bool_decide (rt_dst r' = dst ∧ rt_metric r' = default 0%N (s_metric sel)))
            (routes h) = true).
  { apply existsb_exists. exists r. split; [by apply list_elem_of_In|].
    by apply bool_decide_eq_true. }
  cbn in Hex. congruence.
Qed.

Lemma routeAdd_err dst sel h w' out e :
  routeAdd dst sel h = (w', (out, Some e)) →
  w' = h ∧ Exists (λ r, rt_dst r = dst ∧ rt_metric r = default 0%N (s_metric sel)) (routes h).
Proof.
  unfold routeAdd. destruct (existsb _ (routes h)) eqn:Hex; [|done].
  intros [= <- _ _]. split; [done|].
  apply existsb_exists in Hex as (r & Hin & Hr). apply Exists_exists.
  exists r. split; [by apply list_elem_of_In|]. by apply bool_decide_eq_true in Hr.
Qed.

Lemma routeDel_ok dst sel h w' out :
  routeDel dst sel h = (w', (out, None)) →
  removeFirst (selects dst sel) (routes h) = Some (routes w').
Proof.
  unfold routeDel. destruct (removeFirst _ (routes h)) as [rs|]; [|done].
  by intros [= <- _].
Qed.

Lemma routeDel_err dst sel h w' out e :
  routeDel dst sel h = (w', (out, Some e)) →
  w' = h ∧ Forall (λ r, selects dst sel r = false) (routes h).
Proof.
  unfold routeDel. destruct (removeFirst _ (routes h)) as [rs|] eqn:Hrm; [done|].
  intros [= <- _ _]. split; [done|]. by apply removeFirst_None.
Qed.

End DefaultRoutes.

(** ** Default-route redirection (Rift mode) *)
Section RiftRoutes.

Import LinuxHost.

Lemma exec_del_default_via gw ifc (h : host) :
  env_exec ["ip"; "route"; "del"; "default"; "via"; gw; "dev"; ifc] h
  = routeDel "default" (viaDev gw ifc None) h.
Proof. reflexivity. Qed.

Lemma exec_add_default_metric50 gw ifc (h : host) :
  env_exec ["ip"; "route"; "add"; "default"; "via"; gw; "dev"; ifc; "metric"; "50"] h
  = routeAdd "default" (viaDev gw ifc (Some 50%N)) h.
Proof. reflexivity. Qed.

Lemma exec_add_default_tun (h : host) :
  env_exec ["ip"; "route"; "add"; "default"; "dev"; "veilnet"] h
  = routeAdd "default" (onDev "veilnet") h.
Proof. reflexivity. Qed.

Lemma exec_del_default_tun (h : host) :
  env_exec ["ip"; "route"; "del"; "default"; "dev"; "veilnet"] h
  = routeDel "default" (onDev "veilnet") h.
Proof. reflexivity. Qed.

Lemma exec_add_default_via gw ifc (h : host) :
  env_exec ["ip"; "route"; "add"; "default"; "via"; gw; "dev"; ifc] h
  = routeAdd "default" (viaDev gw ifc None) h.
Proof. reflexivity. Qed.

Lemma defaults_app l1 l2 : defaults (l1 ++ l2) = defaults l1 ++ defaults l2.
Proof. apply filter_app. Qed.

Lemma routeAdd_other dst sel h : dst ≠ "default" →
  defaults (routes (routeAdd dst sel h).1) = defaults (routes h).
Proof.
  intros Hdst. unfold routeAdd. case_match; [done|]. cbn.
  rewrite defaults_app. unfold defaults at 2. rewrite filter_cons, decide_False by done.
  cbn. by rewrite app_nil_r.
Qed.

Lemma routeDel_other dst sel h : dst ≠ "default" →
  defaults (routes (routeDel dst sel h).1) = defaults (routes h).
Proof.
  intros Hdst. unfold routeDel. case_match eqn:Hrm; [|done]. cbn.
  by apply removeFirst_other in Hrm.
Qed.

Lemma ipCommand_other args h :
  args !! 0 ≠ Some "route" ∨ args !! 2 ≠ Some "default" →
  defaults (routes (ipCommand args h).1) = defaults (routes h).
Proof.
  intros Hargs. unfold ipCommand, routeShow.
  destruct args as [|obj [|verb rest]]; [done..|].
  case_decide as Hobj.
  - subst obj. destruct Hargs as [Hargs|Hargs]; [done|].
    destruct rest as [|dst opts]; [done|]. cbn in Hargs.
    assert (dst ≠ "default") by congruence.
    repeat (case_decide || case_match); rewrite ?routeAdd_other, ?routeDel_other; done.
  - repeat (case_decide || case_match); done.
Qed.

Lemma iptablesCommand_routes args h : routes (iptablesCommand args h).1 = routes h.
Proof.
  unfold iptablesCommand, iptablesIn. repeat (case_match || case_decide); done.
Qed.

Lemma sysctlCommand_routes args h : routes (sysctlCommand args h).1 = routes h.
Proof. unfold sysctlCommand. repeat case_decide; done. Qed.

(** Commands other than [ip route ... default ...] keep the default
    routes. *)
Lemma exec_other argv h w' out err :
  env_exec argv h = (w', (out, err)) →
  argv !! 1 ≠ Some "route" ∨ argv !! 3 ≠ Some "default" →
  defaults (routes w') = defaults (routes h).
Proof.
  intros Hexec Hargv. apply (f_equal (λ x, defaults (routes x.1))) in Hexec.
  cbn [fst] in Hexec. rewrite <- Hexec. cbn [env_exec env]. unfold exec.
  destruct argv as [|prog args]; [done|].
  repeat case_decide;
    rewrite ?ipCommand_other, ?iptablesCommand_routes, ?sysctlCommand_routes; done.
Qed.

Lemma removeFirst_all_false (p : route → bool) l :
  Forall (λ r, p r = false) l → removeFirst p l = None.
Proof.
  induction 1 as [|r l Hr _ IH]; cbn [removeFirst]; [done|]. by rewrite Hr, IH.
Qed.

Lemma defaults_elem r rs : r ∈ defaults rs ↔ r ∈ rs ∧ rt_dst r = "default".
Proof. unfold defaults. rewrite list_elem_of_filter. tauto. Qed.

Lemma routeDel_default_ok sel h w' out :
  routeDel "default" sel h = (w', (out, None)) →
  removeFirst (selects "default" sel) (defaults (routes h)) = Some (defaults (routes w')).
Proof. intros Hdel. by apply removeFirst_defaults, routeDel_ok with out. Qed.

(** A delete that finds a default route to delete succeeds. *)
Lemma routeDel_default_run sel h D' :
  removeFirst (selects "default" sel) (defaults (routes h)) = Some D' →
  ∃ w', routeDel "default" sel h = (w', ("", None)) ∧ defaults (routes w') = D'.
Proof.
  intros HD. destruct (routeDel "default" sel h) as [w' [out [e|]]] eqn:Hdel.
  - apply routeDel_err in Hdel as [_ Hnone]. exfalso.
    assert (Hnone' : Forall (λ r, selects "default" sel r = false) (defaults (routes h))).
    { apply Forall_forall. intros r [Hr _]%defaults_elem. by eapply Forall_forall in Hnone. }
    by rewrite (removeFirst_all_false _ _ Hnone') in HD.
  - pose proof Hdel as Hout. unfold routeDel in Hout.
    destruct (removeFirst _ (routes h)); [|done]. injection Hout as _ <-.
    apply routeDel_default_ok in Hdel. exists w'. split; [done|]. congruence.
Qed.

Lemma routeAdd_default_ok sel h w' out :
  routeAdd "default" sel h = (w', (out, None)) →
  defaults (routes w') = defaults (routes h) ++ [routeOf "default" sel]
  ∧ Forall (λ r, rt_metric r ≠ default 0%N (s_metric sel)) (defaults (routes h)).
Proof.
  intros [Hroutes Hfresh]%routeAdd_ok. split.
  - by rewrite Hroutes, defaults_app.
  - apply Forall_forall. intros r [Hr Hd]%defaults_elem Hm.
    eapply Forall_forall in Hfresh; [|done]. by apply Hfresh.
Qed.

(** An add at a metric no default route has succeeds. *)
Lemma routeAdd_default_run sel h :
  Forall (λ r, rt_metric r ≠ default 0%N (s_metric sel)) (defaults (routes h)) →
  ∃ w', routeAdd "default" sel h = (w', ("", None))
        ∧ defaults (routes w') = defaults (routes h) ++ [routeOf "default" sel].
Proof.
  intros Hfresh. destruct (routeAdd "default" sel h) as [w' [out [e|]]] eqn:Hadd.
  - apply routeAdd_err in Hadd as [_ Hex]. exfalso.
    apply Exists_exists in Hex as (r & Hr & Hd & Hm).
    eapply Forall_forall in Hfresh; [by apply Hfresh|]. by apply defaults_elem.
  - pose proof Hadd as Hout. unfold routeAdd in Hout. case_match; [done|].
    injection Hout as _ <-. apply routeAdd_default_ok in Hadd as [HD _]. by exists w'.
Qed.

Ltac rift_facts :=
  repeat match goal with
  | H : env_exec ["ip"; "route"; "del"; "default"; "via"; _; "dev"; _] _ = (_, (_, None)) |- _ =>
      rewrite exec_del_default_via in H; apply routeDel_default_ok in H
  | H : env_exec ["ip"; "route"; "add"; "default"; "via"; _; "dev"; _; "metric"; "50"] _
        = (_, (_, None)) |- _ =>
      rewrite exec_add_default_metric50 in H; apply routeAdd_default_ok in H as [? ?]
  | H : env_exec ["ip"; "route"; "add"; "default"; "dev"; "veilnet"] _ = (_, (_, None)) |- _ =>
      rewrite exec_add_default_tun in H; apply routeAdd_default_ok in H as [? ?]
  | H : env_exec _ _ = (_, (_, _)) |- _ =>
      apply exec_other in H; [|by (cbn; first [left; done | right; congruence])]
  end.

Ltac rewrite_defaults :=
  repeat match goal with
  | H : defaults (routes ?w') = _ |- _ => rewrite H in *; clear H
  end.

Lemma ConfigHost_rift (c : conflux) (h : host) (ip netmask : string) a :
  portal c = false → anchor c = Some a → veilHost a ≠ "default" →
  resultOf (Linux.ConfigHost ip netmask c h) = Val None →
  ∃ D1,
    removeFirst (selects "default" (viaDev (gateway c) (iface c) None)) (defaults (routes h))
    = Some D1
    ∧ defaults (routes (worldOf (Linux.ConfigHost ip netmask c h)))
      = D1 ++ [demoted c; throughTun]
    ∧ Forall (λ r, rt_metric r ≠ 0%N) D1
    ∧ selfOf (Linux.ConfigHost ip netmask c h) = c.
Proof.
  intros Hportal Ha Hvh. unfold Linux.ConfigHost, Linux.GetVeilHost, Linux.orReturn.
  unfold_commands. rewrite Ha. unfold_commands. rewrite Hportal.
  case_decide; unfold_commands; repeat (next_command; unfold_commands).
  all: try (intros Hres; by cbn in Hres).
  all: intros _; rift_facts; cbn [selfOf worldOf fst snd].
  all: rewrite_defaults.
  all: match goal with
       | Hdel : removeFirst _ _ = Some ?D1, Hfresh : Forall _ (?D1 ++ _) |- _ =>
           exists D1; split; [done|]; split; [by rewrite <- (assoc_L (++))|];
           split; [|done]; by apply Forall_app in Hfresh as [Hfresh _]
       end.
Qed.

(** Teardown in Rift mode on a host whose default routes are those
    apply leaves behind. *)
Lemma CleanHostConfiguraions_rift (c : conflux) (h : host) a D1 :
  portal c = false → anchor c = Some a → veilHost a ≠ "default" →
  iface c ≠ "veilnet" →
  defaults (routes h) = D1 ++ [demoted c; throughTun] →
  Forall (λ r, selects "default" (viaDev (gateway c) (iface c) None) r = false) D1 →
  Forall (λ r, rt_dev r ≠ "veilnet") D1 →
  Forall (λ r, rt_metric r ≠ 0%N) D1 →
  resultOf (Linux.CleanHostConfiguraions c h) = Val tt
  ∧ defaults (routes (worldOf (Linux.CleanHostConfiguraions c h))) = D1 ++ [restored c].
Proof.
  intros Hportal Ha Hvh Hifc HD Hunique Htun Hmetric.
  assert (Hstep : ∀ w : host,
    defaults (routes w) = D1 ++ [demoted c; throughTun] →
    ∃ w1 w2 w3,
      env_exec ["ip"; "route"; "del"; "default"; "dev"; "veilnet"] w = (w1, ("", None))
      ∧ env_exec ["ip"; "route"; "del"; "default"; "via"; gateway c; "dev"; iface c] w1
        = (w2, ("", None))
      ∧ env_exec ["ip"; "route"; "add"; "default"; "via"; gateway c; "dev"; iface c] w2
        = (w3, ("", None))
      ∧ defaults (routes w3) = D1 ++ [restored c]).
  { intros w Hw.
    destruct (routeDel_default_run (onDev "veilnet") w (D1 ++ [demoted c])) as (w1 & Hw1 & HD1).
    { rewrite Hw. change (D1 ++ [demoted c; throughTun])
        with (D1 ++ [demoted c] ++ throughTun :: []).
      rewrite (assoc_L (++)). rewrite removeFirst_skip; [by rewrite app_nil_r| |done].
      apply Forall_app. split.
      - eapply Forall_impl; [exact Htun|]. intros r Hr. unfold selects. cbn.
        rewrite (bool_decide_eq_false_2 (rt_dev r = "veilnet")) by done.
        by rewrite andb_false_r.
      - constructor; [|constructor]. unfold selects, demoted. cbn.
        by rewrite (bool_decide_eq_false_2 (iface c = "veilnet")). }
    destruct (routeDel_default_run (viaDev (gateway c) (iface c) None) w1 D1)
      as (w2 & Hw2 & HD2).
    { rewrite HD1. rewrite removeFirst_skip; [by rewrite app_nil_r|done|].
      unfold selects, demoted. cbn. by rewrite !bool_decide_eq_true_2. }
    destruct (routeAdd_default_run (viaDev (gateway c) (iface c) None) w2)
      as (w3 & Hw3 & HD3).
    { by rewrite HD2. }
    exists w1, w2, w3. rewrite exec_del_default_tun, exec_del_default_via, exec_add_default_via.
    rewrite HD2 in HD3. done. }
  unfold Linux.CleanHostConfiguraions, Linux.GetVeilHost, Linux.orLog.
  unfold_commands. rewrite Ha. unfold_commands. rewrite Hportal.
  case_decide; unfold_commands.
  - next_command; unfold_commands.
    all: apply exec_other in Hexec; [|right; cbn; congruence].
    all: destruct (Hstep w) as (w1 & w2 & w3 & -> & -> & -> & HD3); [congruence|].
    all: done.
  - destruct (Hstep h HD) as (w1 & w2 & w3 & -> & -> & -> & HD3). done.
Qed.

(** C6, as amended.  On the Linux host model, when the host has one
    default route through the detected gateway and interface and none
    through the virtual interface, a successful Rift-mode [ConfigHost]
    followed by [CleanHostConfiguraions] leaves the other default
    routes as they were and puts back a default route through the
    same gateway and interface at metric 0: the route through the
    virtual interface and the demoted route are gone, and the route is
    the one from before apply when that one had metric 0. *)
Theorem rift_restores_default_route_at_metric_0
    (c : conflux) (h : host) (ip netmask : string) (a : Anchor)
    (pre post : list route) (r0 : route) :
  portal c = false → anchor c = Some a → veilHost a ≠ "default" →
  routes h = pre ++ r0 :: post →
  rt_dst r0 = "default" → rt_via r0 = gateway c → rt_dev r0 = iface c →
  Forall (λ r, ¬ (rt_dst r = "default" ∧ rt_via r = gateway c ∧ rt_dev r = iface c))
         (pre ++ post) →
  Forall (λ r, rt_dst r = "default" → rt_dev r ≠ "veilnet") (routes h) →
  let run1 := Linux.ConfigHost ip netmask c h in
  resultOf run1 = Val None →
  let run2 := Linux.CleanHostConfiguraions (selfOf run1) (worldOf run1) in
  resultOf run2 = Val tt
  ∧ defaults (routes (worldOf run2))
    = defaults (pre ++ post)
      ++ [{| rt_dst := "default"; rt_via := gateway c; rt_dev := iface c; rt_metric := 0 |}]
  ∧ (rt_metric r0 = 0%N → defaults (routes (worldOf run2)) ≡ₚ defaults (routes h)).
Proof.
  intros Hportal Ha Hvh Hroutes Hdst Hvia Hdev Hunique Htun. cbn zeta. intros Hres.
  assert (Hsel : selects "default" (viaDev (gateway c) (iface c) None) r0 = true).
  { unfold selects. cbn. by rewrite !bool_decide_eq_true_2. }
  assert (Hnone : ∀ rs, Forall (λ r, ¬ (rt_dst r = "default" ∧ rt_via r = gateway c
                                        ∧ rt_dev r = iface c)) rs →
            Forall (λ r, selects "default" (viaDev (gateway c) (iface c) None) r = false)
                   (defaults rs)).
  { intros rs Hrs. apply Forall_forall. intros r [Hr Hd]%defaults_elem.
    eapply Forall_forall in Hrs; [|done]. unfold selects. cbn.
    destruct (decide (rt_via r = gateway c)); destruct (decide (rt_dev r = iface c)).
    - exfalso. by apply Hrs.
    - rewrite (bool_decide_eq_false_2 (rt_dev r = iface c)) by done.
      by rewrite andb_false_r.
    - rewrite (bool_decide_eq_false_2 (rt_via r = gateway c)) by done.
      by rewrite andb_false_r.
    - rewrite (bool_decide_eq_false_2 (rt_via r = gateway c)) by done.
      by rewrite andb_false_r. }
  assert (HD0 : defaults (routes h) = defaults pre ++ r0 :: defaults post).
  { rewrite Hroutes, defaults_app. f_equal. unfold defaults. by rewrite filter_cons, decide_True. }
  apply Forall_app in Hunique as [Hpre Hpost].
  destruct (ConfigHost_rift c h ip netmask a Hportal Ha Hvh Hres)
    as (D1 & Hdel & HD & Hmetric & Hself).
  rewrite HD0, removeFirst_skip in Hdel by auto. injection Hdel as <-.
  rewrite <- defaults_app in HD, Hmetric. rewrite Hself.
  destruct (CleanHostConfiguraions_rift c (worldOf (Linux.ConfigHost ip netmask c h)) a
              (defaults (pre ++ post)) Hportal Ha Hvh) as [Hres2 HD2]; try done.
  - rewrite <- Hdev. eapply Forall_forall in Htun; [by apply Htun|].
    rewrite Hroutes. apply elem_of_app. right. left.
  - apply Hnone, Forall_app. by split.
  - apply Forall_forall. intros r [Hr Hd]%defaults_elem.
    eapply Forall_forall in Htun; [by apply Htun|].
    rewrite Hroutes. apply elem_of_app in Hr as [Hr|Hr]; apply elem_of_app; [by left|].
    right. by right.
  - split; [done|]. split; [done|]. intros Hm0.
    assert (Hr0 : {| rt_dst := "default"; rt_via := gateway c; rt_dev := iface c;
                     rt_metric := 0 |} = r0) by (destruct r0; cbn in *; by subst).
    rewrite HD2, HD0, defaults_app, <- (assoc_L (++)).
    apply Permutation_app_head. rewrite <- Permutation_cons_append.
    unfold restored, routeOf. cbn. by rewrite Hr0.
Qed.

End RiftRoutes.

(** C6 fails as stated: the host default route has metric 100 before
    apply; after apply and teardown the default route through the same
    gateway and interface has metric 0. *)
Lemma rift_loses_route_metric :
  let h := sampleHost false 100 in
  let run0 := Linux.DetectHostGateway detectingConflux h in
  let run1 := Linux.ConfigHost "10.1.2.3" "24" (selfOf run0) (worldOf run0) in
  let run2 := Linux.CleanHostConfiguraions (selfOf run1) (worldOf run1) in
  resultOf run0 = Val None
  ∧ resultOf run1 = Val None
  ∧ resultOf run2 = Val tt
  ∧ defaults (LinuxHost.routes h)
    = [{| LinuxHost.rt_dst := "default"; LinuxHost.rt_via := "192.168.1.1";
          LinuxHost.rt_dev := "eth0"; LinuxHost.rt_metric := 100 |}]
  ∧ defaults (LinuxHost.routes (worldOf run2))
    = [{| LinuxHost.rt_dst := "default"; LinuxHost.rt_via := "192.168.1.1";
          LinuxHost.rt_dev := "eth0"; LinuxHost.rt_metric := 0 |}].
Proof. cbn zeta. repeat split; by vm_compute. Qed.

Lemma rift_restores_default_route_at_metric_0_witness :
  resultOf (Linux.ConfigHost "10.1.2.3" "24" runningConflux (sampleHost false 0)) = Val None
  ∧ defaults (LinuxHost.routes (worldOf (Linux.CleanHostConfiguraions
       (selfOf (Linux.ConfigHost "10.1.2.3" "24" runningConflux (sampleHost false 0)))
       (worldOf (Linux.ConfigHost "10.1.2.3" "24" runningConflux (sampleHost false 0))))))
    ≡ₚ defaults (LinuxHost.routes (sampleHost false 0)).
Proof.
  assert (Hres : resultOf (Linux.ConfigHost "10.1.2.3" "24" runningConflux (sampleHost false 0))
                 = Val None) by by vm_compute.
  split; [exact Hres|].
  refine (proj2 (proj2 (rift_restores_default_route_at_metric_0
    runningConflux (sampleHost false 0) "10.1.2.3" "24" {| veilHost := "203.0.113.7" |}
    [] [{| LinuxHost.rt_dst := "192.168.1.0/24"; LinuxHost.rt_via := "";
           LinuxHost.rt_dev := "eth0"; LinuxHost.rt_metric := 0 |}]
    {| LinuxHost.rt_dst := "default"; LinuxHost.rt_via := "192.168.1.1";
       LinuxHost.rt_dev := "eth0"; LinuxHost.rt_metric := 0 |}
    eq_refl eq_refl _ eq_refl eq_refl eq_refl eq_refl _ _ Hres)) eq_refl).
  - done.
  - repeat constructor. by intros (? & _).
  - repeat constructor; by intros ?.
Defined.

(** ** Shutdown, continued *)

(** C8: on Linux the teardown body does not run to completion.  After a
    successful Rift-mode [ConfigHost], the first [Stop] stops the tunnel
    endpoint and panics; no command is run, the default route through
    the virtual interface stays in place, the interface is not closed,
    and a second [Stop] does nothing. *)
Theorem Linux_Stop_leaves_host_configured :
  let run1 := Linux.ConfigHost "10.1.2.3" "24" runningConflux (sampleHost false 0) in
  let run2 := Linux.Stop (selfOf run1) (worldOf run1) in
  let run3 := Linux.Stop (selfOf run2) (worldOf run2) in
  resultOf run1 = Val None
  ∧ resultOf run2 = Panic "invalid memory address or nil pointer dereference"
  ∧ traceOf run2 = [EvAnchorStop]
  ∧ defaults (LinuxHost.routes (worldOf run2))
    = [{| LinuxHost.rt_dst := "default"; LinuxHost.rt_via := "192.168.1.1";
          LinuxHost.rt_dev := "eth0"; LinuxHost.rt_metric := 50 |};
       {| LinuxHost.rt_dst := "default"; LinuxHost.rt_via := "";
          LinuxHost.rt_dev := "veilnet"; LinuxHost.rt_metric := 0 |}]
  ∧ resultOf run3 = Val tt
  ∧ traceOf run3 = [].
Proof. cbn zeta. repeat split; by vm_compute. Qed.

Section DarwinStop.

Context {W : Type} `{!Env W}.

Lemma rangeOver_returns (f : string → string → M W bool) entries (c : conflux) (w : W) :
  (∀ key value c w, ∃ b, resultOf (f key value c w) = Val b ∧ selfOf (f key value c w) = c) →
  resultOf (rangeOver f entries c w) = Val tt ∧ selfOf (rangeOver f entries c w) = c.
Proof.
  intros Hf. revert c w. induction entries as [|[key value] rest IH]; intros c w; [done|].
  cbn [rangeOver]. destruct (Hf key value c w) as (b & Hr & Hc).
  rewrite (run_bind_val _ _ _ _ b) by done. run_simpl. rewrite Hc.
  destruct b; [apply IH|done].
Qed.

Lemma Darwin_RemoveBypassRoutes_returns (c : conflux) (w : W) :
  resultOf (Darwin.RemoveBypassRoutes c w) = Val tt
  ∧ selfOf (Darwin.RemoveBypassRoutes c w) = c.
Proof.
  unfold Darwin.RemoveBypassRoutes. rewrite Range_run. apply rangeOver_returns.
  intros key value c' w'. unfold_commands.
  destruct (env_exec _ w') as [w1 [out [e|]]]; cbn; eauto.
Qed.

Lemma Darwin_CleanHostConfiguraions_returns (c : conflux) (w : W) :
  is_Some (anchor c) →
  resultOf (Darwin.CleanHostConfiguraions c w) = Val tt
  ∧ selfOf (Darwin.CleanHostConfiguraions c w) = c.
Proof.
  intros [a Ha]. unfold Darwin.CleanHostConfiguraions, Darwin.GetVeilHost, Darwin.orLog.
  unfold_commands. rewrite Ha. unfold_commands.
  case_decide; unfold_commands; repeat (next_command; unfold_commands); done.
Qed.

(** X14.  On macOS [Stop] keeps the anchor: the first call runs the
    teardown body once, in order and to the end (stop of the tunnel
    endpoint, retract of the host configuration, removal of the bypass
    routes, close of the interface), whatever the commands return, and
    a later call does nothing. *)
Lemma Darwin_Stop_runs_once (c : conflux) (w : W) :
  once c = false → is_Some (anchor c) →
  let clean := Darwin.CleanHostConfiguraions c w in
  let remove := Darwin.RemoveBypassRoutes c (worldOf clean) in
  let run := Darwin.Stop c w in
  resultOf run = Val tt
  ∧ traceOf run
    = [EvAnchorStop] ++ traceOf clean ++ traceOf remove
      ++ (if device c is Some _ then [EvDeviceClose] else [])
  ∧ traceOf (Darwin.Stop (selfOf run) (worldOf run)) = [].
Proof.
  intros Honce Hanchor. cbn zeta.
  destruct (Darwin_CleanHostConfiguraions_returns c w Hanchor) as [Hr1 Hc1].
  destruct (Darwin_RemoveBypassRoutes_returns c (worldOf (Darwin.CleanHostConfiguraions c w)))
    as [Hr2 Hc2].
  assert (Hbody : Darwin.Stop c w
    = (Val tt, set_once true c,
       worldOf (Darwin.RemoveBypassRoutes c (worldOf (Darwin.CleanHostConfiguraions c w))),
       [EvAnchorStop] ++ traceOf (Darwin.CleanHostConfiguraions c w)
       ++ traceOf (Darwin.RemoveBypassRoutes c (worldOf (Darwin.CleanHostConfiguraions c w)))
       ++ (if device c is Some _ then [EvDeviceClose] else []))).
  { unfold Darwin.Stop, Once_Do. rewrite Honce. destruct Hanchor as [a Ha].
    rewrite (run_bind_val _ _ _ _ tt) by (unfold_commands; by rewrite Ha).
    assert (Hfirst : (bind getSelf (λ c0, if anchor c0 is Some _ then emit EvAnchorStop
                                          else ret tt)) c w
                     = (Val tt, c, w, [EvAnchorStop])).
    { unfold_commands. by rewrite Ha. }
    rewrite Hfirst. run_simpl.
    rewrite (run_bind_val _ _ _ _ tt) by done. rewrite Hc1.
    rewrite (run_bind_val _ _ _ _ tt) by done. rewrite Hc2. run_simpl.
    unfold_commands. by destruct (device c). }
  rewrite Hbody. run_simpl. split; [done|]. split; [done|].
  unfold Darwin.Stop. by rewrite Stop_again.
Qed.

End DarwinStop.

Lemma Darwin_Stop_runs_once_witness :
  let run := Darwin.Stop runningConflux (scripted singleDns []) in
  once runningConflux = false
  ∧ resultOf run = Val tt
  ∧ traceOf (Darwin.Stop (selfOf run) (worldOf run)) = [].
Proof.
  cbn zeta. split; [reflexivity|].
  destruct (Darwin_Stop_runs_once runningConflux (scripted singleDns []) eq_refl
              (mk_is_Some _ _ eq_refl)) as (Hres & _ & Hagain).
  split; [exact Hres | exact Hagain].
Defined.

(** * Further properties

  Properties of the parts of the sources the claims above leave out:
  start-up, host configuration and its teardown seen as a whole, the
  egress loop, the macOS and Windows variants, and registration. *)

(** ** Splitting a CIDR *)

Section SplitFacts.
Import strings.

Lemma Split_not_nil s sep : Split s sep ≠ [].
Proof.
  destruct s as [|c s]; [done|]. cbn [Split].
  destruct (Ascii.eqb c sep); [done|]. by destruct (Split s sep).
Qed.

Lemma Split_length s sep : length (Split s sep) = S (occurrences sep s).
Proof.
  induction s as [|c s IH]; [done|]. cbn [Split occurrences].
  destruct (Ascii.eqb c sep); cbn [length]; [by rewrite IH|].
  destruct (Split s sep) as [|piece pieces]; [by destruct (Split_not_nil s sep)|done].
Qed.

Lemma Split_join s sep : joinWith sep (Split s sep) = s.
Proof.
  induction s as [|c s IH]; [done|]. cbn [Split].
  destruct (Ascii.eqb_spec c sep) as [->|Hne].
  - pose proof (Split_not_nil s sep). cbn [joinWith].
    destruct (Split s sep) as [|piece pieces] eqn:E; [done|]. by rewrite IH.
  - destruct (Split s sep) as [|piece pieces] eqn:E; [by destruct (Split_not_nil s sep)|].
    cbn [joinWith] in *. destruct pieces; [by rewrite IH|]. by rewrite append_cons, IH.
Qed.

Lemma Split_two s sep a b : Split s sep = [a; b] → s = a +:+ String sep b.
Proof. intros E. by rewrite <- (Split_join s sep), E. Qed.
End SplitFacts.

(** ** Host configuration, command by command *)

Section ConfigOutcome.
Context {W : Type} `{!Env W}.
Import LinuxRoutes.

Ltac split_last :=
  lazymatch goal with
  | |- ∃ argv pre, ?l = _ ∧ _ =>
      exists (List.last l ([], None)).1, (removelast l); cbn; split; [reflexivity|]
  end.

Lemma Linux_ConfigHost_outcome (ip netmask : string) (c : conflux) (w : W) (a : Anchor) :
  anchor c = Some a →
  let run := Linux.ConfigHost ip netmask c w in
  (selfOf run = c ∨ ∃ b, selfOf run = set_ipForwardEnabled b c)
  ∧ lookups (traceOf run) = []
  ∧ Forall (λ argv, length argv ≠ 4) (commands (traceOf run))
  ∧ match resultOf run with
    | Val None =>
        ["ip"; "addr"; "add"; ip +:+ "/" +:+ netmask; "dev"; "veilnet"]
        ∈ commands (traceOf run)
        ∧ failures (traceOf run) ⊆ [install (gateway c) (iface c) (veilHost a)]
    | Val (Some e) =>
        ∃ argv pre, execs (traceOf run) = pre ++ [(argv, Some e)]
                    ∧ Forall (λ x, x.2 = None ∨ x.1 = install (gateway c) (iface c) (veilHost a))
                             pre
    | Panic _ => False
    end.
Proof.
  intros Ha. cbn zeta. unfold Linux.ConfigHost, Linux.GetVeilHost, Linux.orReturn.
  unfold_commands. rewrite Ha. unfold_commands.
  destruct (portal c); case_decide; unfold_commands;
    repeat (next_command; unfold_commands).
  all: try match goal with
       | |- context [bool_decide (strings.TrimSpace ?out = "1")] =>
           destruct (bool_decide (strings.TrimSpace out = "1")) eqn:Henabled
       end.
  all: cbn [negb]; unfold_commands; repeat (next_command; unfold_commands).
  all: cbn [selfOf worldOf traceOf resultOf fst snd app].
  all: (split; [first [by left | right; by eexists]|]).
  all: (split; [done|]).
  all: (split; [cbn; by repeat constructor|]).
  all: try (split_last; repeat constructor; cbn; by eauto).
  all: (split; [cbn; elem_solve|]).
  all: cbn; first [done | by apply list_subseteq_nil | idtac].
Qed.
End ConfigOutcome.

(** X6.  [ConfigHost] stops at the first command that fails and returns
    its error: no command is run after it, and every command before it
    succeeded, the command that adds the route to the veil host apart,
    whose outcome is not looked at.  When [ConfigHost] returns no error
    no other command failed.  Of the conflux only the record of the
    forwarding state may change. *)
Theorem Linux_ConfigHost_stops_at_first_failure
    {W} `{!Env W} (ip netmask : string) (c : conflux) (w : W) (a : Anchor) :
  anchor c = Some a →
  let run := Linux.ConfigHost ip netmask c w in
  let veil := LinuxRoutes.install (gateway c) (iface c) (veilHost a) in
  (selfOf run = c ∨ ∃ b, selfOf run = set_ipForwardEnabled b c)
  ∧ match resultOf run with
    | Val None => failures (traceOf run) ⊆ [veil]
    | Val (Some e) =>
        ∃ argv pre, execs (traceOf run) = pre ++ [(argv, Some e)]
                    ∧ Forall (λ x, x.2 = None ∨ x.1 = veil) pre
    | Panic _ => False
    end.
Proof.
  intros Ha. cbn zeta.
  destruct (Linux_ConfigHost_outcome ip netmask c w a Ha) as (Hself & _ & _ & Hout).
  split; [exact Hself|].
  destruct (resultOf (Linux.ConfigHost ip netmask c w)) as [[e|]|msg]; [done| |done].
  by destruct Hout as [_ Hfail].
Qed.

Lemma Linux_ConfigHost_stops_at_first_failure_witness :
  let run := Linux.ConfigHost "10.1.2.3" "24" runningConflux
               (scripted singleDns [["ip"; "addr"; "add"; "10.1.2.3/24"; "dev"; "veilnet"]]) in
  resultOf run = Val (Some "exit status 2")
  ∧ ∃ argv pre, execs (traceOf run) = pre ++ [(argv, Some "exit status 2")]
                ∧ Forall (λ x, x.2 = None
                               ∨ x.1 = LinuxRoutes.install "192.168.1.1" "eth0" "203.0.113.7") pre.
Proof.
  cbn zeta. split; [reflexivity|].
  exact (proj2 (Linux_ConfigHost_stops_at_first_failure "10.1.2.3" "24" runningConflux
    (scripted singleDns [["ip"; "addr"; "add"; "10.1.2.3/24"; "dev"; "veilnet"]])
    {| veilHost := "203.0.113.7" |} eq_refl)).
Defined.

Section Clean.
Context {W : Type} `{!Env W}.

(** X7.  [CleanHostConfiguraions] reads the veil host from the anchor
    before anything else.  Without an anchor, which is how [Stop] of
    this variant calls it after clearing the field, it panics: no
    command is run and nothing changes.  With an anchor in place
    teardown is best-effort: whatever the commands return, every
    command of the list is run, in order, the call returns and leaves
    the conflux as it was.  A failure stops nothing; it is logged,
    except that of the command that removes the route to the veil host,
    which is the first command when there is one. *)
Theorem Linux_CleanHostConfiguraions_needs_anchor (c : conflux) (w : W) :
  let run := Linux.CleanHostConfiguraions c w in
  match anchor c with
  | None =>
      resultOf run = Panic "invalid memory address or nil pointer dereference"
      ∧ selfOf run = c ∧ worldOf run = w ∧ traceOf run = []
  | Some a =>
      let first := if decide (veilHost a ≠ "") then 1 else 0 in
      resultOf run = Val tt
      ∧ selfOf run = c
      ∧ commands (traceOf run) = cleanCommands c a
      ∧ complaints (take first (traceOf run)) = []
      ∧ length (complaints (drop first (traceOf run)))
        = length (failures (drop first (traceOf run)))
  end.
Proof.
  cbn zeta. destruct (anchor c) as [a|] eqn:Ha.
  2:{ unfold Linux.CleanHostConfiguraions, Linux.GetVeilHost. unfold_commands.
      by rewrite Ha. }
  unfold Linux.CleanHostConfiguraions, Linux.GetVeilHost, Linux.orLog.
  unfold cleanCommands. unfold_commands. rewrite Ha. unfold_commands.
  destruct (portal c); [destruct (ipForwardEnabled c)|]; cbn [negb];
    case_decide; unfold_commands; repeat (next_command; unfold_commands).
  all: cbn [selfOf worldOf traceOf resultOf fst snd app].
  all: done.
Qed.
End Clean.

Lemma Linux_CleanHostConfiguraions_needs_anchor_witness :
  let w := scripted singleDns [["ip"; "route"; "del"; "default"; "dev"; "veilnet"]] in
  let run := Linux.CleanHostConfiguraions runningConflux w in
  let bare := Linux.CleanHostConfiguraions (set_anchor None runningConflux) w in
  resultOf run = Val tt
  ∧ commands (traceOf run)
    = [["ip"; "route"; "del"; "203.0.113.7"; "via"; "192.168.1.1"; "dev"; "eth0"];
       ["ip"; "route"; "del"; "default"; "dev"; "veilnet"];
       ["ip"; "route"; "del"; "default"; "via"; "192.168.1.1"; "dev"; "eth0"];
       ["ip"; "route"; "add"; "default"; "via"; "192.168.1.1"; "dev"; "eth0"]]
  ∧ resultOf bare = Panic "invalid memory address or nil pointer dereference"
  ∧ traceOf bare = [].
Proof.
  cbn zeta.
  pose proof (Linux_CleanHostConfiguraions_needs_anchor runningConflux
                (scripted singleDns [["ip"; "route"; "del"; "default"; "dev"; "veilnet"]]))
    as (Hres & _ & Hcommands & _).
  pose proof (Linux_CleanHostConfiguraions_needs_anchor (set_anchor None runningConflux)
                (scripted singleDns [["ip"; "route"; "del"; "default"; "dev"; "veilnet"]]))
    as (Hpanic & _ & _ & Hnone).
  split; [exact Hres|]. split; [exact Hcommands|]. split; [exact Hpanic | exact Hnone].
Defined.

(** ** Start-up *)

Section StartRuns.
Context {W : Type} `{!Env W}.
Import LinuxRoutes.

(** The outcomes of [DetectHostGateway]: one command, no lookup, and
    either an error with the conflux untouched or a gateway and an
    interface, both non-empty, stored. *)
Lemma Linux_DetectHostGateway_run (c : conflux) (w w' : W) (out : string) (err : error) :
  env_exec ["ip"; "route"; "show"; "default"] w = (w', (out, err)) →
  let run := Linux.DetectHostGateway c w in
  worldOf run = w'
  ∧ commands (traceOf run) = [["ip"; "route"; "show"; "default"]]
  ∧ lookups (traceOf run) = []
  ∧ match err, firstDefaultLine out ≫= defaultRouteOf with
    | Some e, _ => resultOf run = Val (Some e) ∧ selfOf run = c
    | None, Some (gw, dev) =>
        resultOf run = Val None ∧ selfOf run = set_route gw dev c ∧ gw ≠ "" ∧ dev ≠ ""
    | None, None =>
        resultOf run = Val (Some "host default gateway or interface not found")
        ∧ selfOf run = c
    end.
Proof.
  intros Hexec. cbn zeta. unfold Linux.DetectHostGateway, bind, Output.
  rewrite Hexec.
  destruct err as [e|]; cbn beta iota; [done|].
  pose proof (scanLines_defaultRouteOf out) as Hscan.
  destruct (firstDefaultLine out ≫= defaultRouteOf) as [[gw dev]|].
  - destruct Hscan as (-> & Hgw & Hdev). by rewrite decide_False by tauto.
  - destruct Hscan as (gw & dev & -> & Hempty). by rewrite decide_True.
Qed.

Lemma Linux_DetectHostGateway_cases (c : conflux) (w : W) :
  let run := Linux.DetectHostGateway c w in
  commands (traceOf run) = [["ip"; "route"; "show"; "default"]]
  ∧ lookups (traceOf run) = []
  ∧ ((∃ e, resultOf run = Val (Some e) ∧ selfOf run = c)
     ∨ (∃ gw dev, resultOf run = Val None ∧ selfOf run = set_route gw dev c
                  ∧ gw ≠ "" ∧ dev ≠ "")).
Proof.
  destruct (env_exec ["ip"; "route"; "show"; "default"] w) as [w' [out err]] eqn:Hexec.
  destruct (Linux_DetectHostGateway_run c w w' out err Hexec) as (_ & Hc & Hl & Hrun).
  split; [done|]. split; [done|].
  destruct err as [e|]; [left; by exists e|].
  destruct (firstDefaultLine out ≫= defaultRouteOf) as [[gw dev]|].
  - right. by exists gw, dev.
  - left. by eexists.
Qed.

Lemma Linux_AddBypassRoutes_run (c : conflux) (w : W) :
  let run := Linux.AddBypassRoutes c w in
  resultOf run = Val tt
  ∧ (lookups (traceOf run)).*1 = Linux.hosts
  ∧ selfOf run
    = set_bypassRoutes (storeAll (resolvedDests (lookups (traceOf run))) (bypassRoutes c)) c
  ∧ commands (traceOf run)
    = install (gateway c) (iface c) <$> (resolvedDests (lookups (traceOf run))).*2.
Proof. rewrite AddBypassRoutes_addAll. apply addAll_run. Qed.


(** [Start] as the sequence of its steps. *)
Lemma Linux_Start_run (ext : startup W) (url token : string) (p : bool)
    (c : conflux) (w : W) :
  let detect := Linux.DetectHostGateway (set_portal p c) w in
  let add := Linux.AddBypassRoutes (selfOf detect) (worldOf detect) in
  let tun := tunCreate ext (worldOf add) in
  let run := Linux.Start ext url token p c w in
  match resultOf detect with
  | Val (Some e) => run = (Val (Some e), selfOf detect, worldOf detect, traceOf detect)
  | Val None =>
      match tun.2 with
      | inr e =>
          run = (Val (Some e), set_device None (selfOf add), tun.1,
                 traceOf detect ++ traceOf add ++ [tunFailed e])
      | inl d =>
          let c3 := set_anchor (Some (anchorNew ext)) (set_device (Some d) (selfOf add)) in
          match anchorStart ext url token p, anchorGetCIDR ext with
          | Some e, _ | None, inr e =>
              run = (Val (Some e), c3, tun.1, traceOf detect ++ traceOf add)
          | None, inl cidr =>
              match strings.Split cidr "/" with
              | [ip; netmask] =>
                  let config := Linux.ConfigHost ip netmask c3 tun.1 in
                  run = (resultOf config, selfOf config, worldOf config,
                         traceOf detect ++ traceOf add ++ traceOf config)
              | _ =>
                  run = (Val (Some ("invalid CIDR format: " +:+ cidr)), c3, tun.1,
                         traceOf detect ++ traceOf add)
              end
          end
      end
  | Panic _ => False
  end.
Proof.
  cbn zeta. remember (Linux.Start ext url token p c w) as run eqn:Hrun.
  destruct (Linux_DetectHostGateway_cases (set_portal p c) w) as (_ & _ & Hdetect).
  unfold Linux.Start in Hrun. unfold bind at 1, modifySelf at 1 in Hrun.
  cbn beta iota in Hrun. unfold bind at 1 in Hrun.
  destruct (Linux.DetectHostGateway (set_portal p c) w) as [[[r1 c1] w1] t1].
  cbn [resultOf selfOf worldOf traceOf fst snd app] in Hdetect, Hrun |- *.
  destruct Hdetect as [(e & -> & ->)|(gw & dev & -> & -> & _)]; unfold ret in Hrun.
  { by rewrite app_nil_r in Hrun. }
  destruct (Linux_AddBypassRoutes_run (set_route gw dev (set_portal p c)) w1) as (Hadd & _).
  unfold bind at 1 in Hrun.
  destruct (Linux.AddBypassRoutes _ w1) as [[[r2 c2] w2] t2].
  cbn [resultOf selfOf worldOf traceOf fst snd app] in Hadd, Hrun |- *. subst r2.
  unfold bind at 1, Linux.CreateTUN at 1 in Hrun.
  destruct (tunCreate ext w2) as [w3 [d|e]]; cbn [fst snd app] in Hrun |- *; [|done].
  unfold Linux.StartAnchor in Hrun. unfold bind at 1 2 3, modifySelf, getSelf in Hrun.
  cbn [anchor set_anchor] in Hrun. unfold ret in Hrun. cbn [app] in Hrun.
  destruct (anchorStart ext url token p) as [e|]; [by rewrite !app_nil_r in Hrun|].
  destruct (anchorGetCIDR ext) as [cidr|e]; [|by rewrite !app_nil_r in Hrun].
  destruct (strings.Split cidr "/") as [|ip [|netmask [|? ?]]];
    try by rewrite !app_nil_r in Hrun.
  unfold bind in Hrun.
  destruct (Linux.ConfigHost ip netmask _ w3) as [[[[[e|]|msg] c4] w4] t4];
    cbn in Hrun |- *; by rewrite ?app_nil_r in Hrun.
Qed.


(** X1.  When the route-inspection command fails, or its output gives
    no gateway and interface, [Start] returns an error at once: that
    command is the only one run, no host name is looked up, and of the
    conflux only the portal flag is set. *)
Theorem Linux_Start_stops_when_detection_fails
    (ext : startup W) (url token : string) (p : bool) (c : conflux)
    (w w' : W) (out : string) (err : error) :
  env_exec ["ip"; "route"; "show"; "default"] w = (w', (out, err)) →
  is_Some err ∨ firstDefaultLine out ≫= defaultRouteOf = None →
  let run := Linux.Start ext url token p c w in
  (∃ e, resultOf run = Val (Some e))
  ∧ selfOf run = set_portal p c
  ∧ worldOf run = w'
  ∧ commands (traceOf run) = [["ip"; "route"; "show"; "default"]]
  ∧ lookups (traceOf run) = [].
Proof.
  intros Hexec Hfail. cbn zeta.
  pose proof (Linux_Start_run ext url token p c w) as Hrun. cbn zeta in Hrun.
  destruct (Linux_DetectHostGateway_run (set_portal p c) w w' out err Hexec)
    as (Hw & Hc & Hl & Hdetect).
  assert (∃ e, resultOf (Linux.DetectHostGateway (set_portal p c) w) = Val (Some e)
               ∧ selfOf (Linux.DetectHostGateway (set_portal p c) w) = set_portal p c)
    as (e & Hr & Hself).
  { destruct err as [e|]; [by exists e|]. destruct Hfail as [[? [=]]|Hnone].
    rewrite Hnone in Hdetect. by eexists. }
  rewrite Hr in Hrun. rewrite Hrun. run_simpl. rewrite Hself, Hw, Hc, Hl.
  split; [by exists e|done].
Qed.


(** X2.  Once the gateway is detected, the interface created and the
    anchor started, [Start] refuses a CIDR that has not exactly one
    slash, with an error that quotes it, and runs no command to
    configure the host. *)
Theorem Linux_Start_rejects_malformed_CIDR
    (ext : startup W) (url token : string) (p : bool) (c : conflux) (w : W)
    (cidr : string) (d : Device) :
  let detect := Linux.DetectHostGateway (set_portal p c) w in
  let add := Linux.AddBypassRoutes (selfOf detect) (worldOf detect) in
  let run := Linux.Start ext url token p c w in
  resultOf detect = Val None →
  (tunCreate ext (worldOf add)).2 = inl d →
  anchorStart ext url token p = None →
  anchorGetCIDR ext = inl cidr →
  occurrences "/" cidr ≠ 1 →
  resultOf run = Val (Some ("invalid CIDR format: " +:+ cidr))
  ∧ traceOf run = traceOf detect ++ traceOf add
  ∧ worldOf run = (tunCreate ext (worldOf add)).1.
Proof.
  cbn zeta. intros Hdetect Htun Hstart Hcidr Hslashes.
  pose proof (Linux_Start_run ext url token p c w) as Hrun. cbn zeta in Hrun.
  rewrite Hdetect, Htun, Hstart, Hcidr in Hrun.
  pose proof (Split_length cidr "/") as Hlen.
  destruct (strings.Split cidr "/") as [|ip [|netmask [|? ?]]]; try by rewrite Hrun.
  cbn in Hlen. lia.
Qed.

(** X3.  When [Start] returns without an error, the conflux holds the
    anchor and the interface, the portal flag asked for and a non-empty
    gateway and interface; the CIDR the anchor reported has exactly one
    slash, and the address put on the virtual interface is that CIDR,
    unchanged. *)
Theorem Linux_Start_success_state
    (ext : startup W) (url token : string) (p : bool) (c : conflux) (w : W) :
  let run := Linux.Start ext url token p c w in
  resultOf run = Val None →
  ∃ cidr d,
    anchorGetCIDR ext = inl cidr
    ∧ occurrences "/" cidr = 1
    ∧ anchorStart ext url token p = None
    ∧ anchor (selfOf run) = Some (anchorNew ext)
    ∧ device (selfOf run) = Some d
    ∧ portal (selfOf run) = p
    ∧ gateway (selfOf run) ≠ "" ∧ iface (selfOf run) ≠ ""
    ∧ ["ip"; "addr"; "add"; cidr; "dev"; "veilnet"] ∈ commands (traceOf run).
Proof.
  cbn zeta. intros Hres.
  pose proof (Linux_Start_run ext url token p c w) as Hrun. cbn zeta in Hrun.
  destruct (Linux_DetectHostGateway_cases (set_portal p c) w) as (_ & _ & Hdetect).
  destruct Hdetect as [(e & Hr & Hc)|(gw & dev & Hr & Hc & Hgw & Hdev)];
    rewrite Hr in Hrun; [by rewrite Hrun in Hres|].
  rewrite Hc in Hrun.
  destruct (Linux_AddBypassRoutes_run (set_route gw dev (set_portal p c))
              (worldOf (Linux.DetectHostGateway (set_portal p c) w)))
    as (_ & _ & Hadd & _).
  rewrite Hadd in Hrun.
  destruct (tunCreate ext _) as [w3 [d|e]]; cbn [fst snd] in Hrun;
    [|by rewrite Hrun in Hres].
  destruct (anchorStart ext url token p) as [e|]; [by rewrite Hrun in Hres|].
  destruct (anchorGetCIDR ext) as [cidr|e]; [|by rewrite Hrun in Hres].
  pose proof (Split_length cidr "/") as Hlen.
  destruct (strings.Split cidr "/") as [|ip [|netmask [|? ?]]] eqn:Hsplit;
    try by rewrite Hrun in Hres.
  apply Split_two in Hsplit. cbn in Hlen.
  match type of Hrun with
  | context [Linux.ConfigHost ip netmask ?c3 w3] =>
      destruct (Linux_ConfigHost_outcome ip netmask c3 w3 (anchorNew ext) eq_refl)
        as (Hself & _ & _ & Hout)
  end.
  rewrite Hrun in Hres |- *. cbn [resultOf selfOf traceOf fst snd] in Hres |- *.
  rewrite Hres in Hout. destruct Hout as [Haddr _].
  exists cidr, d. split; [done|]. split; [lia|]. split; [done|].
  rewrite !commands_app, Hsplit.
  destruct Hself as [-> | [b ->]]; cbn; repeat split; try done.
  all: apply elem_of_app; right; apply elem_of_app; by right.
Qed.

(** X4.  [Start] always returns, and it never runs the command that
    removes a bypass route.  Whatever it returns, also when a later
    step failed: the table is the table it began with after storing, in
    the order of the lookups, each resolved IPv4 address under its host
    name, so that a host with several addresses keeps the last one; and
    for every resolved IPv4 address the command that installs its route
    was issued, whether or not that command succeeded. *)
Theorem Linux_Start_keeps_bypass_routes
    (ext : startup W) (url token : string) (p : bool) (c : conflux) (w : W) :
  let run := Linux.Start ext url token p c w in
  (∃ err, resultOf run = Val err)
  ∧ (∀ dest, delete dest ∉ commands (traceOf run))
  ∧ bypassRoutes (selfOf run)
    = storeAll (resolvedDests (lookups (traceOf run))) (bypassRoutes c)
  ∧ ∀ dest, dest ∈ (resolvedDests (lookups (traceOf run))).*2 →
      install (gateway (selfOf run)) (iface (selfOf run)) dest ∈ commands (traceOf run).
Proof.
  cbn zeta.
  pose proof (Linux_Start_run ext url token p c w) as Hrun. cbn zeta in Hrun.
  destruct (Linux_DetectHostGateway_cases (set_portal p c) w) as (Hc1 & Hl1 & Hdetect).
  assert (Hshow : ∀ dest, delete dest ∉ [["ip"; "route"; "show"; "default"]]).
  { intros dest Hin. elem_cases Hin. }
  destruct Hdetect as [(e & Hr & Hc)|(gw & dev & Hr & Hc & Hgw & Hdev)];
    rewrite Hr in Hrun.
  { rewrite Hrun. run_simpl. rewrite Hc1, Hl1, Hc. cbn.
    split; [by eexists|]. split; [done|]. split; [done|].
    intros dest Hin. by apply elem_of_nil in Hin. }
  rewrite Hc in Hrun.
  destruct (Linux_AddBypassRoutes_run (set_route gw dev (set_portal p c))
              (worldOf (Linux.DetectHostGateway (set_portal p c) w)))
    as (_ & _ & Hadd & Hc2).
  set (add := Linux.AddBypassRoutes _ _) in *.
  cbn [gateway iface bypassRoutes set_route set_portal] in Hc2.
  assert (Hinstalls : ∀ dest, delete dest ∉ commands (traceOf add)).
  { intros dest Hin. rewrite Hc2 in Hin.
    apply list_elem_of_fmap in Hin as (d & [=] & _). }
  assert (Hbase : ∀ c' t,
    bypassRoutes c' = bypassRoutes (selfOf add) → gateway c' = gw → iface c' = dev →
    lookups t = [] → (∀ dest, delete dest ∉ commands t) →
    (∀ dest, delete dest ∉ commands
       (traceOf (Linux.DetectHostGateway (set_portal p c) w) ++ traceOf add ++ t))
    ∧ bypassRoutes c'
      = storeAll (resolvedDests (lookups
          (traceOf (Linux.DetectHostGateway (set_portal p c) w) ++ traceOf add ++ t)))
          (bypassRoutes c)
    ∧ ∀ dest, dest ∈ (resolvedDests (lookups
          (traceOf (Linux.DetectHostGateway (set_portal p c) w) ++ traceOf add ++ t))).*2 →
        install (gateway c') (iface c') dest
        ∈ commands (traceOf (Linux.DetectHostGateway (set_portal p c) w) ++ traceOf add ++ t)).
  { intros c' t Hb Hg Hi Hl Ht. rewrite !lookups_app, !commands_app, Hl1, Hl, Hc1, app_nil_r.
    cbn [app]. rewrite Hb, Hg, Hi, Hadd. split; [|split; [done|]].
    - intros dest [Hin|[Hin|Hin]%elem_of_app]%elem_of_cons; [done| |].
      + by apply (Hinstalls dest).
      + by apply (Ht dest).
    - intros dest Hin. right. apply elem_of_app. left. rewrite Hc2.
      apply list_elem_of_fmap. by exists dest. }
  assert (Hgw' : gateway (selfOf add) = gw) by by rewrite Hadd.
  assert (Hdev' : iface (selfOf add) = dev) by by rewrite Hadd.
  assert (Hnone : ∀ t, commands t = [] → ∀ dest, delete dest ∉ commands t).
  { intros t -> dest Hin. by apply elem_of_nil in Hin. }
  destruct (tunCreate ext _) as [w3 [d|e]]; cbn [fst snd] in Hrun.
  2:{ rewrite Hrun. run_simpl. split; [by eexists|]. apply Hbase; try done. by apply Hnone. }
  destruct (anchorStart ext url token p) as [e|].
  { rewrite Hrun. run_simpl. split; [by eexists|].
    rewrite <- (app_nil_r (traceOf add)). apply Hbase; try done. by apply Hnone. }
  destruct (anchorGetCIDR ext) as [cidr|e].
  2:{ rewrite Hrun. run_simpl. split; [by eexists|].
      rewrite <- (app_nil_r (traceOf add)). apply Hbase; try done. by apply Hnone. }
  destruct (strings.Split cidr "/") as [|ip [|netmask [|? ?]]].
  1,2,4: rewrite Hrun; run_simpl; (split; [by eexists|]);
         rewrite <- (app_nil_r (traceOf add)); apply Hbase; try done; by apply Hnone.
  match type of Hrun with
  | context [Linux.ConfigHost ip netmask ?c3 w3] =>
      destruct (Linux_ConfigHost_outcome ip netmask c3 w3 (anchorNew ext) eq_refl)
        as (Hself & Hl3 & Hlen & Hout)
  end.
  rewrite Hrun. run_simpl. split.
  { destruct (resultOf (Linux.ConfigHost _ _ _ _)) as [err|msg]; [by eexists|done]. }
  apply Hbase; try done.
  - by destruct Hself as [-> | [b ->]].
  - by destruct Hself as [-> | [b ->]].
  - by destruct Hself as [-> | [b ->]].
  - intros dest Hin. rewrite Forall_forall in Hlen. by apply Hlen in Hin.
Qed.

End StartRuns.

Lemma Linux_Start_stops_when_detection_fails_witness :
  firstDefaultLine "" ≫= defaultRouteOf = None
  ∧ commands (traceOf (Linux.Start (sampleStartup "10.1.2.3/24") "https://guardian.veilnet.org"
                         "token" false newConflux (scripted singleDns [])))
    = [["ip"; "route"; "show"; "default"]].
Proof.
  split; [reflexivity|].
  exact (proj1 (proj2 (proj2 (proj2 (Linux_Start_stops_when_detection_fails
    (sampleStartup "10.1.2.3/24") "https://guardian.veilnet.org" "token" false newConflux
    (scripted singleDns []) (scripted singleDns []) "" None eq_refl
    (or_intror eq_refl)))))).
Defined.

Lemma Linux_Start_rejects_malformed_CIDR_witness :
  occurrences "/" "10.1.2.3" ≠ 1
  ∧ resultOf (Linux.Start (sampleStartup "10.1.2.3") "https://guardian.veilnet.org" "token"
                false newConflux (routeOutput oneDefault))
    = Val (Some "invalid CIDR format: 10.1.2.3").
Proof.
  assert (Hslashes : occurrences "/" "10.1.2.3" ≠ 1) by (by vm_compute).
  split; [exact Hslashes|].
  exact (proj1 (Linux_Start_rejects_malformed_CIDR
    (sampleStartup "10.1.2.3") "https://guardian.veilnet.org" "token" false newConflux
    (routeOutput oneDefault) "10.1.2.3" {| batchSize := 3 |}
    eq_refl eq_refl eq_refl eq_refl Hslashes)).
Defined.

Lemma Linux_Start_success_state_witness :
  let run := Linux.Start (sampleStartup "10.1.2.3/24") "https://guardian.veilnet.org" "token"
               false newConflux (routeOutput oneDefault) in
  resultOf run = Val None
  ∧ ∃ cidr d,
      anchorGetCIDR (sampleStartup "10.1.2.3/24") = inl cidr
      ∧ occurrences "/" cidr = 1
      ∧ anchorStart (sampleStartup "10.1.2.3/24") "https://guardian.veilnet.org" "token" false
        = None
      ∧ anchor (selfOf run) = Some (anchorNew (sampleStartup "10.1.2.3/24"))
      ∧ device (selfOf run) = Some d
      ∧ portal (selfOf run) = false
      ∧ gateway (selfOf run) ≠ "" ∧ iface (selfOf run) ≠ ""
      ∧ ["ip"; "addr"; "add"; cidr; "dev"; "veilnet"] ∈ commands (traceOf run).
Proof.
  cbn zeta.
  assert (Hres : resultOf (Linux.Start (sampleStartup "10.1.2.3/24")
                             "https://guardian.veilnet.org" "token" false newConflux
                             (routeOutput oneDefault)) = Val None) by (by vm_compute).
  split; [exact Hres|].
  exact (Linux_Start_success_state (sampleStartup "10.1.2.3/24")
           "https://guardian.veilnet.org" "token" false newConflux
           (routeOutput oneDefault) Hres).
Defined.

(** ** Portal mode on the Linux host model: routes and rules *)

Section PortalHost.
Import LinuxHost.

Lemma removeRule_perm rule rules rules' :
  removeRule rule rules = Some rules' → rules ≡ₚ rule :: rules'.
Proof.
  revert rules'. induction rules as [|r rules IH]; intros rules'; cbn [removeRule]; [done|].
  case_decide as Hr.
  - intros [= <-]. by subst r.
  - destruct (removeRule rule rules) as [rs|]; [|done]. intros [= <-].
    rewrite (IH rs eq_refl). apply perm_swap.
Qed.

Lemma removeRule_elem rule rules : rule ∈ rules → is_Some (removeRule rule rules).
Proof.
  induction rules as [|r rules IH]; [by intros ?%elem_of_nil|].
  intros Hin. cbn [removeRule]. case_decide as Hr; [by eexists|].
  apply elem_of_cons in Hin as [->|Hin]; [done|].
  destruct (IH Hin) as [rs ->]. by eexists.
Qed.

Lemma ipCommand_iptables args h : iptables (ipCommand args h).1 = iptables h.
Proof.
  unfold ipCommand, routeShow, routeAdd, routeDel.
  repeat (case_match || case_decide); done.
Qed.

Lemma sysctlCommand_iptables args h : iptables (sysctlCommand args h).1 = iptables h.
Proof. unfold sysctlCommand. repeat case_decide; done. Qed.

(** Only [iptables] changes the rules. *)
Lemma exec_keeps_iptables argv h w' out err :
  env_exec argv h = (w', (out, err)) → hd "" argv ≠ "iptables" → iptables w' = iptables h.
Proof.
  intros Hexec Hprog. apply (f_equal (λ x, iptables x.1)) in Hexec. cbn [fst] in Hexec.
  rewrite <- Hexec. cbn [env_exec env]. unfold exec.
  destruct argv as [|prog args]; [done|]. cbn [hd] in Hprog.
  repeat case_decide; rewrite ?ipCommand_iptables, ?sysctlCommand_iptables; done.
Qed.

Lemma ipCommand_routes args h :
  args !! 0 ≠ Some "route" → routes (ipCommand args h).1 = routes h.
Proof.
  intros Hargs. unfold ipCommand.
  destruct args as [|obj [|verb rest]]; [done..|]. cbn in Hargs.
  rewrite decide_False by congruence.
  repeat (case_match || case_decide); done.
Qed.

(** Only [ip route] changes the routes. *)
Lemma exec_keeps_routes argv h w' out err :
  env_exec argv h = (w', (out, err)) → argv !! 1 ≠ Some "route" → routes w' = routes h.
Proof.
  intros Hexec Hargv. apply (f_equal (λ x, routes x.1)) in Hexec. cbn [fst] in Hexec.
  rewrite <- Hexec. cbn [env_exec env]. unfold exec.
  destruct argv as [|prog args]; [done|].
  repeat case_decide;
    rewrite ?ipCommand_routes, ?iptablesCommand_routes, ?sysctlCommand_routes; done.
Qed.

Lemma exec_forward_A dir (h : host) :
  env_exec ["iptables"; "-A"; "FORWARD"; dir; "veilnet"; "-j"; "ACCEPT"] h
  = (set_iptables (iptables h ++ [("filter", "FORWARD", [dir; "veilnet"; "-j"; "ACCEPT"])]) h,
     ("", None)).
Proof. reflexivity. Qed.

Lemma exec_masquerade_A ifc (h : host) :
  env_exec ["iptables"; "-t"; "nat"; "-A"; "POSTROUTING"; "-o"; ifc; "-j"; "MASQUERADE"] h
  = (set_iptables (iptables h ++ [masquerade ifc]) h, ("", None)).
Proof. reflexivity. Qed.

Lemma exec_forward_D dir (h : host) rules :
  removeRule ("filter", "FORWARD", [dir; "veilnet"; "-j"; "ACCEPT"]) (iptables h) = Some rules →
  env_exec ["iptables"; "-D"; "FORWARD"; dir; "veilnet"; "-j"; "ACCEPT"] h
  = (set_iptables rules h, ("", None)).
Proof. intros Hrm. cbn. unfold iptablesIn. cbn. by rewrite Hrm. Qed.

Lemma exec_masquerade_D ifc (h : host) rules :
  removeRule (masquerade ifc) (iptables h) = Some rules →
  env_exec ["iptables"; "-t"; "nat"; "-D"; "POSTROUTING"; "-o"; ifc; "-j"; "MASQUERADE"] h
  = (set_iptables rules h, ("", None)).
Proof. intros Hrm. cbn. unfold iptablesIn. cbn. unfold masquerade in Hrm. by rewrite Hrm. Qed.

Lemma exec_add_veil vh gw ifc (h : host) :
  env_exec ["ip"; "route"; "add"; vh; "via"; gw; "dev"; ifc] h
  = routeAdd vh (viaDev gw ifc None) h.
Proof. reflexivity. Qed.

Lemma exec_del_veil vh gw ifc (h : host) :
  env_exec ["ip"; "route"; "del"; vh; "via"; gw; "dev"; ifc] h
  = routeDel vh (viaDev gw ifc None) h.
Proof. reflexivity. Qed.

(** A route to a destination the table has no route to is added at
    the end, and a delete with the same options removes it again. *)
Lemma routeAdd_fresh vh sel (h : host) :
  Forall (λ r, rt_dst r ≠ vh) (routes h) →
  routeAdd vh sel h = (set_routes (routes h ++ [routeOf vh sel]) h, ("", None)).
Proof.
  intros Hfresh. unfold routeAdd.
  destruct (existsb _ (routes h)) eqn:Hex; [|done].
  apply existsb_exists in Hex as (r & Hr & Hd).
  apply bool_decide_eq_true in Hd as [Hd _]. apply list_elem_of_In in Hr.
  by eapply Forall_forall in Hfresh.
Qed.

Lemma routeDel_last vh sel (h : host) R :
  Forall (λ r, rt_dst r ≠ vh) R →
  routes h = R ++ [routeOf vh sel] →
  routeDel vh sel h = (set_routes R h, ("", None)).
Proof.
  intros Hfresh Hroutes. unfold routeDel. rewrite Hroutes.
  rewrite removeFirst_skip with (l2 := []).
  - by rewrite app_nil_r.
  - eapply Forall_impl; [exact Hfresh|]. intros r Hr. unfold selects.
    by rewrite (bool_decide_eq_false_2 (rt_dst r = vh)).
  - unfold selects. cbn. rewrite bool_decide_eq_true_2 by done.
    by destruct sel as [[v|] [d|] [m|]]; cbn; rewrite ?bool_decide_eq_true_2.
Qed.

Ltac keep_facts :=
  repeat match goal with
  | H : env_exec ?argv ?h = (?w', (?out, ?err)) |- _ =>
      let Hr := fresh "Hroutes" in
      let Ht := fresh "Hrules" in
      pose proof (exec_keeps_routes _ _ _ _ _ H ltac:(by cbn)) as Hr;
      pose proof (exec_keeps_iptables _ _ _ _ _ H ltac:(by cbn)) as Ht;
      clear H
  end.

Ltac host_step :=
  first [ rewrite exec_sysctl_n | rewrite exec_sysctl_w1 | rewrite exec_sysctl_w0
        | rewrite exec_forward_A | rewrite exec_masquerade_A
        | next_command ];
  unfold_commands.

Lemma ConfigHost_portal_world (c : conflux) (h : host) (ip netmask : string) (a : Anchor) :
  portal c = true → anchor c = Some a →
  Forall (λ r, rt_dst r ≠ veilHost a) (routes h) →
  resultOf (Linux.ConfigHost ip netmask c h) = Val None →
  routes (worldOf (Linux.ConfigHost ip netmask c h)) = routes h ++ veilRoute c a
  ∧ iptables (worldOf (Linux.ConfigHost ip netmask c h))
    = iptables h ++ [forwardIn; forwardOut; masquerade (iface c)].
Proof.
  intros Hportal Ha Hfresh. unfold Linux.ConfigHost, Linux.GetVeilHost, Linux.orReturn.
  unfold veilRoute. unfold_commands. rewrite Ha. unfold_commands. rewrite Hportal.
  case_decide; unfold_commands.
  1: rewrite exec_add_veil, routeAdd_fresh by done; unfold_commands.
  all: repeat host_step.
  all: try (intros Hres; by cbn in Hres).
  all: rewrite ?sysctl_output_enabled.
  all: match goal with |- context [negb (ip_forward ?w)] => destruct (ip_forward w) eqn:Hfw end.
  all: cbn [negb]; unfold_commands; repeat host_step.
  all: try (intros Hres; by cbn in Hres).
  all: intros _; keep_facts.
  all: cbn [selfOf worldOf traceOf resultOf fst snd app routes iptables set_iptables
            set_ip_forward set_routes] in *.
  all: rewrite ?app_nil_r; split; [congruence|].
  all: rewrite <- !(assoc_L (++)); cbn [app]; unfold forwardIn, forwardOut; congruence.
Qed.

Lemma CleanHostConfiguraions_portal_world (c : conflux) (h : host) (a : Anchor)
    (R : list route) (T : list (string * string * list string)) :
  portal c = true → anchor c = Some a →
  Forall (λ r, rt_dst r ≠ veilHost a) R →
  routes h = R ++ veilRoute c a →
  iptables h = T ++ [forwardIn; forwardOut; masquerade (iface c)] →
  routes (worldOf (Linux.CleanHostConfiguraions c h)) = R
  ∧ iptables (worldOf (Linux.CleanHostConfiguraions c h)) ≡ₚ T
  ∧ failures (traceOf (Linux.CleanHostConfiguraions c h)) = [].
Proof.
  intros Hportal Ha Hfresh Hroutes Hrules.
  assert (Hrm : ∀ w : host, iptables w = T ++ [forwardIn; forwardOut; masquerade (iface c)] →
    ∃ l1 l2 l3,
      removeRule forwardIn (iptables w) = Some l1
      ∧ removeRule forwardOut l1 = Some l2
      ∧ removeRule (masquerade (iface c)) l2 = Some l3
      ∧ l3 ≡ₚ T).
  { intros w Hw.
    destruct (removeRule_elem forwardIn (iptables w)) as [l1 Hl1].
    { rewrite Hw. apply elem_of_app. right. elem_solve. }
    pose proof (removeRule_perm _ _ _ Hl1) as Hp1.
    destruct (removeRule_elem forwardOut l1) as [l2 Hl2].
    { assert (Hin : forwardOut ∈ forwardIn :: l1).
      { rewrite <- Hp1, Hw. apply elem_of_app. right. elem_solve. }
      by apply elem_of_cons in Hin as [?|?]. }
    pose proof (removeRule_perm _ _ _ Hl2) as Hp2.
    destruct (removeRule_elem (masquerade (iface c)) l2) as [l3 Hl3].
    { assert (Hin : masquerade (iface c) ∈ forwardIn :: forwardOut :: l2).
      { rewrite <- Hp2, <- Hp1, Hw. apply elem_of_app. right. elem_solve. }
      by apply elem_of_cons in Hin as [?|[?|?]%elem_of_cons]. }
    pose proof (removeRule_perm _ _ _ Hl3) as Hp3.
    exists l1, l2, l3. repeat split; try done.
    rewrite Hw, Hp2, Hp3 in Hp1.
    rewrite (Permutation_app_comm T) in Hp1. cbn [app] in Hp1.
    by do 3 apply Permutation_cons_inv in Hp1. }
  unfold Linux.CleanHostConfiguraions, Linux.GetVeilHost, Linux.orLog.
  unfold veilRoute in Hroutes.
  unfold_commands. rewrite Ha. unfold_commands. rewrite Hportal.
  case_decide; unfold_commands.
  1: rewrite exec_del_veil, (routeDel_last _ _ _ R) by done; unfold_commands.
  all: match goal with
       | |- context [env_exec _ ?w] =>
           destruct (Hrm w) as (l1 & l2 & l3 & Hl1 & Hl2 & Hl3 & Hperm); [done|]
       end.
  all: rewrite (exec_forward_D "-i" _ l1) by done; unfold_commands.
  all: rewrite (exec_forward_D "-o" _ l2) by done; unfold_commands.
  all: rewrite (exec_masquerade_D _ _ l3) by done; unfold_commands.
  all: destruct (ipForwardEnabled c); cbn [negb]; unfold_commands;
       rewrite ?exec_sysctl_w0; unfold_commands.
  all: cbn [selfOf worldOf traceOf resultOf fst snd app routes iptables set_iptables
            set_ip_forward set_routes].
  all: repeat split; try done.
  all: by rewrite Hroutes, ?app_nil_r.
Qed.

(** X8.  On the Linux host model, when the host has no route to the
    veil host, a successful Portal-mode [ConfigHost] followed by
    [CleanHostConfiguraions] leaves the routes that do not go through
    the virtual interface as they were and the iptables rules the same
    up to their order, and no command of the teardown fails.  Nothing
    is said of the routes through the virtual interface: the address
    and the interface itself are left in place by the teardown. *)
Theorem portal_restores_routes_and_rules
    (c : conflux) (h : host) (ip netmask : string) (a : Anchor) :
  portal c = true → anchor c = Some a →
  Forall (λ r, rt_dst r ≠ veilHost a) (routes h) →
  let run1 := Linux.ConfigHost ip netmask c h in
  resultOf run1 = Val None →
  let run2 := Linux.CleanHostConfiguraions (selfOf run1) (worldOf run1) in
  otherRoutes (worldOf run2) = otherRoutes h
  ∧ iptables (worldOf run2) ≡ₚ iptables h
  ∧ failures (traceOf run2) = [].
Proof.
  intros Hportal Ha Hfresh. cbn zeta. intros Hres.
  destruct (ConfigHost_portal c h ip netmask Hportal Hres) as (_ & Hself & _).
  destruct (ConfigHost_portal_world c h ip netmask a Hportal Ha Hfresh Hres)
    as [Hroutes Hrules].
  rewrite Hself.
  destruct (CleanHostConfiguraions_portal_world
              (set_ipForwardEnabled (ip_forward h) c)
              (worldOf (Linux.ConfigHost ip netmask c h)) a (routes h) (iptables h))
    as (Hr & Hi & Hf); try done.
  unfold otherRoutes. by rewrite Hr.
Qed.

End PortalHost.

Lemma portal_restores_routes_and_rules_witness :
  let run1 := Linux.ConfigHost "10.1.2.3" "24" portalConflux (sampleHost false 100) in
  let run2 := Linux.CleanHostConfiguraions (selfOf run1) (worldOf run1) in
  resultOf run1 = Val None
  ∧ otherRoutes (worldOf run2) = otherRoutes (sampleHost false 100)
  ∧ LinuxHost.iptables (worldOf run2) ≡ₚ LinuxHost.iptables (sampleHost false 100).
Proof.
  cbn zeta.
  assert (Hres : resultOf (Linux.ConfigHost "10.1.2.3" "24" portalConflux (sampleHost false 100))
                 = Val None) by (by vm_compute).
  split; [exact Hres|].
  assert (Hfresh : Forall (λ r, LinuxHost.rt_dst r ≠ "203.0.113.7")
                     (LinuxHost.routes (sampleHost false 100))).
  { repeat constructor; by intros ?. }
  destruct (portal_restores_routes_and_rules portalConflux (sampleHost false 100)
              "10.1.2.3" "24" {| veilHost := "203.0.113.7" |} eq_refl eq_refl Hfresh Hres)
    as (Hroutes & Hrules & _).
  by split.
Defined.

(** ** Rift mode on the Linux host model: a failed apply *)

Section RiftFailure.
Import LinuxHost.

Ltac route_facts :=
  repeat match goal with
  | H : env_exec ["ip"; "route"; "del"; "default"; "via"; _; "dev"; _] _ = (_, (_, None)) |- _ =>
      rewrite exec_del_default_via in H; apply routeDel_default_ok in H
  | H : env_exec ["ip"; "route"; "del"; "default"; "via"; _; "dev"; _] _ = (_, (_, Some _)) |- _ =>
      rewrite exec_del_default_via in H; apply routeDel_err in H as [-> _]
  | H : env_exec ["ip"; "route"; "add"; "default"; "via"; _; "dev"; _; "metric"; "50"] _
        = (_, (_, None)) |- _ =>
      rewrite exec_add_default_metric50 in H; apply routeAdd_default_ok in H as [? _]
  | H : env_exec ["ip"; "route"; "add"; "default"; "via"; _; "dev"; _; "metric"; "50"] _
        = (_, (_, Some _)) |- _ =>
      rewrite exec_add_default_metric50 in H; apply routeAdd_err in H as [-> _]
  | H : env_exec ["ip"; "route"; "add"; "default"; "dev"; "veilnet"] _ = (_, (_, None)) |- _ =>
      rewrite exec_add_default_tun in H; apply routeAdd_default_ok in H as [? _]
  | H : env_exec ["ip"; "route"; "add"; "default"; "dev"; "veilnet"] _ = (_, (_, Some _)) |- _ =>
      rewrite exec_add_default_tun in H; apply routeAdd_err in H as [-> _]
  | H : env_exec _ _ = (_, (_, _)) |- _ =>
      apply exec_other in H; [|by (cbn; first [left; done | right; congruence])]
  end.

(** X9.  In Rift mode [ConfigHost] does not undo what it did when a
    later command fails.  On the Linux host model: once the host
    default route has been deleted, a failure to add the demoted route
    or the route through the virtual interface leaves the host without
    its default route (with the demoted one at most), and the error is
    returned. *)
Theorem rift_failed_apply_is_not_rolled_back
    (c : conflux) (h : host) (ip netmask : string) (a : Anchor) (e : string) :
  portal c = false → anchor c = Some a → veilHost a ≠ "default" →
  let run := Linux.ConfigHost ip netmask c h in
  resultOf run = Val (Some e) →
  (["ip"; "route"; "del"; "default"; "via"; gateway c; "dev"; iface c], None)
  ∈ execs (traceOf run) →
  ∃ D1,
    removeFirst (selects "default" (viaDev (gateway c) (iface c) None)) (defaults (routes h))
    = Some D1
    ∧ (defaults (routes (worldOf run)) = D1
       ∨ defaults (routes (worldOf run)) = D1 ++ [demoted c])
    ∧ ∃ argv, last (execs (traceOf run)) = Some (argv, Some e)
              ∧ argv !! 2 = Some "add" ∧ argv !! 3 = Some "default".
Proof.
  intros Hportal Ha Hvh. cbn zeta.
  unfold Linux.ConfigHost, Linux.GetVeilHost, Linux.orReturn.
  unfold_commands. rewrite Ha. unfold_commands. rewrite Hportal.
  case_decide; unfold_commands; repeat (next_command; unfold_commands).
  all: cbn [selfOf worldOf traceOf resultOf fst snd app].
  all: intros Hres Hdel; try done.
  all: cbn in Hdel; try (elem_cases Hdel; fail).
  all: clear Hdel; injection Hres as <-.
  all: route_facts.
  all: repeat match goal with
       | H : defaults (routes ?w') = _ |- _ => rewrite H in *; clear H
       end.
  all: match goal with
       | Hrm : removeFirst _ _ = Some ?D1 |- _ => exists D1; split; [exact Hrm|]
       end.
  all: (split; [first [by left | by right]|]).
  all: by eexists.
Qed.
End RiftFailure.

Lemma rift_failed_apply_is_not_rolled_back_witness :
  let run := Linux.ConfigHost "10.1.2.3" "24" runningConflux crowdedHost in
  resultOf run = Val (Some "exit status 2")
  ∧ defaults (LinuxHost.routes crowdedHost)
    = [{| LinuxHost.rt_dst := "default"; LinuxHost.rt_via := "192.168.1.1";
          LinuxHost.rt_dev := "eth0"; LinuxHost.rt_metric := 0 |};
       {| LinuxHost.rt_dst := "default"; LinuxHost.rt_via := "192.168.1.254";
          LinuxHost.rt_dev := "eth0"; LinuxHost.rt_metric := 50 |}]
  ∧ ∃ D1,
      LinuxHost.removeFirst
        (LinuxHost.selects "default" (viaDev "192.168.1.1" "eth0" None))
        (defaults (LinuxHost.routes crowdedHost)) = Some D1
      ∧ (defaults (LinuxHost.routes (worldOf run)) = D1
         ∨ defaults (LinuxHost.routes (worldOf run)) = D1 ++ [demoted runningConflux])
      ∧ ∃ argv, last (execs (traceOf run)) = Some (argv, Some "exit status 2")
                ∧ argv !! 2 = Some "add" ∧ argv !! 3 = Some "default".
Proof.
  cbn zeta.
  assert (Hres : resultOf (Linux.ConfigHost "10.1.2.3" "24" runningConflux crowdedHost)
                 = Val (Some "exit status 2")) by (by vm_compute).
  split; [exact Hres|]. split; [reflexivity|].
  refine (rift_failed_apply_is_not_rolled_back runningConflux crowdedHost "10.1.2.3" "24"
            {| veilHost := "203.0.113.7" |} "exit status 2" eq_refl eq_refl _ Hres _).
  - done.
  - vm_compute. elem_solve.
Defined.

(** ** The table of bypass routes *)

Section LastAddress.
Context {W : Type} `{!Env W}.

Lemma valuesFor_app key e1 e2 : valuesFor key (e1 ++ e2) = valuesFor key e1 ++ valuesFor key e2.
Proof. apply omap_app. Qed.

Lemma valuesFor_other key entries : key ∉ entries.*1 → valuesFor key entries = [].
Proof.
  induction entries as [|[k v] entries IH]; [done|]. cbn [fmap list_fmap fst].
  intros [Hk Hrest]%not_elem_of_cons. cbn. rewrite decide_False by done. by apply IH.
Qed.

Lemma valuesFor_same key (dests : list string) :
  valuesFor key ((λ dest, (key, dest)) <$> dests) = dests.
Proof. induction dests as [|d ds IH]; [done|]. cbn. rewrite decide_True by done. by f_equal. Qed.

Lemma storeAll_lookup entries (m : gmap string string) key :
  storeAll entries m !! key = from_option Some (m !! key) (lastFor key entries).
Proof.
  revert m. induction entries as [|[k v] entries IH] using rev_ind; intros m; [done|].
  rewrite storeAll_snoc. unfold lastFor. rewrite valuesFor_app. cbn [valuesFor omap list_omap].
  case_decide as Hk.
  - subst k. rewrite last_snoc. cbn. apply lookup_insert_eq.
  - rewrite app_nil_r. rewrite lookup_insert_ne by done. apply IH.
Qed.

Lemma valuesFor_resolvedDests host answer resolved :
  NoDup resolved.*1 → (host, answer) ∈ resolved →
  valuesFor host (resolvedDests resolved)
  = match answer with inl ips => ipv4Dests ips | inr _ => [] end.
Proof.
  intros Hnd Hin.
  induction resolved as [|[h ans] rs IH]; [by apply elem_of_nil in Hin|].
  cbn [fmap list_fmap fst] in Hnd. apply NoDup_cons in Hnd as [Hfresh Hnd].
  change ((h, ans) :: rs) with ([(h, ans)] ++ rs). rewrite resolvedDests_app, valuesFor_app.
  assert (Hone : resolvedDests [(h, ans)]
                 = match ans with
                   | inl ips => (λ dest, (h, dest)) <$> ipv4Dests ips
                   | inr _ => []
                   end).
  { unfold resolvedDests. cbn [mbind list_bind]. by rewrite app_nil_r. }
  rewrite Hone.
  apply elem_of_cons in Hin as [[= Hh Hans]|Hin].
  - destruct Hh, Hans. rewrite (valuesFor_other host (resolvedDests rs)).
    + rewrite app_nil_r. destruct answer; [apply valuesFor_same|done].
    + intros Hx. by apply Hfresh, resolvedDests_keys.
  - rewrite (IH Hnd Hin). rewrite valuesFor_other; [done|].
    intros Hx. apply Hfresh.
    destruct ans as [ips|e]; [|by apply elem_of_nil in Hx].
    apply list_elem_of_fmap in Hx as ([k v] & -> & Hx).
    apply list_elem_of_fmap in Hx as (d & [= -> ->] & _).
    apply list_elem_of_fmap. by exists (h, answer).
Qed.

(** X5.  After [AddBypassRoutes] the table holds, for each host of the
    list, the last IPv4 address the resolver gave for it; a host that
    did not resolve, or has no IPv4 address, keeps the entry it had,
    and no other entry is touched. *)
Theorem AddBypassRoutes_keeps_last_address (c : conflux) (w : W) :
  let run := Linux.AddBypassRoutes c w in
  (∀ host, host ∈ Linux.hosts → ∃ answer, (host, answer) ∈ lookups (traceOf run))
  ∧ (∀ host answer, (host, answer) ∈ lookups (traceOf run) →
       bypassRoutes (selfOf run) !! host
       = match answer with
         | inl ips => from_option Some (bypassRoutes c !! host) (last (ipv4Dests ips))
         | inr _ => bypassRoutes c !! host
         end)
  ∧ (∀ key, key ∉ Linux.hosts → bypassRoutes (selfOf run) !! key = bypassRoutes c !! key).
Proof.
  cbn zeta. destruct (Linux_AddBypassRoutes_run c w) as (_ & Hhosts & Hself & _).
  rewrite Hself. cbn [bypassRoutes set_bypassRoutes].
  set (resolved := lookups (traceOf (Linux.AddBypassRoutes c w))) in *.
  split; [|split].
  - intros host Hin. rewrite <- Hhosts in Hin.
    apply list_elem_of_fmap in Hin as ([h answer] & -> & Hin). by exists answer.
  - intros host answer Hin. rewrite storeAll_lookup. unfold lastFor.
    rewrite (valuesFor_resolvedDests host answer); [by destruct answer| |done].
    rewrite Hhosts. apply Linux_hosts_distinct.
  - intros key Hkey. rewrite storeAll_lookup. unfold lastFor.
    rewrite valuesFor_other; [done|]. intros Hx. apply Hkey. rewrite <- Hhosts.
    by apply resolvedDests_keys.
Qed.
End LastAddress.

(** ** Packet relay: egress, and the macOS loops *)

Lemma sliceTo_take {A} (l : list A) (n : Z) :
  (0 ≤ n ≤ Z.of_nat (length l))%Z → sliceTo l n = Some (take (Z.to_nat n) l).
Proof. intros Hn. unfold sliceTo. by rewrite decide_True. Qed.

Lemma forwarded_app t1 t2 : forwarded (t1 ++ t2) = forwarded t1 ++ forwarded t2.
Proof. apply omap_app. Qed.

Lemma Linux_egressLoop_forwards (turns : list Linux.egressTurn) :
  Forall LinuxEgress.inRange turns →
  (Linux.egressLoop turns).1 = Val tt
  ∧ forwarded (Linux.egressLoop turns).2
    = omap LinuxEgress.read (LinuxEgress.untilDone turns).
Proof.
  induction 1 as [|turn turns Hturn _ IH]; [done|].
  destruct turn as [| |bufs sizes n]; cbn [Linux.egressLoop LinuxEgress.untilDone]; [done..|].
  destruct Hturn as [Hbufs Hsizes].
  rewrite !sliceTo_take by lia.
  destruct (Linux.egressLoop turns) as [r t]. destruct IH as [Hr Ht].
  cbn in Hr, Ht |- *. by rewrite Hr, Ht.
Qed.

(** X10.  With the interface and the tunnel endpoint in place, the egress
    loop hands every batch it reads from the interface to the tunnel
    endpoint: the first [n] buffers with the first [n] sizes, as read
    (no header is added or removed), an empty batch included, until the
    context is done; a read that fails hands on nothing.  When the MTU
    of the interface cannot be read the loop runs all the same, after
    one logged error. *)
Theorem Linux_egress_forwards_every_batch
    (c : conflux) (mtu : Z + string) (turns : list Linux.egressTurn) :
  is_Some (device c) → is_Some (anchor c) →
  (∀ m, mtu = inl m → (0 ≤ m)%Z) →
  Forall LinuxEgress.inRange turns →
  let run := Linux.egress c mtu turns in
  run.1 = Val tt
  ∧ forwarded run.2 = omap LinuxEgress.read (LinuxEgress.untilDone turns)
  ∧ (∀ bufs sizes, (bufs, sizes) ∈ forwarded run.2 → length bufs = length sizes)
  ∧ (∀ e, mtu = inr e →
       head run.2 = Some (EgLog ErrorLevel ("failed to get TUN MTU: " +:+ e))).
Proof.
  intros [d Hd] [a Ha] Hmtu Hturns. cbn zeta. unfold Linux.egress, egressBuffers.
  rewrite Hd, Ha.
  destruct (Linux_egressLoop_forwards turns Hturns) as [Hr Ht].
  assert (Hlen : ∀ bufs sizes,
            (bufs, sizes) ∈ omap LinuxEgress.read (LinuxEgress.untilDone turns) →
            length bufs = length sizes).
  { clear Hr Ht. induction Hturns as [|turn turns Hturn _ IH]; intros bufs sizes Hin.
    { by apply elem_of_nil in Hin. }
    destruct turn as [| |bufs' sizes' n]; cbn in Hin; [by apply elem_of_nil in Hin|by apply IH|].
    apply elem_of_cons in Hin as [[= -> ->]|Hin]; [|by apply IH].
    destruct Hturn. rewrite !length_take. lia. }
  destruct (Linux.egressLoop turns) as [r t]. cbn in Hr, Ht. subst r.
  destruct mtu as [m|e].
  - rewrite decide_False by (specialize (Hmtu m eq_refl); lia). cbn.
    rewrite Ht. repeat split; [done|]. by intros e [=].
  - rewrite decide_False by lia. cbn. rewrite Ht.
    repeat split; [done|]. by intros e' [= ->].
Qed.

Lemma Linux_egress_forwards_every_batch_witness :
  let run := Linux.egress runningConflux (inr "no such device") sampleReads in
  Forall LinuxEgress.inRange sampleReads
  ∧ run.1 = Val tt
  ∧ forwarded run.2 = [([[x45; x00]; [x60]], [2; 1]%Z); ([], [])].
Proof.
  cbn zeta.
  assert (Hturns : Forall LinuxEgress.inRange sampleReads).
  { repeat constructor; cbn; lia. }
  split; [exact Hturns|].
  destruct (Linux_egress_forwards_every_batch runningConflux (inr "no such device") sampleReads
              (mk_is_Some _ _ eq_refl) (mk_is_Some _ _ eq_refl)
              (λ m H, match H in _ = x return (if x is inr _ then True else (0 ≤ m)%Z) with
                      | eq_refl => I end) Hturns) as (Hres & Hforwarded & _).
  split; [exact Hres | exact Hforwarded].
Defined.

Lemma Darwin_egressLoop_forwards (turns : list Darwin.egressTurn) :
  Forall DarwinEgress.inRange turns →
  (Darwin.egressLoop turns).1 = Val tt
  ∧ forwarded (Darwin.egressLoop turns).2
    = filter (λ batch, batch.1 ≠ [])
        (omap DarwinEgress.read (DarwinEgress.untilDone turns)).
Proof.
  induction 1 as [|turn turns Hturn _ IH]; [done|].
  destruct turn as [| |bufs sizes n]; cbn [Darwin.egressLoop DarwinEgress.untilDone]; [done..|].
  destruct Hturn as [Hbufs Hsizes].
  cbn [omap list_omap DarwinEgress.read]. rewrite filter_cons. cbn [fst].
  case_decide as Hn.
  - rewrite !sliceTo_take by lia.
    destruct (Darwin.egressLoop turns) as [r t]. destruct IH as [Hr Ht].
    cbn in Hr, Ht |- *. rewrite Hr, Ht. split; [done|].
    rewrite decide_True; [done|].
    intros Hnil%(f_equal length). rewrite length_take in Hnil. cbn in Hnil. lia.
  - assert (n = 0%Z) as -> by lia. change (Z.to_nat 0) with 0%nat.
    rewrite take_0. by rewrite decide_False by (by intros ?).
Qed.

(** X13.  On macOS the egress loop hands on the batches it reads in the
    same way, except that an empty batch is not handed to the tunnel
    endpoint. *)
Theorem Darwin_egress_skips_empty_batches
    (c : conflux) (mtu : Z + string) (turns : list Darwin.egressTurn) :
  is_Some (device c) → is_Some (anchor c) →
  (∀ m, mtu = inl m → (0 ≤ m)%Z) →
  Forall DarwinEgress.inRange turns →
  let run := Darwin.egress c mtu turns in
  run.1 = Val tt
  ∧ forwarded run.2
    = filter (λ batch, batch.1 ≠ [])
        (omap DarwinEgress.read (DarwinEgress.untilDone turns))
  ∧ ∀ bufs sizes, (bufs, sizes) ∈ forwarded run.2 →
      bufs ≠ [] ∧ length bufs = length sizes.
Proof.
  intros [d Hd] [a Ha] Hmtu Hturns. cbn zeta. unfold Darwin.egress, egressBuffers.
  rewrite Hd, Ha.
  destruct (Darwin_egressLoop_forwards turns Hturns) as [Hr Ht].
  assert (Hlen : ∀ bufs sizes,
            (bufs, sizes) ∈ omap DarwinEgress.read (DarwinEgress.untilDone turns) →
            length bufs = length sizes).
  { clear Hr Ht. induction Hturns as [|turn turns Hturn _ IH]; intros bufs sizes Hin.
    { by apply elem_of_nil in Hin. }
    destruct turn as [| |bufs' sizes' n]; cbn in Hin; [by apply elem_of_nil in Hin|by apply IH|].
    apply elem_of_cons in Hin as [[= -> ->]|Hin]; [|by apply IH].
    destruct Hturn. rewrite !length_take. lia. }
  destruct (Darwin.egressLoop turns) as [r t]. cbn [fst snd] in Hr, Ht. subst r.
  assert (Hall : ∀ logged, forwarded logged = [] →
            forwarded (logged ++ t)
            = filter (λ batch, batch.1 ≠ [])
                (omap DarwinEgress.read (DarwinEgress.untilDone turns))
            ∧ ∀ bufs sizes, (bufs, sizes) ∈ forwarded (logged ++ t) →
                bufs ≠ [] ∧ length bufs = length sizes).
  { intros logged Hlogged. rewrite forwarded_app, Hlogged, Ht. split; [done|].
    intros bufs sizes [Hne Hin]%list_elem_of_filter. split; [done|by apply Hlen]. }
  destruct mtu as [m|e].
  - rewrite decide_False by (specialize (Hmtu m eq_refl); lia). cbn [fst snd].
    split; [done|]. by apply Hall.
  - rewrite decide_False by lia. cbn [fst snd]. split; [done|]. by apply Hall.
Qed.

Lemma Darwin_egress_skips_empty_batches_witness :
  let run := Darwin.egress runningConflux (inl 1500%Z) sampleDarwinReads in
  Forall DarwinEgress.inRange sampleDarwinReads
  ∧ run.1 = Val tt
  ∧ forwarded run.2 = [([[x45; x00]; [x60]], [2; 1]%Z)].
Proof.
  cbn zeta.
  assert (Hturns : Forall DarwinEgress.inRange sampleDarwinReads).
  { repeat constructor; cbn; lia. }
  split; [exact Hturns|].
  assert (Hmtu : ∀ m, @inl Z string 1500%Z = inl m → (0 ≤ m)%Z).
  { intros m [= <-]. lia. }
  destruct (Darwin_egress_skips_empty_batches runningConflux (inl 1500%Z) sampleDarwinReads
              (mk_is_Some _ _ eq_refl) (mk_is_Some _ _ eq_refl) Hmtu Hturns)
    as (Hres & Hforwarded & _).
  split; [exact Hres | exact Hforwarded].
Defined.

(** X12.  On macOS, with the interface and the tunnel endpoint in place,
    the ingress loop frames the datagrams it reads as on Linux (16
    reserved bytes, offset 16), but writes nothing to the interface for
    a read that returned no datagram. *)
Theorem Darwin_ingress_skips_empty_batches
    {W} `{!Env W} (turns : list Darwin.ingressTurn) (c : conflux) (w : W) :
  is_Some (device c) → is_Some (anchor c) →
  Forall DarwinIngress.inRange turns →
  let run := Darwin.ingress turns c w in
  resultOf run = Val tt
  ∧ writes (traceOf run)
    = (λ datagrams, (framed <$> datagrams, 16%Z))
      <$> filter (λ datagrams, datagrams ≠ [])
            (omap DarwinIngress.received (DarwinIngress.untilDone turns))
  ∧ ∀ bufs offset, (bufs, offset) ∈ writes (traceOf run) → bufs ≠ [] ∧ offset = 16%Z.
Proof.
  intros [d Hd] [a Ha] Hturns. cbn zeta. unfold Darwin.ingress, bind, getSelf.
  rewrite Hd, Ha.
  destruct (Darwin_ingressLoop_writes turns (replicate (batchSize d) []) c w Hturns)
    as [Hr Ht].
  destruct (Darwin.ingressLoop turns _ c w) as [[[r c'] w'] t].
  cbn in Hr, Ht |- *. subst r. split; [done|]. split; [done|].
  rewrite Ht. intros bufs offset Hin.
  apply list_elem_of_fmap in Hin as (datagrams & [= -> ->] & Hin).
  apply list_elem_of_filter in Hin as [Hne _]. split; [|done].
  by destruct datagrams.
Qed.

Lemma Darwin_ingress_skips_empty_batches_witness :
  let run := Darwin.ingress sampleDarwinTurns runningConflux (routeOutput "") in
  Forall DarwinIngress.inRange sampleDarwinTurns
  ∧ writes (traceOf run)
    = [([replicate 16 x00 ++ [x45; x00; x00; x14]; replicate 16 x00 ++ [x60]], 16%Z)].
Proof.
  cbn zeta.
  assert (Hturns : Forall DarwinIngress.inRange sampleDarwinTurns).
  { repeat constructor; cbn; lia. }
  split; [exact Hturns|].
  exact (proj1 (proj2 (Darwin_ingress_skips_empty_batches sampleDarwinTurns runningConflux
    (routeOutput "") (mk_is_Some _ _ eq_refl) (mk_is_Some _ _ eq_refl) Hturns))).
Defined.

(** ** Gateway detection (macOS) *)

Section DarwinDetection.
Context {W : Type} `{!Env W}.

(** X11.  On macOS [DetectHostGateway] assigns the fields of the conflux
    line by line: the gateway is that of the last [gateway:] line and
    the interface that of the last [interface:] line, and a field stays
    as it was when the output has no line for it.  The fields are
    assigned also when detection fails; it fails exactly when one of
    them ends up empty. *)
Theorem Darwin_DetectHostGateway_keeps_last_lines
    (c : conflux) (w w' : W) (out : string) (err : error) :
  env_exec ["route"; "-n"; "get"; "default"] w = (w', (out, err)) →
  let run := Darwin.DetectHostGateway c w in
  let lines := strings.Split out "010" in
  let gw := default (gateway c) (last (omap gatewayOf lines)) in
  let ifc := default (iface c) (last (omap interfaceOf lines)) in
  worldOf run = w' ∧
  match err with
  | Some e => resultOf run = Val (Some e) ∧ selfOf run = c
  | None =>
      selfOf run = set_route gw ifc c
      ∧ resultOf run
        = Val (if decide (gw = "" ∨ ifc = "")
               then Some "default gateway or interface not found" else None)
  end.
Proof.
  intros Hexec. cbn zeta. unfold Darwin.DetectHostGateway, bind, Output. rewrite Hexec.
  destruct err as [e|]; [done|]. cbn beta iota. unfold getSelf.
  rewrite Darwin_scanLine_last. cbn [fst snd]. unfold modifySelf.
  by case_decide.
Qed.
End DarwinDetection.

Lemma Darwin_DetectHostGateway_keeps_last_lines_witness :
  let c := set_route "10.0.0.1" "en1" newConflux in
  let run := Darwin.DetectHostGateway c (routeOutput interfaceOnly) in
  resultOf run = Val None ∧ selfOf run = set_route "10.0.0.1" "en0" c.
Proof.
  cbn zeta.
  assert (Hexec : env_exec ["route"; "-n"; "get"; "default"] (routeOutput interfaceOnly)
                  = (routeOutput interfaceOnly, (interfaceOnly, None))) by reflexivity.
  destruct (Darwin_DetectHostGateway_keeps_last_lines
              (set_route "10.0.0.1" "en1" newConflux)
              (routeOutput interfaceOnly) (routeOutput interfaceOnly) interfaceOnly
              None Hexec) as (_ & Hself & Hres).
  split; [exact Hres | exact Hself].
Defined.

(** ** The Windows variant *)

Section WindowsDetection.
Context {W : Type} `{!Env W}.

Lemma Windows_scanLines_defaultRow lines :
  match head (omap defaultRow lines) with
  | Some (gw, ifc) => Windows.scanLines lines = (gw, ifc) ∧ gw ≠ "" ∧ ifc ≠ ""
  | None => Windows.scanLines lines = ("", "")
  end.
Proof.
  induction lines as [|line lines IH]; [done|].
  cbn [Windows.scanLines omap list_omap]. unfold defaultRow.
  pose proof (Fields_nonempty line) as Hne.
  destruct (strings.Fields line) as [|dst [|mask [|gw [|ifc [|f5 fs]]]]];
    try (rewrite decide_False by (cbn; lia); exact IH).
  cbn [length lookup list_lookup].
  destruct (decide (dst = "0.0.0.0" ∧ mask = "0.0.0.0")) as [[-> ->]|Hno].
  - rewrite decide_True by (repeat split; [cbn; lia|done..]). cbn.
    do 2 apply Forall_cons in Hne as [_ Hne].
    apply Forall_cons in Hne as [? Hne]. by apply Forall_cons in Hne as [? _].
  - rewrite decide_False; [exact IH|]. intros (_ & [= ->] & [= ->]). by apply Hno.
Qed.

(** X15.  On Windows [DetectHostGateway] takes the gateway and the
    interface from the third and fourth field of the first line of the
    output that has at least five fields and starts with
    [0.0.0.0 0.0.0.0]; it fails with the error of the command, or,
    exactly when the output has no such line, with its own error, and
    then leaves the conflux as it was. *)
Theorem Windows_DetectHostGateway_first_default_row
    (c : conflux) (w w' : W) (out : string) (err : error) :
  env_exec ["route"; "print"; "0.0.0.0"] w = (w', (out, err)) →
  let run := Windows.DetectHostGateway c w in
  worldOf run = w' ∧
  match err, head (omap defaultRow (strings.Split out "010")) with
  | Some e, _ => resultOf run = Val (Some e) ∧ selfOf run = c
  | None, Some (gw, ifc) =>
      resultOf run = Val None ∧ selfOf run = set_route gw ifc c ∧ gw ≠ "" ∧ ifc ≠ ""
  | None, None =>
      resultOf run = Val (Some "host default gateway or interface not found")
      ∧ selfOf run = c
  end.
Proof.
  intros Hexec. cbn zeta. unfold Windows.DetectHostGateway, bind, Output. rewrite Hexec.
  destruct err as [e|]; [done|]. cbn beta iota.
  pose proof (Windows_scanLines_defaultRow (strings.Split out "010")) as Hscan.
  destruct (head (omap defaultRow (strings.Split out "010"))) as [[gw ifc]|].
  - destruct Hscan as (-> & Hgw & Hifc). by rewrite decide_False by tauto.
  - rewrite Hscan. by rewrite decide_True by by left.
Qed.

(** X16.  On Windows teardown of the host configuration gives up when
    the virtual interface cannot be found: an error is logged and no
    command is run, so the route to the veil host is not removed
    either.  When the interface is found both deletes are run, whatever
    the first one returns. *)
Theorem Windows_CleanHostConfiguraions_needs_interface
    (c : conflux) (w : W) (veilnet : Z + string) (a : Anchor) :
  anchor c = Some a →
  let run := Windows.CleanHostConfiguraions veilnet c w in
  resultOf run = Val tt
  ∧ selfOf run = c
  ∧ commands (traceOf run)
    = match veilnet with
      | inr _ => []
      | inl index =>
          ["route"; "delete"; "0.0.0.0"; "mask"; "0.0.0.0"; "if"; Itoa index]
          :: (if decide (veilHost a ≠ "")
              then [["route"; "delete"; veilHost a; "mask"; "255.255.255.255"; gateway c]]
              else [])
      end
  ∧ length (complaints (traceOf run))
    = length (failures (traceOf run)) + (if veilnet is inr _ then 1 else 0).
Proof.
  intros Ha. cbn zeta. unfold Windows.CleanHostConfiguraions, Windows.GetVeilHost.
  destruct veilnet as [index|e]; [|done].
  unfold_commands. next_command; unfold_commands; rewrite Ha; unfold_commands.
  all: case_decide; unfold_commands; repeat (next_command; unfold_commands).
  all: done.
Qed.
End WindowsDetection.

Lemma Windows_DetectHostGateway_first_default_row_witness :
  env_exec ["route"; "print"; "0.0.0.0"] (routeOutput routePrint)
  = (routeOutput routePrint, (routePrint, None))
  ∧ selfOf (Windows.DetectHostGateway newConflux (routeOutput routePrint))
    = set_route "192.168.1.1" "192.168.1.23" newConflux.
Proof.
  assert (Hexec : env_exec ["route"; "print"; "0.0.0.0"] (routeOutput routePrint)
                  = (routeOutput routePrint, (routePrint, None))) by reflexivity.
  split; [exact Hexec|].
  destruct (Windows_DetectHostGateway_first_default_row newConflux (routeOutput routePrint)
              (routeOutput routePrint) routePrint None Hexec) as (_ & Hrun).
  exact (proj1 (proj2 Hrun)).
Defined.

Lemma Windows_CleanHostConfiguraions_needs_interface_witness :
  let run := Windows.CleanHostConfiguraions (inr "no such network interface")
               runningConflux (scripted singleDns []) in
  anchor runningConflux = Some {| veilHost := "203.0.113.7" |}
  ∧ commands (traceOf run) = []
  ∧ length (complaints (traceOf run)) = 1.
Proof.
  cbn zeta. split; [reflexivity|].
  destruct (Windows_CleanHostConfiguraions_needs_interface runningConflux
              (scripted singleDns []) (inr "no such network interface")
              {| veilHost := "203.0.113.7" |} eq_refl) as (_ & _ & Hcommands & Hlogged).
  split; [exact Hcommands | exact Hlogged].
Defined.

(** ** Registration *)

Section Registration.
Import Cli.

Lemma login_sent net email password :
  (sent (login net email password).1 = []
   ∨ ∃ req, sent (login net email password).1 = [req]
            ∧ method req = "POST"
            ∧ url req = "https://supabase.veilnet.org/auth/v1/token?grant_type=password")
  ∧ ∀ token, (login net email password).2 = inl token →
      ∃ req resp body parsed,
        sent (login net email password).1 = [req]
        ∧ clientDo net req = inl resp
        ∧ StatusCode resp = 200%Z
        ∧ Body resp = inl body
        ∧ unmarshalLogin net body = inl parsed
        ∧ token = AccessToken parsed.
Proof.
  unfold login.
  destruct (marshalLogin net email password) as [jsonData|e]; [|split; [by left|done]].
  destruct (newRequest net "POST" _) as [e|]; [split; [by left|done]|].
  set (req := {| method := "POST"; url := _; headers := _; body := jsonData |}).
  assert (Hreq : method req = "POST"
                 ∧ url req = "https://supabase.veilnet.org/auth/v1/token?grant_type=password")
    by done.
  destruct (clientDo net req) as [resp|e] eqn:Hdo.
  2:{ split; [right; by exists req|done]. }
  destruct (Body resp) as [body|e] eqn:Hbody.
  2:{ split; [right; by exists req|done]. }
  case_decide as Hstatus.
  { split; [right; by exists req|done]. }
  destruct (unmarshalLogin net body) as [parsed|e] eqn:Hparse.
  2:{ split; [right; by exists req|done]. }
  split; [right; by exists req|]. intros token [= <-].
  exists req, resp, body, parsed. repeat split; try done.
Qed.

(** X17.  [login] sends at most one request, a POST to the token
    endpoint, and returns a token only from a response with status 200
    whose body could be read and parsed: the token is the access token
    of that body.  A response with another status gives an error that
    quotes the status and the body. *)
Theorem login_token_only_from_status_200 (net : web) (email password : string) :
  let run := login net email password in
  (length (sent run.1) ≤ 1)%nat
  ∧ (∀ token, run.2 = inl token →
       ∃ req resp body parsed,
         sent run.1 = [req] ∧ method req = "POST" ∧ clientDo net req = inl resp
         ∧ StatusCode resp = 200%Z ∧ Body resp = inl body
         ∧ unmarshalLogin net body = inl parsed ∧ token = AccessToken parsed)
  ∧ (∀ req resp body,
       sent run.1 = [req] → clientDo net req = inl resp → Body resp = inl body →
       StatusCode resp ≠ 200%Z →
       run.2 = inr ("login failed with status " +:+ Itoa (StatusCode resp) +:+ ": " +:+ body)).
Proof.
  cbn zeta. destruct (login_sent net email password) as [Hsent Htoken].
  split; [|split].
  - destruct Hsent as [-> | (req & -> & _)]; cbn; lia.
  - intros token Hres. destruct (Htoken token Hres) as (req & resp & body & parsed & Hs & H).
    exists req, resp, body, parsed. split; [done|]. split; [|done].
    destruct Hsent as [Hnil | (req' & Hs' & Hm & _)]; [by rewrite Hs in Hnil|].
    rewrite Hs in Hs'. by injection Hs' as ->.
  - unfold login.
    destruct (marshalLogin net email password) as [jsonData|e]; [|done].
    destruct (newRequest net "POST" _) as [e|]; [done|].
    set (req0 := {| method := "POST"; url := _; headers := _; body := jsonData |}).
    intros req resp body Hs Hdo Hbody Hstatus.
    assert (req = req0) as ->.
    { destruct (clientDo net req0) as [resp0|e]; [|by injection Hs].
      destruct (Body resp0) as [body0|e]; [|by injection Hs].
      case_decide; [by injection Hs|].
      destruct (unmarshalLogin net body0); by injection Hs. }
    rewrite Hdo, Hbody. by rewrite decide_True.
Qed.

(** X18.  [Register.Run] logs in first and sends the registration only
    with the token of a successful login: the requests are none, the
    login alone, or the login followed by one POST that carries the
    token as bearer and names the conflux, the plane and the tag in its
    URL as they were given.  It returns no error exactly when that POST
    was answered with status 200 and a readable body. *)
Theorem Register_Run_registers_with_the_login_token (net : web) (cmd : Register.flags) :
  let run := Register.Run net cmd in
  let signin := login net (Register.Email cmd) (Register.Password cmd) in
  match signin.2 with
  | inr e => run = (signin.1, Some e)
  | inl token =>
      let target := "https://guardian.veilnet.org/conflux?conflux_name=" +:+ Register.Name cmd
                    +:+ "&plane_name=" +:+ Register.Plane cmd +:+ "&tag=" +:+ Register.Tag cmd in
      match newRequest net "POST" target with
      | Some e => sent run.1 = sent signin.1 ∧ is_Some run.2
      | None =>
          ∃ req, sent run.1 = sent signin.1 ++ [req]
                 ∧ method req = "POST" ∧ url req = target
                 ∧ headers req !! "Authorization" = Some ("Bearer " +:+ token)
                 ∧ (run.2 = None ↔
                    ∃ resp body, clientDo net req = inl resp ∧ StatusCode resp = 200%Z
                                 ∧ Body resp = inl body)
      end
  end.
Proof.
  cbn zeta. unfold Register.Run.
  destruct (login net (Register.Email cmd) (Register.Password cmd)) as [t [token|e]];
    cbn [fst snd]; [|done].
  unfold Register.register. cbn zeta.
  change ("https://guardian.veilnet.org" +:+ "/conflux?conflux_name=" +:+ Register.Name cmd
          +:+ "&plane_name=" +:+ Register.Plane cmd +:+ "&tag=" +:+ Register.Tag cmd)
    with ("https://guardian.veilnet.org/conflux?conflux_name=" +:+ Register.Name cmd
          +:+ "&plane_name=" +:+ Register.Plane cmd +:+ "&tag=" +:+ Register.Tag cmd).
  destruct (newRequest net "POST" _) as [e|].
  { cbn [fst snd]. unfold sent. rewrite omap_app. cbn. by rewrite app_nil_r. }
  set (req := {| method := "POST"; url := _; headers := _; body := "" |}).
  exists req.
  assert (Hsent : ∀ rest, sent rest = [] →
            sent (t ++ Logged InfoLevel "Login successful"
                    :: Logged InfoLevel ("Registering conflux " +:+ Register.Name cmd
                                         +:+ " on plane " +:+ Register.Plane cmd
                                         +:+ " with tag " +:+ Register.Tag cmd)
                    :: Sent req :: rest)
            = sent t ++ [req]).
  { intros rest Hrest. unfold sent in *. rewrite omap_app. cbn. by rewrite Hrest. }
  destruct (clientDo net req) as [resp|e] eqn:Hdo; cbn [fst snd].
  2:{ rewrite (Hsent []) by done. repeat split; try done. by intros (? & ? & [=] & _). }
  destruct (Body resp) as [body|e] eqn:Hbody; cbn [fst snd].
  2:{ rewrite (Hsent []) by done. repeat split; try done.
      intros (resp' & body' & [= <-] & _ & Hb). congruence. }
  case_decide as Hstatus; cbn [fst snd].
  - rewrite (Hsent []) by done. repeat split; try done.
    intros (resp' & body' & [= <-] & Hs & _). done.
  - rewrite (Hsent [_]) by done. repeat split; try done. intros _.
    exists resp, body. repeat split; try done.
Qed.
(** X19.  [UnRegister.Run] logs in first in the same way and then sends
    one DELETE that carries the token of the login as bearer and names
    the conflux and the plane in its URL as they were given, without a
    tag.  It returns no error exactly when that DELETE was answered
    with status 200 and a readable body. *)
Theorem UnRegister_Run_deletes_with_the_login_token (net : web) (cmd : UnRegister.flags) :
  let run := UnRegister.Run net cmd in
  let signin := login net (UnRegister.Email cmd) (UnRegister.Password cmd) in
  match signin.2 with
  | inr e => run = (signin.1, Some e)
  | inl token =>
      let target := "https://guardian.veilnet.org/conflux?conflux_name="
                    +:+ UnRegister.Name cmd +:+ "&plane_name=" +:+ UnRegister.Plane cmd in
      match newRequest net "DELETE" target with
      | Some e => sent run.1 = sent signin.1 ∧ is_Some run.2
      | None =>
          ∃ req, sent run.1 = sent signin.1 ++ [req]
                 ∧ method req = "DELETE" ∧ url req = target
                 ∧ headers req !! "Authorization" = Some ("Bearer " +:+ token)
                 ∧ (run.2 = None ↔
                    ∃ resp body, clientDo net req = inl resp ∧ StatusCode resp = 200%Z
                                 ∧ Body resp = inl body)
      end
  end.
Proof.
  cbn zeta. unfold UnRegister.Run.
  destruct (login net (UnRegister.Email cmd) (UnRegister.Password cmd)) as [t [token|e]];
    cbn [fst snd]; [|done].
  unfold UnRegister.unregister. cbn zeta.
  change ("https://guardian.veilnet.org" +:+ "/conflux?conflux_name=" +:+ UnRegister.Name cmd
          +:+ "&plane_name=" +:+ UnRegister.Plane cmd)
    with ("https://guardian.veilnet.org/conflux?conflux_name=" +:+ UnRegister.Name cmd
          +:+ "&plane_name=" +:+ UnRegister.Plane cmd).
  destruct (newRequest net "DELETE" _) as [e|].
  { cbn [fst snd]. unfold sent. rewrite omap_app. cbn. by rewrite app_nil_r. }
  set (req := {| method := "DELETE"; url := _; headers := _; body := "" |}).
  exists req.
  assert (Hsent : ∀ rest, sent rest = [] →
            sent (t ++ Logged InfoLevel "Login successful"
                    :: Logged InfoLevel ("Unregistering conflux " +:+ UnRegister.Name cmd
                                         +:+ " on plane " +:+ UnRegister.Plane cmd)
                    :: Sent req :: rest)
            = sent t ++ [req]).
  { intros rest Hrest. unfold sent in *. rewrite omap_app. cbn. by rewrite Hrest. }
  destruct (clientDo net req) as [resp|e] eqn:Hdo; cbn [fst snd].
  2:{ rewrite (Hsent []) by done. repeat split; try done. by intros (? & ? & [=] & _). }
  destruct (Body resp) as [body|e] eqn:Hbody; cbn [fst snd].
  2:{ rewrite (Hsent []) by done. repeat split; try done.
      intros (resp' & body' & [= <-] & _ & Hb). congruence. }
  case_decide as Hstatus; cbn [fst snd].
  - rewrite (Hsent []) by done. repeat split; try done.
    intros (resp' & body' & [= <-] & Hs & _). done.
  - rewrite (Hsent [_]) by done. repeat split; try done. intros _.
    exists resp, body. repeat split; try done.
Qed.
End Registration.
